(** * cyan: the bundle mutation orchestrator ([cyan/tbhtypes/app_bundle.py])

    A shallow embedding of the [AppBundle] class and the properties of its
    operations: the removal engine ([remove]), the artifact enumeration and
    its cache, the mass operation driver ([mass_operate]), the extension
    injector ([_inject_into_extension], [inject_all_extensions]) and the
    encrypted-extension filter ([remove_encrypted_extensions]) and the icon
    pipeline ([change_icon]).

    The Python standard-library calls the class makes ([os.path.exists],
    [shutil.rmtree], [os.remove], [glob.glob]) are modelled on a finite map
    from canonical paths to nodes.  The classes the module imports from its
    sibling modules ([Plist], [Executable], [MainExecutable]) are an
    interface the development is parametric in; every call on them is
    recorded, with its outcome, in a trace the properties speak about.
    Methods are computations in a state-and-exception monad over the disk,
    the collaborators' state, the printed lines and that trace. *)

From Stdlib Require Import String Ascii List Bool Arith Lia.
From stdpp Require Import base option list gmap strings pretty.

(* ===================================================================== *)
(** ** Python strings *)
(* ===================================================================== *)

(** [s.startswith(pre)] *)
Fixpoint startswith (s pre : string) {struct pre} : bool :=
  match pre with
  | EmptyString => true
  | String a pre' =>
      match s with
      | EmptyString => false
      | String b s' => if Ascii.eqb a b then startswith s' pre' else false
      end
  end.

(** [needle in hay] on two [str] values: substring containment. *)
Fixpoint contains (needle hay : string) : bool :=
  startswith hay needle ||
  match hay with
  | EmptyString => false
  | String _ t => contains needle t
  end.

(** [s.endswith(suf)] *)
Fixpoint endswith (s suf : string) : bool :=
  String.eqb s suf ||
  match s with
  | EmptyString => false
  | String _ t => endswith t suf
  end.

(** [s.split("/")] *)
Fixpoint segments (s : string) : list string :=
  match s with
  | EmptyString => [EmptyString]
  | String c t =>
      if Ascii.eqb c "/" then EmptyString :: segments t
      else match segments t with
           | [] => [String c EmptyString]
           | h :: r => String c h :: r
           end
  end.

(** [sep.join(l)] *)
Fixpoint join (sep : string) (l : list string) : string :=
  match l with
  | [] => ""
  | [x] => x
  | x :: r => x +:+ sep +:+ join sep r
  end.

(** [os.path.isabs] on POSIX. *)
Definition isabs (s : string) : bool := startswith s "/".

(* ===================================================================== *)
(** ** Exceptions and results *)
(* ===================================================================== *)

(** The exception classes that matter to the control flow of the module.
    [SystemExit] derives from [BaseException] only, so an
    [except Exception] clause does not catch it. *)
Inductive exn : Type :=
  | FileNotFoundError
  | NotADirectoryError
  | IsADirectoryError
  | KeyError (key : string)
  | OSError
  | SystemExit
  | OtherException (msg : string).

Definition is_Exception (e : exn) : bool :=
  match e with
  | SystemExit => false
  | _ => true
  end.

Definition is_NotADirectoryError (e : exn) : bool :=
  match e with
  | NotADirectoryError => true
  | _ => false
  end.

Inductive result (A : Type) : Type :=
  | Ok (a : A)
  | Raise (e : exn).
Arguments Ok {A} a.
Arguments Raise {A} e.

(* ===================================================================== *)
(** ** The file system *)
(* ===================================================================== *)

(** A node is a directory or a regular file with its contents. *)
Inductive node : Type :=
  | Dir
  | File (data : string).

(** The disk: a finite map from canonical paths (lists of components, the
    root directory being the empty list) to nodes, and the working
    directory relative paths start from.  A path string is looked up
    lexically, as [os.path.normpath] reads it.  Symbolic links and
    permissions are not modelled: removing an existing entry succeeds. *)
Record FS : Type := mkFS {
  entries : gmap (list string) node;
  cwd : list string
}.

(** One step of path normalisation (as [os.path.normpath]: lexical). *)
Definition canon_step (stack : list string) (seg : string) : list string :=
  if String.eqb seg "" then stack
  else if String.eqb seg "." then stack
  else if String.eqb seg ".." then removelast stack
  else stack ++ [seg].

Definition canon (fs : FS) (s : string) : list string :=
  fold_left canon_step (segments s) (if isabs s then [] else cwd fs).

Definition stat (fs : FS) (s : string) : option node :=
  if String.eqb s "" then None else entries fs !! canon fs s.

(** [os.path.exists] *)
Definition path_exists (fs : FS) (s : string) : bool :=
  match stat fs s with
  | Some _ => true
  | None => false
  end.

Definition is_dir (fs : FS) (p : list string) : bool :=
  match entries fs !! p with
  | Some Dir => true
  | _ => false
  end.

(** [under p k]: [k] is [p] or lies below it. *)
Fixpoint under (p k : list string) : bool :=
  match p with
  | [] => true
  | a :: p' =>
      match k with
      | [] => false
      | b :: k' => if String.eqb a b then under p' k' else false
      end
  end.

(** Deleting the whole subtree at [p]. *)
Definition prune (p : list string) (fs : FS) : FS :=
  mkFS (filter (fun kv => under p kv.1 = false) (entries fs)) (cwd fs).

(** [shutil.rmtree(path)]: removes an existing directory with everything
    below it; raises [NotADirectoryError] on a regular file. *)
Definition rmtree (s : string) (fs : FS) : result unit * FS :=
  match stat fs s with
  | None => (Raise FileNotFoundError, fs)
  | Some (File _) => (Raise NotADirectoryError, fs)
  | Some Dir => (Ok tt, prune (canon fs s) fs)
  end.

(** [os.remove(path)]: removes a regular file. *)
Definition os_remove (s : string) (fs : FS) : result unit * FS :=
  match stat fs s with
  | None => (Raise FileNotFoundError, fs)
  | Some Dir => (Raise IsADirectoryError, fs)
  | Some (File _) => (Ok tt, mkFS (delete (canon fs s) (entries fs)) (cwd fs))
  end.

(** A name a directory entry can have. *)
Definition valid_name (n : string) : bool :=
  negb (String.eqb n "") && negb (String.eqb n ".") && negb (String.eqb n "..")
  && negb (contains "/" n).

(** [glob] wildcards do not match names that start with a dot. *)
Definition visible (n : string) : bool := valid_name n && negb (startswith n ".").

(** [strip p k = Some r] when [k = p ++ r]. *)
Fixpoint strip (p k : list string) : option (list string) :=
  match p with
  | [] => Some k
  | a :: p' =>
      match k with
      | [] => None
      | b :: k' => if String.eqb a b then strip p' k' else None
      end
  end.

(** [os.listdir]: the names directly inside the directory [p]. *)
Definition listdir (fs : FS) (p : list string) : list string :=
  if is_dir fs p then
    omap (fun kv => match strip p kv.1 with
                    | Some [n] => if valid_name n then Some n else None
                    | _ => None
                    end) (map_to_list (entries fs))
  else [].

(** [glob.has_magic]: the string holds one of the wildcard characters
    [*], [?] and [[]. *)
Definition has_magic (s : string) : bool :=
  contains "*" s || contains "?" s || contains "[" s.

Fixpoint all_slashes (s : string) : bool :=
  match s with
  | EmptyString => true
  | String c t => Ascii.eqb c "/" && all_slashes t
  end.

(** [s.rstrip("/")] *)
Fixpoint rstrip_slashes (s : string) : string :=
  match s with
  | EmptyString => EmptyString
  | String c t => if all_slashes (String c t) then EmptyString
                  else String c (rstrip_slashes t)
  end.

(** The directory part [os.path.split] gives for a pattern
    [f"{dir}/<last component>"]: [dir + "/"] without its trailing slashes,
    unless it consists of slashes only. *)
Definition glob_dir (dir : string) : string :=
  if all_slashes (dir +:+ "/") then dir +:+ "/" else rstrip_slashes (dir +:+ "/").

(** [os.path.join(a, b)] on POSIX. *)
Definition os_path_join (a b : string) : string :=
  if startswith b "/" then b
  else if String.eqb a "" || endswith a "/" then a +:+ b
  else a +:+ "/" +:+ b.

(** [glob._glob1(dirname, "*" + suf)]: the names in the directory
    [dirname] that do not start with a dot and end in [suf] (none when it
    is not a directory). *)
Definition glob1 (fs : FS) (dirname suf : string) : list string :=
  filter (fun n => visible n && endswith n suf = true)
         (listdir fs (canon fs dirname)).

(* ===================================================================== *)
(** ** The collaborators: [Plist], [Executable], [MainExecutable] *)
(* ===================================================================== *)

(** [Literal["fakesign", "thin"]]: the capability [mass_operate] looks up
    by name with [getattr]. *)
Inductive capability : Type := fakesign | thin.

(** Modelled from the spec: the [Plist] class of [cyan/tbhtypes/plist.py]
    is not part of the module; a metadata document is a structured
    key-value file keyed by string, and the module only reads the string
    stored under [CFBundleExecutable]. *)
Record Plist : Type := mkPlist {
  plist_path : string;
  document : gmap string string
}.

(** [pl[key]] *)
Definition getitem (pl : Plist) (key : string) : result string :=
  match document pl !! key with
  | Some v => Ok v
  | None => Raise (KeyError key)
  end.

(** Modelled from the spec: the [Executable] and [MainExecutable] classes
    of [cyan/tbhtypes/executable.py] and [main_executable.py] are not part
    of the module; an executable reference identifies a binary on disk
    ([exe_path]) and carries the display name [bn] the encrypted-extension
    filter reports, which for a package's main executable is its declared
    executable name. *)
Record Executable : Type := mkExecutable {
  exe_path : string;
  bn : string
}.

(** [os.path.basename] *)
Definition basename (s : string) : string := List.last (segments s) "".

(** The string after the first [n] characters. *)
Fixpoint string_drop (n : nat) (s : string) : string :=
  match n, s with
  | O, _ => s
  | S n', String _ t => string_drop n' t
  | S _, EmptyString => EmptyString
  end.

(** What the module asks of its collaborators.  [T] is the collaborators'
    own state (the tools they run, the in-memory objects they keep, such
    as the pending load-command edits of an executable).  Constructors and
    queries read the world; the other capabilities may change the disk and
    [T].  Every call may raise. *)
Class Collaborators (T : Type) : Type := {
  (** [glob.glob(pattern, recursive=...)] for a pattern whose directory
      part holds a wildcard character.  The patterns of the module
      interpolate the package root, and [glob] takes [*], [?] and [[] in it
      as wildcards too; how it expands them is not modelled, so what it
      returns then is left open here.  (Not a collaborator of the module:
      the part of the standard library the development is parametric
      in.) *)
  glob_magic : string -> bool -> FS -> list string;
  (** [Plist(path)]: read and parse the document at [path]. *)
  Plist_load : string -> FS -> T -> result (gmap string string);
  (** [Executable(path)], [MainExecutable(path, bundle_path)]: whatever
      the constructor checks. *)
  Executable_init : string -> FS -> T -> result unit;
  Executable_is_encrypted : Executable -> FS -> T -> result bool;
  Executable_fakesign : Executable -> FS * T -> result bool * (FS * T);
  Executable_thin : Executable -> FS * T -> result bool * (FS * T);
  Executable_remove_signature : Executable -> FS * T -> result unit * (FS * T);
  (** [exe.inj_func(cmd)]: append a load command (accumulated). *)
  Executable_inj_func : Executable -> string -> FS * T -> result unit * (FS * T);
  (** [exe.inj is not None] *)
  Executable_inj_present : Executable -> T -> bool;
  (** [exe.inj.write(path)]: persist the accumulated load commands. *)
  Executable_inj_write : Executable -> string -> FS * T -> result unit * (FS * T);
  MainExecutable_write_entitlements :
    Executable -> string -> FS * T -> result bool * (FS * T);
  MainExecutable_sign_with_entitlements :
    Executable -> string -> FS * T -> result bool * (FS * T);
  MainExecutable_inject :
    Executable -> list (string * string) -> string -> bool ->
    FS * T -> result unit * (FS * T)
}.

(** The calls made on the collaborators, with what they returned. *)
Inductive event : Type :=
  | EvPlist (path : string) (r : result unit)
  | EvExecutable (path : string) (r : result unit)
  | EvIsEncrypted (path : string) (r : result bool)
  | EvCapability (f : capability) (path : string) (r : result bool)
  | EvRemoveSignature (path : string) (r : result unit)
  | EvInjFunc (path cmd : string) (r : result unit)
  | EvInjPresent (path : string) (present : bool)
  | EvInjWrite (path target : string) (r : result unit)
  | EvWriteEntitlements (path out : string) (r : result bool)
  | EvSignWithEntitlements (path ent : string) (r : result bool)
  | EvInject (path : string) (r : result unit).

(** What a run of the program acts on: the disk, the collaborators'
    state, the lines printed so far and the collaborator calls so far. *)
Record state (T : Type) : Type := mkState {
  disk : FS;
  tool : T;
  stdout : list string;
  trace : list event
}.
Arguments mkState {T} _ _ _ _.
Arguments disk {T} _.
Arguments tool {T} _.
Arguments stdout {T} _.
Arguments trace {T} _.

(** Computations: state passing with exceptions. *)
Definition M (T A : Type) : Type := state T -> result A * state T.

#[global] Instance M_ret {T} : MRet (M T) := fun A a st => (Ok a, st).

#[global] Instance M_bind {T} : MBind (M T) := fun A B f m st =>
  match m st with
  | (Ok a, st') => f a st'
  | (Raise e, st') => (Raise e, st')
  end.

Definition lift_result {T A} (r : result A) : M T A := fun st => (r, st).

(** [try: m except <classes>: h] *)
Definition try_except {T A} (m : M T A) (catches : exn -> bool) (h : exn -> M T A)
  : M T A :=
  fun st =>
    match m st with
    | (Ok a, st') => (Ok a, st')
    | (Raise e, st') => if catches e then h e st' else (Raise e, st')
    end.

Definition print {T} (line : string) : M T unit := fun st =>
  (Ok tt, mkState (disk st) (tool st) (stdout st ++ [line]) (trace st)).

Definition void {A} (r : result A) : result unit :=
  match r with
  | Ok _ => Ok tt
  | Raise e => Raise e
  end.

(** A query of a collaborator: reads the world, is recorded. *)
Definition query {T A} (f : FS -> T -> result A) (ev : result A -> event) : M T A :=
  fun st =>
    let r := f (disk st) (tool st) in
    (r, mkState (disk st) (tool st) (stdout st) (trace st ++ [ev r])).

(** A call that may change the world, recorded. *)
Definition action {T A} (f : FS * T -> result A * (FS * T)) (ev : result A -> event)
  : M T A :=
  fun st =>
    let '(r, (d, t)) := f (disk st, tool st) in
    (r, mkState d t (stdout st) (trace st ++ [ev r])).

(** A standard-library call on the disk. *)
Definition on_disk {T A} (f : FS -> result A * FS) : M T A := fun st =>
  let '(r, d) := f (disk st) in
  (r, mkState d (tool st) (stdout st) (trace st)).

(** A computation that starts by looking at the disk (a [glob] call). *)
Definition with_disk {T A} (k : FS -> M T A) : M T A := fun st => k (disk st) st.

(** [for x in l: body(x)] *)
Fixpoint for_each {T A} (l : list A) (body : A -> M T unit) : M T unit :=
  match l with
  | [] => mret tt
  | x :: rest => body x ;; for_each rest body
  end.

(* ===================================================================== *)
(** ** The [AppBundle] class *)
(* ===================================================================== *)

Record AppBundle : Type := mkAppBundle {
  path : string;
  plist : Plist;
  executable : Executable;
  cached_executables : option (list string)
}.

(** ESC, the character [\033] of the colour codes. *)
Definition esc : string := String (ascii_of_nat 27) EmptyString.

(** The line [mass_operate] prints:
    [f"[*] {op} \033[96m{count}\033[0m item(s)"]. *)
Definition count_line (op : string) (count : nat) : string :=
  "[*] " +:+ op +:+ " " +:+ esc +:+ "[96m" +:+ pretty count +:+ esc +:+ "[0m item(s)".

(** The path [remove] works on for a name: the name itself when the
    package root occurs in it, the name below the package root
    otherwise. *)
Definition resolve (root name : string) : string :=
  if contains root name then name else root +:+ "/" +:+ name.

Section Globbing.
Context {T : Type} {C : Collaborators T}.

(** [glob(f"{dir}/*{suf}")]: the entries of the directory part whose
    names match, each joined to the directory part as [os.path.split]
    spelled it. *)
Definition glob_in (fs : FS) (dir suf : string) : list string :=
  let dirname := glob_dir dir in
  if has_magic dirname then glob_magic (dir +:+ "/*" +:+ suf) false fs
  else map (os_path_join dirname) (glob1 fs dirname suf).

(** [glob(f"{root}/*/*{suf}")]: one wildcard level, then the suffix.
    The first level lists the entries of the root that do not start with a
    dot (a regular file among them lists nothing at the second level). *)
Definition glob_one_level (fs : FS) (root suf : string) : list string :=
  let dirname := glob_dir root in
  if has_magic dirname then glob_magic (root +:+ "/*/*" +:+ suf) false fs
  else
    concat (map (fun d => let sub := os_path_join dirname d in
                          map (os_path_join sub) (glob1 fs sub suf))
                (filter (fun d => visible d = true)
                        (listdir fs (canon fs dirname)))).

(** [glob(f"{root}/**/*{suf}", recursive=True)]: every path below [root],
    at any depth, whose components all do not start with a dot and whose
    last component ends in [suf]. *)
Definition glob_recursive (fs : FS) (root suf : string) : list string :=
  let dirname := glob_dir root in
  if has_magic dirname then glob_magic (root +:+ "/**/*" +:+ suf) true fs
  else if is_dir fs (canon fs dirname) then
    omap (fun kv => match strip (canon fs dirname) kv.1 with
                    | Some rel =>
                        match last rel with
                        | Some n =>
                            if forallb visible rel && endswith n suf
                            then Some (os_path_join dirname "" +:+ join "/" rel)
                            else None
                        | None => None
                        end
                    | None => None
                    end) (map_to_list (entries fs))
  else [].

End Globbing.

Section Orchestrator.
Context {T : Type} {C : Collaborators T}.

(** [Plist(path)] *)
Definition Plist_new (p : string) : M T Plist :=
  doc ← query (Plist_load p) (fun r => EvPlist p (void r));
  mret (mkPlist p doc).

(** [Executable(path)] *)
Definition Executable_new (p : string) : M T Executable :=
  query (Executable_init p) (EvExecutable p);;
  mret (mkExecutable p (basename p)).

(** [MainExecutable(path, bundle_path)] *)
Definition MainExecutable_new (p bundle_path : string) : M T Executable :=
  query (Executable_init p) (EvExecutable p);;
  mret (mkExecutable p (string_drop (String.length bundle_path + 1) p)).

Definition is_encrypted (exe : Executable) : M T bool :=
  query (Executable_is_encrypted exe) (EvIsEncrypted (exe_path exe)).

(** [getattr(exe, func)()] *)
Definition call_capability (func : capability) (exe : Executable) : M T bool :=
  match func with
  | fakesign => action (Executable_fakesign exe) (EvCapability fakesign (exe_path exe))
  | thin => action (Executable_thin exe) (EvCapability thin (exe_path exe))
  end.

Definition remove_signature (exe : Executable) : M T unit :=
  action (Executable_remove_signature exe) (EvRemoveSignature (exe_path exe)).

Definition inj_func (exe : Executable) (cmd : string) : M T unit :=
  action (Executable_inj_func exe cmd) (EvInjFunc (exe_path exe) cmd).

(** [exe.inj is not None] *)
Definition inj_present (exe : Executable) : M T bool :=
  query (fun _ t => Ok (Executable_inj_present exe t))
        (fun r => EvInjPresent (exe_path exe)
                    match r with Ok b => b | Raise _ => false end).

Definition inj_write (exe : Executable) (target : string) : M T unit :=
  action (Executable_inj_write exe target) (EvInjWrite (exe_path exe) target).

Definition write_entitlements (exe : Executable) (out : string) : M T bool :=
  action (MainExecutable_write_entitlements exe out)
         (EvWriteEntitlements (exe_path exe) out).

Definition sign_with_entitlements (exe : Executable) (ent : string) : M T bool :=
  action (MainExecutable_sign_with_entitlements exe ent)
         (EvSignWithEntitlements (exe_path exe) ent).

Definition inject (exe : Executable) (tweaks : list (string * string))
    (tmpdir : string) (inject_to_path : bool) : M T unit :=
  action (MainExecutable_inject exe tweaks tmpdir inject_to_path)
         (EvInject (exe_path exe)).

(** [AppBundle.__init__] *)
Definition AppBundle_init (p : string) : M T AppBundle :=
  pl ← Plist_new (p +:+ "/Info.plist");
  name ← lift_result (getitem pl "CFBundleExecutable");
  exe ← MainExecutable_new (p +:+ "/" +:+ name) p;
  mret (mkAppBundle p pl exe None).

(** The loop of [remove], with the flag [existed] it updates. *)
Fixpoint remove_loop (root : string) (names : list string) (existed : bool)
  : M T bool :=
  match names with
  | [] => mret existed
  | name :: rest =>
      let p := resolve root name in
      ex ← on_disk (fun d => (Ok (path_exists d p), d));
      if negb ex then remove_loop root rest existed
      else
        try_except (on_disk (rmtree p)) is_NotADirectoryError
                   (fun _ => on_disk (os_remove p));;
        remove_loop root rest true
  end.

Definition remove (self : AppBundle) (names : list string) : M T bool :=
  remove_loop (path self) names false.

Definition remove_watch_apps (self : AppBundle) : M T unit :=
  b ← remove self ["Watch"; "WatchKit"; "com.apple.WatchPlaceholder"];
  if b : bool then print "[*] removed watch app" else print "[?] watch app not present".

Definition get_executables (self : AppBundle) (d : FS) : list string :=
  glob_recursive d (path self) ".dylib"
  ++ glob_recursive d (path self) ".appex"
  ++ glob_recursive d (path self) ".framework".

Definition get_all_appex (self : AppBundle) (d : FS) : list string :=
  glob_in d (path self +:+ "/Extensions") ".appex"
  ++ glob_in d (path self +:+ "/PlugIns") ".appex".

(** The body of the loop of [mass_operate]: a dylib is the executable;
    any other artifact names its executable in its own [Info.plist]. *)
Definition resolve_and_call (func : capability) (ts : string) : M T bool :=
  if endswith ts ".dylib" then
    exe ← Executable_new ts;
    call_capability func exe
  else
    pl ← Plist_new (ts +:+ "/Info.plist");
    name ← lift_result (getitem pl "CFBundleExecutable");
    exe ← Executable_new (ts +:+ "/" +:+ name);
    call_capability func exe.

(** The sweep of [mass_operate] over the cached artifacts, with the
    counter it updates. *)
Fixpoint mass_loop (func : capability) (artifacts : list string) (count : nat)
  : M T nat :=
  match artifacts with
  | [] => mret count
  | ts :: rest =>
      call ← resolve_and_call func ts;
      mass_loop func rest (if call : bool then count + 1 else count)
  end.

(** [self.cached_executables] after the first two lines of
    [mass_operate]. *)
Definition fill_cache (self : AppBundle) (d : FS) : AppBundle :=
  match cached_executables self with
  | Some _ => self
  | None => mkAppBundle (path self) (plist self) (executable self)
                        (Some (get_executables self d))
  end.

Definition cache_of (self : AppBundle) : list string :=
  match cached_executables self with
  | Some l => l
  | None => []
  end.

(** [mass_operate] after the cache is filled. *)
Definition mass_sweep (self : AppBundle) (op : string) (func : capability)
  : M T unit :=
  main ← call_capability func (executable self);
  count ← mass_loop func (cache_of self) (if main : bool then 1 else 0);
  print (count_line op count).

(** [mass_operate]: returns the object as the call leaves it (the cache
    field is assigned before anything can raise) and the outcome. *)
Definition mass_operate (self : AppBundle) (op : string) (func : capability)
    (st : state T) : AppBundle * (result unit * state T) :=
  let self' := fill_cache self (disk st) in
  (self', mass_sweep self' op func st).

Definition fakesign_all (self : AppBundle) :=
  mass_operate self "fakesigned" fakesign.

Definition thin_all (self : AppBundle) :=
  mass_operate self "thinned" thin.

Definition remove_all_extensions (self : AppBundle) : M T unit :=
  b ← remove self ["Extensions"; "PlugIns"];
  if b : bool then print "[*] removed app extensions" else print "[?] no app extensions".

(** The loop of [remove_encrypted_extensions], with the list [removed]
    it appends to. *)
Fixpoint encrypted_loop (self : AppBundle) (plugins : list string)
    (removed : list string) : M T (list string) :=
  match plugins with
  | [] => mret removed
  | plugin :: rest =>
      bundle ← AppBundle_init plugin;
      enc ← is_encrypted (executable bundle);
      if enc : bool then
        remove self [plugin];;
        encrypted_loop self rest (removed ++ [bn (executable bundle)])
      else encrypted_loop self rest removed
  end.

Definition remove_encrypted_extensions (self : AppBundle) : M T unit :=
  plugins ← with_disk (fun d => mret (glob_one_level d (path self) ".appex"));
  removed ← encrypted_loop self plugins [];
  if Nat.eqb (List.length removed) 0 then print "[?] no encrypted plugins"
  else print ("[*] removed encrypted plugins: " +:+ join ", " removed).

(** The loop that appends one load command per dylib. *)
Fixpoint inject_loop (exe : Executable) (inject_to_path : bool)
    (names : list string) : M T unit :=
  match names with
  | [] => mret tt
  | dylib_name :: rest =>
      (if inject_to_path
       then inj_func exe ("@executable_path/../../" +:+ dylib_name)
       else inj_func exe ("@rpath/" +:+ dylib_name));;
      inject_loop exe inject_to_path rest
  end.

(** The second half of [_inject_into_extension], from the entitlements
    side file to the last message: save the entitlements, remove the
    signature, append the load commands, write them, sign again. *)
Definition inject_and_sign (ext_bundle : AppBundle) (appex_path appex_name : string)
    (dylibs_to_inject : list (string * string)) (inject_to_path : bool) : M T unit :=
  let ent_path := appex_path +:+ "/cyan.entitlements" in
  has_entitlements ← write_entitlements (executable ext_bundle) ent_path;
  remove_signature (executable ext_bundle);;
  inject_loop (executable ext_bundle) inject_to_path (map fst dylibs_to_inject);;
  present ← inj_present (executable ext_bundle);
  (if present : bool
   then inj_write (executable ext_bundle) (exe_path (executable ext_bundle))
   else mret tt);;
  (if has_entitlements : bool
   then sign_with_entitlements (executable ext_bundle) ent_path;; mret tt
   else mret tt);;
  print ("[*] injected into extension: " +:+ appex_name).

(** [_inject_into_extension]; the [tweaks] dict is the list of its items
    in iteration order. *)
Definition _inject_into_extension (self : AppBundle) (appex_path : string)
    (tweaks : list (string * string)) (inject_to_path : bool) : M T unit :=
  let appex_name := basename appex_path in
  r ← try_except (b ← AppBundle_init appex_path; mret (Some b)) is_Exception
        (fun _ =>
           print ("[?] skipping " +:+ appex_name +:+ ": couldn't read Info.plist");;
           mret None);
  match r with
  | None => mret tt
  | Some ext_bundle =>
      enc ← is_encrypted (executable ext_bundle);
      if enc : bool then print ("[?] skipping " +:+ appex_name +:+ ": encrypted")
      else
        let dylibs_to_inject :=
          List.filter (fun kv => endswith kv.1 ".dylib") tweaks in
        match dylibs_to_inject with
        | [] => mret tt
        | _ :: _ =>
            inject_and_sign ext_bundle appex_path appex_name dylibs_to_inject
                            inject_to_path
        end
  end.

Definition inject_all_extensions (self : AppBundle)
    (tweaks : list (string * string)) (tmpdir : string)
    (inject_to_path inject_all : bool) : M T unit :=
  inject (executable self) tweaks tmpdir inject_to_path;;
  if negb inject_all then mret tt
  else
    appex_list ← with_disk (fun d => mret (get_all_appex self d));
    match appex_list with
    | [] => print "[?] no app extensions found for -a"
    | _ :: _ =>
        for_each appex_list
          (fun appex_path =>
             _inject_into_extension self appex_path tweaks inject_to_path)
    end.

End Orchestrator.

(* ===================================================================== *)
(** ** Scripted collaborators *)
(* ===================================================================== *)

(** An implementation of the collaborators that follows a script, used to
    run the orchestration on concrete packages. *)
Module Scripted.

Record script : Type := mkScript {
  (** the documents that parse, by path *)
  docs : list (string * list (string * string));
  (** the executables that report [cryptid 1] *)
  encrypted_exes : list string;
  (** the executables on which [fakesign] and [thin] report failure *)
  failing : list string;
  (** the executables that carry entitlements *)
  entitled : list string;
  (** the executables the signing tool breaks on *)
  broken_sign : list string;
  (** the load commands appended and not yet written, by executable *)
  pending : list (string * string);
  (** the load commands written, by file *)
  written : list (string * string)
}.

Definition mem (s : string) (l : list string) : bool := existsb (String.eqb s) l.

Fixpoint assoc {A} (k : string) (l : list (string * A)) : option A :=
  match l with
  | [] => None
  | (k', v) :: r => if String.eqb k k' then Some v else assoc k r
  end.

Definition load (p : string) (d : FS) (t : script) : result (gmap string string) :=
  if path_exists d p then
    match assoc p (docs t) with
    | Some kv => Ok (list_to_map kv)
    | None => Raise (OtherException "invalid plist")
    end
  else Raise FileNotFoundError.

Definition init (p : string) (d : FS) (t : script) : result unit :=
  if path_exists d p then Ok tt else Raise FileNotFoundError.

Definition sign_tool (exe : Executable) (w : FS * script)
  : result bool * (FS * script) :=
  (Ok (negb (mem (exe_path exe) (failing w.2))), w).

Definition append_command (exe : Executable) (cmd : string) (w : FS * script)
  : result unit * (FS * script) :=
  let t := w.2 in
  (Ok tt, (w.1, mkScript (docs t) (encrypted_exes t) (failing t) (entitled t)
                         (broken_sign t) (pending t ++ [(exe_path exe, cmd)])
                         (written t))).

Definition flush (exe : Executable) (target : string) (w : FS * script)
  : result unit * (FS * script) :=
  let t := w.2 in
  let mine := List.filter (fun kv => String.eqb kv.1 (exe_path exe)) (pending t) in
  let others :=
    List.filter (fun kv => negb (String.eqb kv.1 (exe_path exe))) (pending t) in
  (Ok tt, (w.1, mkScript (docs t) (encrypted_exes t) (failing t) (entitled t)
                         (broken_sign t) others
                         (written t ++ map (fun kv => (target, kv.2)) mine))).

Definition extract_entitlements (exe : Executable) (out : string) (w : FS * script)
  : result bool * (FS * script) :=
  let has := mem (exe_path exe) (entitled w.2) in
  (Ok has,
   (mkFS (<[canon w.1 out := File (if has then "entitlements" else "")]>
            (entries w.1)) (cwd w.1), w.2)).

Definition sign (exe : Executable) (ent : string) (w : FS * script)
  : result bool * (FS * script) :=
  if mem (exe_path exe) (broken_sign w.2) then (Raise OSError, w) else (Ok true, w).

#[global] Instance collaborators : Collaborators script := {|
  glob_magic := fun _ _ _ => [];
  Plist_load := load;
  Executable_init := init;
  Executable_is_encrypted :=
    fun exe _ t => Ok (mem (exe_path exe) (encrypted_exes t));
  Executable_fakesign := sign_tool;
  Executable_thin := sign_tool;
  Executable_remove_signature := fun _ w => (Ok tt, w);
  Executable_inj_func := append_command;
  Executable_inj_present :=
    fun exe t => existsb (fun kv => String.eqb kv.1 (exe_path exe)) (pending t);
  Executable_inj_write := flush;
  MainExecutable_write_entitlements := extract_entitlements;
  MainExecutable_sign_with_entitlements := sign;
  MainExecutable_inject := fun _ _ _ _ w => (Ok tt, w)
|}.

(** A disk from a list of absolute paths. *)
Definition disk_of (l : list (string * node)) : FS :=
  mkFS (list_to_map (map (fun kv => (fold_left canon_step (segments kv.1) [], kv.2)) l))
       [].

Definition quiet : script := mkScript [] [] [] [] [] [] [].

Definition start (d : FS) (t : script) : state script := mkState d t [] [].

(** A package [/App.app] with two extensions, [A] and [B], a dylib and a
    framework. *)
Definition app_disk : FS :=
  disk_of [("/", Dir); ("/App.app", Dir);
           ("/App.app/Info.plist", File "plist");
           ("/App.app/App", File "macho");
           ("/App.app/Frameworks", Dir);
           ("/App.app/Frameworks/t.dylib", File "macho");
           ("/App.app/Frameworks/F.framework", Dir);
           ("/App.app/Frameworks/F.framework/Info.plist", File "plist");
           ("/App.app/Frameworks/F.framework/F", File "macho");
           ("/App.app/PlugIns", Dir);
           ("/App.app/PlugIns/A.appex", Dir);
           ("/App.app/PlugIns/A.appex/Info.plist", File "plist");
           ("/App.app/PlugIns/A.appex/A", File "macho");
           ("/App.app/PlugIns/B.appex", Dir);
           ("/App.app/PlugIns/B.appex/Info.plist", File "plist");
           ("/App.app/PlugIns/B.appex/B", File "macho")].

Definition app_docs : list (string * list (string * string)) :=
  [("/App.app/Info.plist", [("CFBundleExecutable", "App")]);
   ("/App.app/Frameworks/F.framework/Info.plist", [("CFBundleExecutable", "F")]);
   ("/App.app/PlugIns/A.appex/Info.plist", [("CFBundleExecutable", "A")]);
   ("/App.app/PlugIns/B.appex/Info.plist", [("CFBundleExecutable", "B")])].

Definition app_script : script := mkScript app_docs [] [] [] [] [] [].

(** A package with nothing but its main executable, on which the
    signing tool reports failure. *)
Definition bare_disk : FS :=
  disk_of [("/", Dir); ("/App.app", Dir);
           ("/App.app/Info.plist", File "plist");
           ("/App.app/App", File "macho")].

Definition failing_script : script :=
  mkScript app_docs [] ["/App.app/App"] [] [] [] [].

(** The package [/App.app] where the document of the framework does not
    parse. *)
Definition unreadable_script : script :=
  mkScript [("/App.app/Info.plist", [("CFBundleExecutable", "App")]);
            ("/App.app/PlugIns/A.appex/Info.plist", [("CFBundleExecutable", "A")]);
            ("/App.app/PlugIns/B.appex/Info.plist", [("CFBundleExecutable", "B")])]
           [] [] [] [] [] [].

(** The package [/App.app] where the extension [A] is encrypted. *)
Definition encrypted_script : script :=
  mkScript app_docs ["/App.app/PlugIns/A.appex/A"] [] [] [] [] [].

(** The package [/App.app] where the extension [A] carries
    entitlements. *)
Definition entitled_script : script :=
  mkScript app_docs [] [] ["/App.app/PlugIns/A.appex/A"] [] [] [].

(** The package [/App.app] where the extension [B] is encrypted and the
    document of the extension [A] does not parse. *)
Definition mixed_script : script :=
  mkScript [("/App.app/Info.plist", [("CFBundleExecutable", "App")]);
            ("/App.app/Frameworks/F.framework/Info.plist", [("CFBundleExecutable", "F")]);
            ("/App.app/PlugIns/B.appex/Info.plist", [("CFBundleExecutable", "B")])]
           ["/App.app/PlugIns/B.appex/B"] [] [] [] [] [].

(** A package at the relative path [app], with a watch placeholder; the
    working directory is the root directory. *)
Definition rel_disk : FS :=
  disk_of [("/", Dir); ("/app", Dir);
           ("/app/Info.plist", File "plist");
           ("/app/App", File "macho");
           ("/app/com.apple.WatchPlaceholder", Dir);
           ("/app/com.apple.WatchPlaceholder/stub", File "macho")].

Definition rel_app : AppBundle :=
  mkAppBundle "app"
    (mkPlist "app/Info.plist" (list_to_map [("CFBundleExecutable", "App")]))
    (mkExecutable "app/App" "App") None.

(** The bare package with a watch placeholder. *)
Definition watch_disk : FS :=
  disk_of [("/", Dir); ("/App.app", Dir);
           ("/App.app/Info.plist", File "plist");
           ("/App.app/App", File "macho");
           ("/App.app/com.apple.WatchPlaceholder", Dir);
           ("/App.app/com.apple.WatchPlaceholder/stub", File "macho")].

(** A package at [/tmp/App.app] next to a file [/etc/hosts]. *)
Definition hosts_disk : FS :=
  disk_of [("/", Dir); ("/etc", Dir); ("/etc/hosts", File "127.0.0.1 localhost");
           ("/tmp", Dir); ("/tmp/App.app", Dir);
           ("/tmp/App.app/Info.plist", File "plist");
           ("/tmp/App.app/App", File "macho")].

Definition tmp_app : AppBundle :=
  mkAppBundle "/tmp/App.app"
    (mkPlist "/tmp/App.app/Info.plist" (list_to_map [("CFBundleExecutable", "App")]))
    (mkExecutable "/tmp/App.app/App" "App") None.

(** The package [/App.app] after a dylib was added to it. *)
Definition grown_disk : FS :=
  mkFS (<[ ["App.app"; "Frameworks"; "new.dylib"] := File "macho" ]> (entries app_disk))
       (cwd app_disk).

(** A package with the extension [B] in [Extensions] and the extension
    [A] in [PlugIns]; [B] carries entitlements and the signing tool
    breaks on it. *)
Definition split_disk : FS :=
  disk_of [("/", Dir); ("/App.app", Dir);
           ("/App.app/Info.plist", File "plist");
           ("/App.app/App", File "macho");
           ("/App.app/Extensions", Dir);
           ("/App.app/Extensions/B.appex", Dir);
           ("/App.app/Extensions/B.appex/Info.plist", File "plist");
           ("/App.app/Extensions/B.appex/B", File "macho");
           ("/App.app/PlugIns", Dir);
           ("/App.app/PlugIns/A.appex", Dir);
           ("/App.app/PlugIns/A.appex/Info.plist", File "plist");
           ("/App.app/PlugIns/A.appex/A", File "macho")].

Definition broken_script : script :=
  mkScript [("/App.app/Info.plist", [("CFBundleExecutable", "App")]);
            ("/App.app/Extensions/B.appex/Info.plist", [("CFBundleExecutable", "B")]);
            ("/App.app/PlugIns/A.appex/Info.plist", [("CFBundleExecutable", "A")])]
           [] [] ["/App.app/Extensions/B.appex/B"]
           ["/App.app/Extensions/B.appex/B"] [] [].

(** The same package where the document of [B] does not parse, and [A]
    carries entitlements and the signing tool breaks on it. *)
Definition guarded_script : script :=
  mkScript [("/App.app/Info.plist", [("CFBundleExecutable", "App")]);
            ("/App.app/PlugIns/A.appex/Info.plist", [("CFBundleExecutable", "A")])]
           [] [] ["/App.app/PlugIns/A.appex/A"]
           ["/App.app/PlugIns/A.appex/A"] [] [].

(** The [AppBundle] object for [/App.app]. *)
Definition app : AppBundle :=
  mkAppBundle "/App.app"
    (mkPlist "/App.app/Info.plist" (list_to_map [("CFBundleExecutable", "App")]))
    (mkExecutable "/App.app/App" "App") None.

End Scripted.

(* ===================================================================== *)
(** ** Globbing below a plain root *)
(* ===================================================================== *)

(** What the three globs come to when the directory part holds no wildcard
    character and does not end in a slash (lemmas [glob_in_plain],
    [glob_one_level_plain], [glob_recursive_plain]): the directory part is
    spelled as it was given. *)
Definition plain_in (fs : FS) (dir suf : string) : list string :=
  map (fun n => dir +:+ "/" +:+ n)
      (filter (fun n => visible n && endswith n suf = true)
              (listdir fs (canon fs dir))).

Definition plain_one_level (fs : FS) (root suf : string) : list string :=
  concat (map (fun d => plain_in fs (root +:+ "/" +:+ d) suf)
              (filter (fun d => visible d = true)
                      (listdir fs (canon fs (root +:+ "/"))))).

Definition plain_recursive (fs : FS) (root suf : string) : list string :=
  if is_dir fs (canon fs (root +:+ "/")) then
    omap (fun kv => match strip (canon fs (root +:+ "/")) kv.1 with
                    | Some rel =>
                        match last rel with
                        | Some n =>
                            if forallb visible rel && endswith n suf
                            then Some (root +:+ "/" +:+ join "/" rel) else None
                        | None => None
                        end
                    | None => None
                    end) (map_to_list (entries fs))
  else [].

(* ===================================================================== *)
(** ** The specification's wording, for comparison *)
(* ===================================================================== *)

(** The resolution rule as the specification words it: an absolute name is
    used as it is, any other name is taken below the package root. *)
Definition spec_resolve (root name : string) : string :=
  if isabs name then name else root +:+ "/" +:+ name.

(** The removal contract as the specification words it, with the named
    entry of a name read by the specification's resolution rule: a call
    that returns, returns false exactly when none of the named entries
    existed, and afterwards none of them exists. *)
Definition removal_as_worded : Prop :=
  forall (T : Type) (C : Collaborators T) (self : AppBundle) (names : list string)
         (st : state T) (b : bool),
    (remove self names st).1 = Ok b ->
    (b = false
     <-> Forall (fun n => path_exists (disk st) (spec_resolve (path self) n) = false) names)
    /\ Forall (fun n => path_exists (disk (remove self names st).2)
                                    (spec_resolve (path self) n) = false) names.

(** [shrinks d d']: the disk [d'] is [d] with some entries deleted. *)
Definition shrinks (d d' : FS) : Prop :=
  cwd d' = cwd d /\ entries d' ⊆ entries d.

(** A well-formed disk: every entry other than the root lies in a
    directory that is on the disk. *)
Definition wf_disk (d : FS) : bool :=
  forallb (fun kv => match kv.1 with
                     | [] => true
                     | _ :: _ => is_dir d (removelast kv.1)
                     end) (map_to_list (entries d)).

(** The state [st] with the calls [evs] added to its trace. *)
Definition log {T} (evs : list event) (st : state T) : state T :=
  mkState (disk st) (tool st) (stdout st) (trace st ++ evs).

(** The calls that only look at the world: constructing a [Plist] or an
    executable reference, and the encryption query. *)
Definition is_lookup (ev : event) : bool :=
  match ev with
  | EvPlist _ _ | EvExecutable _ _ | EvIsEncrypted _ _ => true
  | _ => false
  end.

(** The calls made while an [AppBundle] is constructed. *)
Definition is_construction (ev : event) : bool :=
  match ev with
  | EvPlist _ _ | EvExecutable _ _ => true
  | _ => false
  end.

Definition exception_of {A} (r : result A) : option exn :=
  match r with
  | Ok _ => None
  | Raise e => Some e
  end.

(** The exception a recorded call raised, if it raised. *)
Definition raised (ev : event) : option exn :=
  match ev with
  | EvPlist _ r | EvExecutable _ r | EvRemoveSignature _ r
  | EvInjFunc _ _ r | EvInjWrite _ _ r | EvInject _ r => exception_of r
  | EvIsEncrypted _ r | EvCapability _ _ r
  | EvWriteEntitlements _ _ r | EvSignWithEntitlements _ _ r => exception_of r
  | EvInjPresent _ _ => None
  end.

(** The exception of a recorded call that raised and is not caught by
    the module: every raised exception but that of a call made while an
    [AppBundle] is constructed, when it derives from [Exception] (the
    [try]/[except Exception] of [_inject_into_extension]). *)
Definition uncaught (ev : event) : option exn :=
  match raised ev with
  | Some e => if is_construction ev && is_Exception e then None else Some e
  | None => None
  end.

(** Modelled from the spec: appending a dependency-load instruction
    accumulates it in the executable reference ("accumulated, not yet
    persisted"), so after an [inj_func] call that returned, the
    accumulator [inj] of that reference is there.  The [Executable] class
    is not part of the module. *)
Definition accumulates {T} (C : Collaborators T) : Prop :=
  forall (exe : Executable) (cmd : string) (w w' : FS * T),
    Executable_inj_func exe cmd w = (Ok tt, w') ->
    Executable_inj_present exe w'.2 = true.

(** The load-command reference [_inject_into_extension] builds for a
    dylib name. *)
Definition reference (inject_to_path : bool) (dylib_name : string) : string :=
  if inject_to_path then "@executable_path/../../" +:+ dylib_name
  else "@rpath/" +:+ dylib_name.

(** The state [st] with the lines [out] printed. *)
Definition printed {T} (out : list string) (st : state T) : state T :=
  mkState (disk st) (tool st) (stdout st ++ out) (trace st).

(** The calls [inj_func] records when every one of [cmds] is appended. *)
Definition appended (p : string) (cmds : list string) : list event :=
  map (fun c => EvInjFunc p c (Ok tt)) cmds.

(** The call that writes the pending load commands, made when the
    executable has an accumulator. *)
Definition flushed (p : string) (present : bool) : list event :=
  EvInjPresent p present :: (if present then [EvInjWrite p p (Ok tt)] else []).

(** The calls of the second half of [_inject_into_extension] on the
    executable [p] with the side file [ent] and the load commands [cmds],
    by the way it ends. *)
Inductive injection_trace (p ent : string) (cmds : list string)
  : result unit -> list event -> Prop :=
  | IT_extract_raises e :
      injection_trace p ent cmds (Raise e) [EvWriteEntitlements p ent (Raise e)]
  | IT_strip_raises has e :
      injection_trace p ent cmds (Raise e)
        [EvWriteEntitlements p ent (Ok has); EvRemoveSignature p (Raise e)]
  | IT_append_raises has (done : list string) cmd rest e :
      cmds = done ++ cmd :: rest ->
      injection_trace p ent cmds (Raise e)
        ([EvWriteEntitlements p ent (Ok has); EvRemoveSignature p (Ok tt)]
           ++ appended p done ++ [EvInjFunc p cmd (Raise e)])
  | IT_flush_raises has e :
      injection_trace p ent cmds (Raise e)
        ([EvWriteEntitlements p ent (Ok has); EvRemoveSignature p (Ok tt)]
           ++ appended p cmds ++ [EvInjPresent p true; EvInjWrite p p (Raise e)])
  | IT_sign_raises present e :
      injection_trace p ent cmds (Raise e)
        ([EvWriteEntitlements p ent (Ok true); EvRemoveSignature p (Ok tt)]
           ++ appended p cmds ++ flushed p present
           ++ [EvSignWithEntitlements p ent (Raise e)])
  | IT_signed present signed :
      injection_trace p ent cmds (Ok tt)
        ([EvWriteEntitlements p ent (Ok true); EvRemoveSignature p (Ok tt)]
           ++ appended p cmds ++ flushed p present
           ++ [EvSignWithEntitlements p ent (Ok signed)])
  | IT_unsigned present :
      injection_trace p ent cmds (Ok tt)
        ([EvWriteEntitlements p ent (Ok false); EvRemoveSignature p (Ok tt)]
           ++ appended p cmds ++ flushed p present).

(** An extension was processed when its metadata document was asked for:
    the first thing [_inject_into_extension] does. *)
Definition attempted (appex : string) (evs : list event) : Prop :=
  exists r, In (EvPlist (appex +:+ "/Info.plist") r) evs.

(** The isolation the specification words for [inject_all_extensions]:
    once the main executable is done, whatever fails on one extension,
    every extension of the list is still processed. *)
Definition per_artifact_isolation : Prop :=
  forall (T : Type) (C : Collaborators T) (self : AppBundle)
         (tweaks : list (string * string)) (tmpdir : string) (flag : bool)
         (st : state T),
    (inject (executable self) tweaks tmpdir flag st).1 = Ok tt ->
    forall p,
      In p (get_all_appex self (disk (inject (executable self) tweaks tmpdir flag st).2)) ->
      attempted p (trace (inject_all_extensions self tweaks tmpdir flag true st).2).

(** The capability calls among the recorded calls. *)
Definition capability_calls (evs : list event)
  : list (capability * string * result bool) :=
  omap (fun ev => match ev with
                  | EvCapability f p r => Some (f, p, r)
                  | _ => None
                  end) evs.

(** The resolution rule of [mass_operate]: a dylib is its own executable,
    any other artifact has its executable directly inside it. *)
Definition resolves_to (ts exe : string) : Prop :=
  if endswith ts ".dylib" then exe = ts
  else exists name, exe = ts +:+ "/" +:+ name.

(** The number of successes among the outcomes of the artifacts. *)
Definition successes (outcomes : list (string * bool)) : nat :=
  List.length (List.filter snd outcomes).

(** The count the specification words for [mass_operate]: one for the
    main executable plus the artifacts whose call succeeded. *)
Definition spec_count (outcomes : list (string * bool)) : nat :=
  1 + successes outcomes.

(** The count as the specification words it for [mass_operate]: whenever
    the sweep completes, the printed count is one plus the number of
    artifacts whose call succeeded. *)
Definition count_is_one_plus_successes : Prop :=
  forall (T : Type) (C : Collaborators T) (self : AppBundle) (op : string)
         (func : capability) (st : state T),
    (mass_operate self op func st).2.1 = Ok tt ->
    exists main_result outcomes evs,
      trace (mass_operate self op func st).2.2 = trace st ++ evs
      /\ capability_calls evs
         = (func, exe_path (executable self), main_result)
             :: map (fun o => (func, o.1, Ok o.2)) outcomes
      /\ stdout (mass_operate self op func st).2.2
         = stdout st ++ [count_line op (spec_count outcomes)].

(** The object after a series of later [mass_operate] calls, each with
    its label, its capability and the world it runs in. *)
Definition after_calls {T} {C : Collaborators T} (self : AppBundle)
    (calls : list (string * capability * state T)) : AppBundle :=
  fold_left (fun s c => (mass_operate s c.1.1 c.1.2 c.2).1) calls self.

(** What the encrypted-extension filter found out about one extension:
    its path, the executable name its document declares, and whether the
    executable reported itself encrypted. *)
Record verdict : Type := mkVerdict {
  v_plugin : string;
  v_name : string;
  v_encrypted : bool
}.

(** The name of a verdict is the one the extension's document declares:
    it was read from that document, on the disk as it was or with entries
    deleted, under [CFBundleExecutable]. *)
Definition declared_in {T} {C : Collaborators T} (d0 : FS) (t : T) (v : verdict) : Prop :=
  exists d doc,
    shrinks d0 d
    /\ Plist_load (v_plugin v +:+ "/Info.plist") d t = Ok doc
    /\ doc !! "CFBundleExecutable" = Some (v_name v).

(** The declared names of the extensions found encrypted, in order. *)
Definition removed_names (vs : list verdict) : list string :=
  map v_name (List.filter v_encrypted vs).

(** [k] lies in no extension that was found encrypted. *)
Definition clear_of_encrypted (d : FS) (vs : list verdict) (k : list string) : bool :=
  forallb (fun v => negb (v_encrypted v && under (canon d (v_plugin v)) k)) vs.

(* ===================================================================== *)
(** ** Vocabulary of the further properties *)
(* ===================================================================== *)

Definition same_capability (f g : capability) : bool :=
  match f, g with
  | fakesign, fakesign | thin, thin => true
  | _, _ => false
  end.

(** The calls a sweep of [mass_operate] with the capability [func] can
    make: a document read, an executable construction, a call of [func]. *)
Definition sweep_call (func : capability) (ev : event) : bool :=
  match ev with
  | EvPlist _ _ | EvExecutable _ _ => true
  | EvCapability f _ _ => same_capability f func
  | _ => false
  end.

Definition is_plist_read (ev : event) : bool :=
  match ev with
  | EvPlist _ _ => true
  | _ => false
  end.

(** The artifacts that are not dylibs. *)
Definition bundles_of (artifacts : list string) : list string :=
  List.filter (fun ts => negb (endswith ts ".dylib")) artifacts.

(** The load commands among the recorded calls, in order. *)
Definition load_commands (evs : list event) : list string :=
  omap (fun ev => match ev with
                  | EvInjFunc _ cmd _ => Some cmd
                  | _ => None
                  end) evs.

(** Collaborators that refuse every call: each one raises [OSError] and
    leaves the world as it was. *)
Module Refusing.

#[global] Instance collaborators : Collaborators unit | 10 := {|
  glob_magic := fun _ _ _ => [];
  Plist_load := fun _ _ _ => Raise OSError;
  Executable_init := fun _ _ _ => Raise OSError;
  Executable_is_encrypted := fun _ _ _ => Raise OSError;
  Executable_fakesign := fun _ w => (Raise OSError, w);
  Executable_thin := fun _ w => (Raise OSError, w);
  Executable_remove_signature := fun _ w => (Raise OSError, w);
  Executable_inj_func := fun _ _ w => (Raise OSError, w);
  Executable_inj_present := fun _ _ => false;
  Executable_inj_write := fun _ _ w => (Raise OSError, w);
  MainExecutable_write_entitlements := fun _ _ w => (Raise OSError, w);
  MainExecutable_sign_with_entitlements := fun _ _ w => (Raise OSError, w);
  MainExecutable_inject := fun _ _ _ _ w => (Raise OSError, w)
|}.

Definition start (d : FS) : state unit := mkState d tt [] [].

End Refusing.

(* ===================================================================== *)
(** ** The icon pipeline ([change_icon]) *)
(* ===================================================================== *)

(** Modelled from the spec: the property-list collaborator gives key-value
    access with list and dictionary value types.  A dictionary is the
    list of its items in insertion order, as a Python [dict]; the
    operations below keep its keys distinct. *)
#[warnings="-register-all"]
Inductive pvalue : Type :=
  | PStr (s : string)
  | PBool (b : bool)
  | PList (l : list pvalue)
  | PDict (items : list (string * pvalue)).

Definition pdict : Type := list (string * pvalue).

(** [d.get(key)] *)
Fixpoint dict_get (d : pdict) (key : string) : option pvalue :=
  match d with
  | [] => None
  | (k, v) :: r => if String.eqb k key then Some v else dict_get r key
  end.

(** [key in d] *)
Definition dict_contains (d : pdict) (key : string) : bool :=
  match dict_get d key with
  | Some _ => true
  | None => false
  end.

(** [d[key] = v]: a key that is present keeps its place, a new key goes
    last. *)
Fixpoint dict_set (d : pdict) (key : string) (v : pvalue) : pdict :=
  match d with
  | [] => [(key, v)]
  | (k, w) :: r =>
      if String.eqb k key then (k, v) :: r else (k, w) :: dict_set r key v
  end.

(** [a | b] on two dictionaries: a copy of [a] updated with the items of
    [b], in order. *)
Definition dict_union (a b : pdict) : pdict :=
  fold_left (fun acc kv => dict_set acc kv.1 kv.2) b a.

(** [x | b] for a dictionary [b]: defined when [x] is a dictionary; for
    any other value neither operand implements the operator and Python
    raises [TypeError]. *)
Definition or_dict (x : pvalue) (b : pdict) : result pvalue :=
  match x with
  | PDict a => Ok (PDict (dict_union a b))
  | _ => Raise (OtherException "TypeError")
  end.

(** [open(path, "wb")] followed by a write of [data]. *)
Definition write_file (s data : string) (fs : FS) : FS :=
  mkFS (<[canon fs s := File data]> (entries fs)) (cwd fs).

(** [shutil.copyfile(src, dst)]: refuses to copy a file onto itself, opens
    the source for reading, then the destination for writing (its
    directory has to exist), and copies the contents. *)
Definition copyfile (src dst : string) (fs : FS) : result unit * FS :=
  match stat fs src with
  | None => (Raise FileNotFoundError, fs)
  | Some Dir =>
      match stat fs dst with
      | Some _ =>
          if bool_decide (canon fs src = canon fs dst)
          then (Raise (OtherException "SameFileError"), fs)
          else (Raise IsADirectoryError, fs)
      | None => (Raise IsADirectoryError, fs)
      end
  | Some (File data) =>
      match stat fs dst with
      | Some Dir => (Raise IsADirectoryError, fs)
      | Some (File _) =>
          if bool_decide (canon fs src = canon fs dst)
          then (Raise (OtherException "SameFileError"), fs)
          else (Ok tt, write_file dst data fs)
      | None =>
          if String.eqb dst "" then (Raise FileNotFoundError, fs)
          else match entries fs !! removelast (canon fs dst) with
               | Some Dir => (Ok tt, write_file dst data fs)
               | Some (File _) => (Raise NotADirectoryError, fs)
               | None => (Raise FileNotFoundError, fs)
               end
      end
  end.

(** What [change_icon] asks of its collaborators: the optional imaging
    library (PIL), the identifier source ([uuid4]) and the writer of the
    property list.  [T] is their own state. *)
Class Imaging (T : Type) : Type := {
  (** [from PIL import Image] *)
  PIL_import : FS -> T -> result unit;
  (** [Image.open(path)] *)
  Image_open : string -> FS -> T -> result unit;
  (** [img.save(dst, "PNG")] for the image opened from [src], after
      [img.resize(size)] when a size is given. *)
  Image_save :
    string -> option (nat * nat) -> string -> FS * T -> result unit * (FS * T);
  (** [uuid4().hex] *)
  uuid4_hex : T -> string * T;
  (** [plist.save()] for the document as it is in memory. *)
  Plist_save : string -> pdict -> FS * T -> result unit * (FS * T)
}.

(** The calls [change_icon] makes on them, with what they returned. *)
Inductive icon_call : Type :=
  | CallImport (r : result unit)
  | CallOpen (path : string) (r : result unit)
  | CallSave (src : string) (size : option (nat * nat)) (dst : string) (r : result unit)
  | CallUuid (hex : string)
  | CallPlistSave (path : string) (doc : pdict) (r : result unit).

(** The part of the world [change_icon] works on besides the disk and the
    output: the document of [self.plist] as it is in memory, the calls
    made so far and the collaborators' state. *)
Record icon_world (T : Type) : Type := mkWorld {
  plist_document : pdict;
  calls : list icon_call;
  pil : T
}.
Arguments mkWorld {T} _ _ _.
Arguments plist_document {T} _.
Arguments calls {T} _.
Arguments pil {T} _.

Section IconPipeline.
Context {T : Type} {I : Imaging T}.

(** A query of a collaborator, recorded. *)
Definition icon_query {A} (f : FS -> T -> result A) (ev : result A -> icon_call)
  : M (icon_world T) A :=
  fun st =>
    let r := f (disk st) (pil (tool st)) in
    (r, mkState (disk st)
          (mkWorld (plist_document (tool st)) (calls (tool st) ++ [ev r]) (pil (tool st)))
          (stdout st) (trace st)).

(** A call that may change the disk and the collaborators' state,
    recorded. *)
Definition icon_action {A} (f : FS * T -> result A * (FS * T))
    (ev : result A -> icon_call) : M (icon_world T) A :=
  fun st =>
    let '(r, (d, t)) := f (disk st, pil (tool st)) in
    (r, mkState d (mkWorld (plist_document (tool st)) (calls (tool st) ++ [ev r]) t)
          (stdout st) (trace st)).

Definition pil_import : M (icon_world T) unit := icon_query PIL_import CallImport.

Definition image_open (p : string) : M (icon_world T) unit :=
  icon_query (Image_open p) (CallOpen p).

Definition image_save (src : string) (size : option (nat * nat)) (dst : string)
  : M (icon_world T) unit :=
  icon_action (Image_save src size dst) (CallSave src size dst).

Definition uuid4 : M (icon_world T) string := fun st =>
  let '(hex, t) := uuid4_hex (pil (tool st)) in
  (Ok hex, mkState (disk st)
             (mkWorld (plist_document (tool st)) (calls (tool st) ++ [CallUuid hex]) t)
             (stdout st) (trace st)).

(** [key in self.plist] *)
Definition plist_contains (key : string) : M (icon_world T) bool := fun st =>
  (Ok (dict_contains (plist_document (tool st)) key), st).

(** [self.plist[key]] *)
Definition plist_getitem (key : string) : M (icon_world T) pvalue := fun st =>
  (match dict_get (plist_document (tool st)) key with
   | Some v => Ok v
   | None => Raise (KeyError key)
   end, st).

(** [self.plist[key] = v] *)
Definition plist_setitem (key : string) (v : pvalue) : M (icon_world T) unit := fun st =>
  (Ok tt, mkState (disk st)
            (mkWorld (dict_set (plist_document (tool st)) key v) (calls (tool st))
                     (pil (tool st)))
            (stdout st) (trace st)).

(** [self.plist.save()] *)
Definition plist_save (self : AppBundle) : M (icon_world T) unit := fun st =>
  icon_action (Plist_save (plist_path (plist self)) (plist_document (tool st)))
              (CallPlistSave (plist_path (plist self)) (plist_document (tool st))) st.

(** The working copy [tmpath] of the source image: converted unless the
    source path ends in [.png], copied otherwise. *)
Definition normalize_icon (path tmpath : string) : M (icon_world T) unit :=
  if negb (endswith path ".png")
  then image_open path;; image_save path None tmpath
  else on_disk (copyfile path tmpath).

(** The two derived images. *)
Definition write_icons (self : AppBundle) (tmpath i60 i76 : string)
  : M (icon_world T) unit :=
  image_open tmpath;;
  image_save tmpath (Some (120, 120)) (path self +:+ "/" +:+ i60 +:+ "@2x.png");;
  image_save tmpath (Some (152, 152)) (path self +:+ "/" +:+ i76 +:+ "@2x~ipad.png").

(** [{"CFBundlePrimaryIcon": {"CFBundleIconFiles": files,
      "CFBundleIconName": uid}}] *)
Definition primary_icon (files : list string) (uid : string) : pdict :=
  [("CFBundlePrimaryIcon",
    PDict [("CFBundleIconFiles", PList (map PStr files));
           ("CFBundleIconName", PStr uid)])].

(** The update of the two icon declarations of the document. *)
Definition declare_icons (uid i60 i76 : string) : M (icon_world T) unit :=
  has ← plist_contains "CFBundleIcons";
  (if has : bool then mret tt else plist_setitem "CFBundleIcons" (PDict []));;
  has_ipad ← plist_contains "CFBundleIcons~ipad";
  (if has_ipad : bool then mret tt else plist_setitem "CFBundleIcons~ipad" (PDict []));;
  icons ← plist_getitem "CFBundleIcons";
  merged ← lift_result (or_dict icons (primary_icon [i60] uid));
  plist_setitem "CFBundleIcons" merged;;
  icons_ipad ← plist_getitem "CFBundleIcons~ipad";
  merged_ipad ← lift_result (or_dict icons_ipad (primary_icon [i60; i76] uid));
  plist_setitem "CFBundleIcons~ipad" merged_ipad.

(** [change_icon] once the imaging library is imported. *)
Definition replace_icon (self : AppBundle) (path tmpdir : string)
  : M (icon_world T) unit :=
  let tmpath := tmpdir +:+ "/icon.png" in
  normalize_icon path tmpath;;
  hex ← uuid4;
  let uid := "cyan_" +:+ substring 0 7 hex +:+ "a" in
  let i60 := uid +:+ "60x60" in
  let i76 := uid +:+ "76x76" in
  write_icons self tmpath i60 i76;;
  declare_icons uid i60 i76;;
  plist_save self;;
  print "[*] updated app icon".

Definition change_icon (self : AppBundle) (path tmpdir : string)
  : M (icon_world T) unit :=
  imported ← try_except (pil_import;; mret true) is_Exception
               (fun _ =>
                  print "[?] pillow is not installed, -k is not available";;
                  mret false);
  if imported : bool then replace_icon self path tmpdir else mret tt.

End IconPipeline.

(** The icon declaration a document holds under [key], an absent one
    counting as empty; [None] when the value is not a dictionary. *)
Definition declared_icons (doc : pdict) (key : string) : option pdict :=
  match dict_get doc key with
  | None => Some []
  | Some (PDict a) => Some a
  | Some _ => None
  end.

(** The state with another document in memory. *)
Definition with_document {T} (doc : pdict) (st : state (icon_world T))
  : state (icon_world T) :=
  mkState (disk st) (mkWorld doc (calls (tool st)) (pil (tool st)))
          (stdout st) (trace st).

Definition is_plist_save (c : icon_call) : bool :=
  match c with
  | CallPlistSave _ _ _ => true
  | _ => false
  end.

(** A save of the document that succeeded. *)
Definition is_saved (c : icon_call) : bool :=
  match c with
  | CallPlistSave _ _ (Ok _) => true
  | _ => false
  end.

(** The asset identifier built from the digits of [uuid4]. *)
Definition asset_id (hex : string) : string := "cyan_" +:+ substring 0 7 hex +:+ "a".

(** The calls that produce the working copy when they all succeed. *)
Definition conversion_calls (path tmpath : string) : list icon_call :=
  if endswith path ".png" then []
  else [CallOpen path (Ok tt); CallSave path None tmpath (Ok tt)].

(** The calls that produce the two derived images when they all
    succeed. *)
Definition derivation_calls (root tmpath uid : string) : list icon_call :=
  [CallOpen tmpath (Ok tt);
   CallSave tmpath (Some (120, 120)) (root +:+ "/" +:+ uid +:+ "60x60" +:+ "@2x.png")
            (Ok tt);
   CallSave tmpath (Some (152, 152)) (root +:+ "/" +:+ uid +:+ "76x76" +:+ "@2x~ipad.png")
            (Ok tt)].

(** Scripted imaging collaborators: the library is installed or not, an
    image opens when its file exists, a save writes a file, the
    identifier source always gives the same digits, the property list is
    written as a file. *)
Module ScriptedIcon.

Definition hex : string := "0123456789abcdef0123456789abcdef".

Definition import (d : FS) (installed : bool) : result unit :=
  if installed then Ok tt else Raise (OtherException "ModuleNotFoundError").

Definition open (p : string) (d : FS) (installed : bool) : result unit :=
  if path_exists d p then Ok tt else Raise FileNotFoundError.

Definition save (data : string) (dst : string) (w : FS * bool)
  : result unit * (FS * bool) :=
  (Ok tt, (write_file dst data w.1, w.2)).

#[global] Instance imaging : Imaging bool := {|
  PIL_import := import;
  Image_open := open;
  Image_save := fun _ _ => save "png";
  uuid4_hex := fun t => (hex, t);
  Plist_save := fun p _ => save "plist" p
|}.

(** The bare package with a scratch directory and two source images. *)
Definition icon_disk : FS :=
  Scripted.disk_of [("/", Dir); ("/App.app", Dir);
                    ("/App.app/Info.plist", File "plist");
                    ("/App.app/App", File "macho");
                    ("/tmp", Dir);
                    ("/src", Dir);
                    ("/src/icon.png", File "png data");
                    ("/src/icon.jpg", File "jpeg data")].

(** A document with an alternate icon and a primary icon that carries a
    flag of its own. *)
Definition icon_document : pdict :=
  [("CFBundleExecutable", PStr "App");
   ("CFBundleIcons",
    PDict [("CFBundleAlternateIcons", PDict [("dark", PDict [])]);
           ("CFBundlePrimaryIcon",
            PDict [("CFBundleIconFiles", PList [PStr "AppIcon60x60"]);
                   ("UIPrerenderedIcon", PBool true)])])].

(** A document whose icon declaration is a string. *)
Definition odd_document : pdict :=
  [("CFBundleExecutable", PStr "App"); ("CFBundleIcons", PStr "AppIcon")].

Definition start (d : FS) (doc : pdict) (installed : bool) : state (icon_world bool) :=
  mkState d (mkWorld doc [] installed) [] [].

End ScriptedIcon.

(* ===================================================================== *)
(** ** Strings: facts *)
(* ===================================================================== *)

Lemma startswith_app (r x : string) : startswith (r +:+ x) r = true.
Proof.
  induction r as [|a r IH]; simpl.
  - destruct x; reflexivity.
  - rewrite Ascii.eqb_refl. exact IH.
Qed.

Lemma startswith_nil (s : string) : startswith s "" = true.
Proof. destruct s; reflexivity. Qed.

Lemma contains_startswith (r s : string) : startswith s r = true -> contains r s = true.
Proof. intros H. destruct s; simpl in *; rewrite H; reflexivity. Qed.

Lemma contains_app (r x : string) : contains r (r +:+ x) = true.
Proof. apply contains_startswith, startswith_app. Qed.

Lemma resolve_under_root (root rest : string) :
  resolve root (root +:+ rest) = root +:+ rest.
Proof. unfold resolve. rewrite contains_app. reflexivity. Qed.

(* ===================================================================== *)
(** ** The file system: facts *)
(* ===================================================================== *)

Lemma under_refl (p : list string) : under p p = true.
Proof. induction p as [|a p IH]; simpl; [reflexivity|]. rewrite String.eqb_refl. exact IH. Qed.

Lemma under_app (p k : list string) : under p k = true <-> exists r, k = p ++ r.
Proof.
  revert k. induction p as [|a p IH]; intros k; simpl.
  - split; [intros _; exists k; reflexivity|reflexivity].
  - destruct k as [|b k].
    + split; [discriminate|intros [r Hr]; discriminate].
    + destruct (String.eqb_spec a b) as [->|Hne].
      * rewrite IH. split; intros [r Hr]; exists r; [rewrite Hr; reflexivity|].
        injection Hr as ->. reflexivity.
      * split; [discriminate|]. intros [r Hr]. injection Hr as -> _. contradiction.
Qed.

Lemma canon_cwd (d d' : FS) (s : string) : cwd d' = cwd d -> canon d' s = canon d s.
Proof. intros H. unfold canon. rewrite H. reflexivity. Qed.

Lemma shrinks_refl (d : FS) : shrinks d d.
Proof. split; reflexivity. Qed.

Lemma shrinks_trans (d1 d2 d3 : FS) : shrinks d1 d2 -> shrinks d2 d3 -> shrinks d1 d3.
Proof.
  intros [H1 H2] [H3 H4]. split; [congruence|]. etrans; eassumption.
Qed.

Lemma path_exists_shrinks (d d' : FS) (s : string) :
  shrinks d d' -> path_exists d s = false -> path_exists d' s = false.
Proof.
  intros [Hc Hs]. unfold path_exists, stat. rewrite (canon_cwd d d' s Hc).
  destruct (String.eqb s ""); [reflexivity|].
  destruct (entries d' !! canon d s) as [n|] eqn:E; [|reflexivity].
  rewrite (lookup_weaken _ _ _ _ E Hs). discriminate.
Qed.

Lemma shrinks_prune (p : list string) (d : FS) : shrinks d (prune p d).
Proof. split; [reflexivity|]. simpl. apply map_filter_subseteq. Qed.

Lemma prune_gone (p k : list string) (d : FS) :
  under p k = true -> entries (prune p d) !! k = None.
Proof.
  intros H. simpl. apply map_lookup_filter_None. right. intros x _. simpl. congruence.
Qed.

Lemma prune_kept (p k : list string) (d : FS) :
  under p k = false -> entries (prune p d) !! k = entries d !! k.
Proof.
  intros H. simpl. destruct (entries d !! k) as [x|] eqn:E.
  - apply map_lookup_filter_Some. split; [exact E|exact H].
  - apply map_lookup_filter_None. left. exact E.
Qed.

Lemma wf_disk_spec (d : FS) :
  wf_disk d = true <->
  forall k n, entries d !! (k ++ [n]) <> None -> is_dir d k = true.
Proof.
  unfold wf_disk. rewrite forallb_forall. split.
  - intros H k n Hin.
    destruct (entries d !! (k ++ [n])) as [x|] eqn:E; [|congruence].
    apply elem_of_map_to_list, list_elem_of_In in E. specialize (H _ E). cbn [fst] in H.
    destruct (k ++ [n]) as [|a l] eqn:Hk; [destruct k; discriminate|].
    rewrite <- Hk, removelast_last in H. exact H.
  - intros H [k x] Hin. cbn [fst]. destruct k as [|a l]; [reflexivity|].
    apply list_elem_of_In, elem_of_map_to_list in Hin.
    assert (a :: l <> []) as Hne by discriminate.
    rewrite (app_removelast_last "" Hne) in Hin.
    apply (H _ (List.last (a :: l) "")). rewrite Hin. discriminate.
Qed.

Lemma under_snoc (p k : list string) (n : string) :
  under p k = true -> under p (k ++ [n]) = true.
Proof.
  revert k. induction p as [|a p IH]; intros k H; [reflexivity|].
  destruct k as [|b k]; [discriminate|]. cbn [app under] in *.
  destruct (String.eqb a b); [apply IH; exact H|discriminate].
Qed.

Lemma wf_disk_prune (p : list string) (d : FS) :
  wf_disk d = true -> wf_disk (prune p d) = true.
Proof.
  rewrite !wf_disk_spec. intros H k n Hin.
  destruct (under p (k ++ [n])) eqn:Hu; [rewrite (prune_gone _ _ _ Hu) in Hin; congruence|].
  rewrite (prune_kept _ _ _ Hu) in Hin. specialize (H k n Hin).
  unfold is_dir in *. rewrite prune_kept; [exact H|].
  destruct (under p k) eqn:Hk; [|reflexivity].
  rewrite (under_snoc _ _ n Hk) in Hu. discriminate.
Qed.

Lemma wf_disk_delete_file (c : list string) (data : string) (d : FS) :
  entries d !! c = Some (File data) ->
  wf_disk d = true -> wf_disk (mkFS (delete c (entries d)) (cwd d)) = true.
Proof.
  intros Hc. rewrite !wf_disk_spec. cbn [entries]. intros H k n Hin.
  assert (entries d !! (k ++ [n]) <> None) as Hin'.
  { intros E. apply Hin. rewrite lookup_delete_None. right. exact E. }
  specialize (H k n Hin'). unfold is_dir in *. cbn [entries].
  rewrite lookup_delete_ne; [exact H|]. intros <-. rewrite Hc in H. discriminate.
Qed.

(** On a well-formed disk nothing lies below a path that is absent. *)
Lemma wf_disk_absent (d : FS) (p k : list string) :
  wf_disk d = true -> entries d !! p = None -> under p k = true -> entries d !! k = None.
Proof.
  rewrite wf_disk_spec. intros Hwf Hp Hk. apply under_app in Hk as [r ->].
  induction r as [|n r IH] using rev_ind; [rewrite app_nil_r; exact Hp|].
  destruct (entries d !! (p ++ r ++ [n])) as [x|] eqn:E; [|reflexivity].
  rewrite app_assoc in E.
  assert (is_dir d (p ++ r) = true) as Hd by (apply (Hwf _ n); rewrite E; discriminate).
  unfold is_dir in Hd. rewrite IH in Hd. discriminate.
Qed.

(** After [try: shutil.rmtree(p) except NotADirectoryError: os.remove(p)] on
    an existing path, the path is gone and nothing else appeared. *)
Lemma rmtree_or_remove {T} (p : string) (st : state T) :
  path_exists (disk st) p = true ->
  exists d',
    try_except (on_disk (rmtree p)) is_NotADirectoryError
               (fun _ => on_disk (os_remove p)) st
    = (Ok tt, mkState d' (tool st) (stdout st) (trace st))
    /\ shrinks (disk st) d'
    /\ path_exists d' p = false
    /\ (forall k, under (canon (disk st) p) k = false ->
                  entries d' !! k = entries (disk st) !! k)
    /\ (wf_disk (disk st) = true -> wf_disk d' = true).
Proof.
  destruct st as [d t o tr]. simpl. intros Hex.
  unfold try_except, on_disk, rmtree, os_remove, path_exists in *. simpl.
  destruct (stat d p) as [[|data]|] eqn:Hs; [| |discriminate].
  - exists (prune (canon d p) d). split; [reflexivity|].
    split; [apply shrinks_prune|]. split.
    + unfold stat in *. destruct (String.eqb p ""); [reflexivity|].
      rewrite (canon_cwd d (prune (canon d p) d) p eq_refl).
      rewrite prune_gone; [reflexivity|apply under_refl].
    + split; [intros k Hk; apply prune_kept; exact Hk|apply wf_disk_prune].
  - simpl. rewrite Hs.
    exists (mkFS (delete (canon d p) (entries d)) (cwd d)).
    split; [reflexivity|]. split; [|split].
    + split; [reflexivity|]. simpl. apply delete_subseteq.
    + unfold stat in *. simpl. destruct (String.eqb p ""); [reflexivity|].
      rewrite (canon_cwd d (mkFS (delete (canon d p) (entries d)) (cwd d)) p eq_refl).
      rewrite lookup_delete_eq. reflexivity.
    + split.
      * intros k Hk. simpl. apply lookup_delete_ne. intros <-.
        rewrite under_refl in Hk. discriminate.
      * unfold stat in Hs. destruct (String.eqb p ""); [discriminate|].
        apply (wf_disk_delete_file _ data). exact Hs.
Qed.

Lemma clear_of_cwd (d d' : FS) (root : string) (k : list string) (names : list string) :
  cwd d' = cwd d ->
  forallb (fun n => negb (under (canon d' (resolve root n)) k)) names
  = forallb (fun n => negb (under (canon d (resolve root n)) k)) names.
Proof.
  intros H. induction names as [|n r IH]; simpl; [reflexivity|].
  rewrite IH, (canon_cwd d d' _ H). reflexivity.
Qed.

(** The loop of [remove]: it returns, the flag tells whether a name
    existed, every name is gone afterwards, and only entries at or below
    the resolved names are deleted. *)
Lemma remove_loop_spec {T} {C : Collaborators T} (root : string) (names : list string) :
  forall (existed : bool) (st : state T),
  exists d',
    remove_loop root names existed st
    = (Ok (existed || existsb (fun n => path_exists (disk st) (resolve root n)) names),
       mkState d' (tool st) (stdout st) (trace st))
    /\ shrinks (disk st) d'
    /\ Forall (fun n => path_exists d' (resolve root n) = false) names
    /\ (forall k, forallb (fun n => negb (under (canon (disk st) (resolve root n)) k)) names
                  = true -> entries d' !! k = entries (disk st) !! k)
    /\ (wf_disk (disk st) = true -> wf_disk d' = true).
Proof.
  induction names as [|name rest IH]; intros existed st.
  - exists (disk st). destruct st as [d t o tr]. simpl.
    rewrite orb_false_r. split; [reflexivity|]. split; [apply shrinks_refl|].
    split; [constructor|]. split; [reflexivity|]. intros H. exact H.
  - destruct st as [d t o tr].
    destruct (path_exists d (resolve root name)) eqn:Hex.
    + destruct (rmtree_or_remove (resolve root name) (mkState d t o tr) Hex)
        as (d1 & Hrun & Hsh1 & Hgone & Hkeep & Hwf1).
      destruct (IH true (mkState d1 t o tr)) as (d' & Hrest & Hsh2 & Hall & Hkeep2 & Hwf2).
      exists d'. simpl in *. split; [|split; [|split; [|split]]].
      * unfold mbind, M_bind, on_disk at 1. simpl. rewrite Hex. simpl.
        unfold mbind, M_bind. rewrite Hrun. rewrite Hrest.
        rewrite orb_true_r. reflexivity.
      * eapply shrinks_trans; eassumption.
      * constructor; [|exact Hall]. eapply path_exists_shrinks; eassumption.
      * intros k Hk. apply andb_prop in Hk as [Hk1 Hk2].
        rewrite Hkeep2.
        -- apply Hkeep. apply negb_true_iff. exact Hk1.
        -- rewrite (clear_of_cwd d d1 root k rest (proj1 Hsh1)). exact Hk2.
      * intros Hwf. apply Hwf2, Hwf1, Hwf.
    + destruct (IH existed (mkState d t o tr)) as (d' & Hrest & Hsh & Hall & Hkeep & Hwf).
      exists d'. simpl in *. split; [|split; [|split; [|split]]].
      * unfold mbind, M_bind, on_disk at 1. simpl. rewrite Hex. simpl.
        rewrite Hrest. reflexivity.
      * exact Hsh.
      * constructor; [|exact Hall]. eapply path_exists_shrinks; eassumption.
      * intros k Hk. apply andb_prop in Hk as [_ Hk2]. apply Hkeep. exact Hk2.
      * exact Hwf.
Qed.

(* ===================================================================== *)
(** ** Running computations: equations *)
(* ===================================================================== *)

Section Running.
Context {T : Type} {C : Collaborators T}.

Lemma bind_eq {A B} (m : M T A) (k : A -> M T B) (st : state T) :
  (m ≫= k) st
  = match m st with
    | (Ok a, st') => k a st'
    | (Raise e, st') => (Raise e, st')
    end.
Proof. reflexivity. Qed.

Lemma ret_bind {A B} (a : A) (k : A -> M T B) (st : state T) :
  (mret a ≫= k) st = k a st.
Proof. reflexivity. Qed.

Lemma query_eq {A} (f : FS -> T -> result A) (ev : result A -> event) (st : state T) :
  query f ev st = (f (disk st) (tool st), log [ev (f (disk st) (tool st))] st).
Proof. reflexivity. Qed.

Lemma action_eq {A} (f : FS * T -> result A * (FS * T)) (ev : result A -> event)
    (st : state T) :
  action f ev st
  = ((f (disk st, tool st)).1,
     mkState (f (disk st, tool st)).2.1 (f (disk st, tool st)).2.2 (stdout st)
             (trace st ++ [ev (f (disk st, tool st)).1])).
Proof. unfold action. destruct (f (disk st, tool st)) as [r [d t]]. reflexivity. Qed.

Lemma log_log (e1 e2 : list event) (st : state T) :
  log e2 (log e1 st) = log (e1 ++ e2) st.
Proof. unfold log. simpl. rewrite app_assoc. reflexivity. Qed.

Lemma printed_nil (st : state T) : printed [] st = st.
Proof. destruct st. unfold printed. simpl. rewrite app_nil_r. reflexivity. Qed.

Lemma declared_name (p name : string) :
  string_drop (String.length p + 1) (p +:+ "/" +:+ name) = name.
Proof.
  induction p as [|c p IH]; simpl; [destruct name; reflexivity|exact IH].
Qed.

(** Constructing an [AppBundle] only looks at the world.  It fails with
    the exception of the document read, with [KeyError] when the
    document has no [CFBundleExecutable], or with the exception of the
    executable constructor; otherwise the bundle's executable is the
    declared one. *)
Lemma AppBundle_init_cases (p : string) (st : state T) :
  (exists e evs,
      AppBundle_init p st = (Raise e, log (EvPlist (p +:+ "/Info.plist") (void (Plist_load (p +:+ "/Info.plist") (disk st) (tool st))) :: evs) st)
      /\ Forall (fun ev => is_construction ev = true) evs
      /\ (is_Exception e = false ->
          Exists (fun ev => raised ev = Some e)
                 (EvPlist (p +:+ "/Info.plist") (void (Plist_load (p +:+ "/Info.plist") (disk st) (tool st))) :: evs)))
  \/ (exists doc name,
      Plist_load (p +:+ "/Info.plist") (disk st) (tool st) = Ok doc
      /\ doc !! "CFBundleExecutable" = Some name
      /\ AppBundle_init p st
         = (Ok (mkAppBundle p (mkPlist (p +:+ "/Info.plist") doc)
                  (mkExecutable (p +:+ "/" +:+ name) name) None),
            log [EvPlist (p +:+ "/Info.plist") (Ok tt);
                 EvExecutable (p +:+ "/" +:+ name) (Ok tt)] st)).
Proof.
  unfold AppBundle_init, Plist_new, MainExecutable_new, lift_result.
  rewrite !bind_eq, query_eq.
  destruct (Plist_load (p +:+ "/Info.plist") (disk st) (tool st)) as [doc|e] eqn:Hload.
  - simpl. rewrite !bind_eq. unfold getitem. simpl.
    destruct (doc !! "CFBundleExecutable") as [name|] eqn:Hname.
    + rewrite !bind_eq, query_eq.
      destruct (Executable_init (p +:+ "/" +:+ name) _ _) as [[]|e] eqn:Hinit.
      * right. exists doc, name. split; [reflexivity|]. split; [exact Hname|].
        simpl. rewrite declared_name. unfold log. simpl.
        rewrite <- app_assoc. reflexivity.
      * left. exists e, [EvExecutable (p +:+ "/" +:+ name) (Raise e)].
        split; [|split].
        -- unfold log. simpl. rewrite <- app_assoc. reflexivity.
        -- repeat constructor.
        -- intros _. right. left. reflexivity.
    + left. exists (KeyError "CFBundleExecutable"), []. split; [reflexivity|].
      split; [constructor|]. discriminate.
  - left. exists e, []. split; [reflexivity|]. split; [constructor|].
    intros _. left. reflexivity.
Qed.

End Running.

(* ===================================================================== *)
(** ** Injection into one extension: how a run can go *)
(* ===================================================================== *)

Section Injection.
Context {T : Type} {C : Collaborators T}.

Lemma inject_loop_cases (exe : Executable) (flag : bool) (names : list string) :
  forall st : state T,
    (exists d t,
        inject_loop exe flag names st
        = (Ok tt, mkState d t (stdout st)
                    (trace st ++ appended (exe_path exe) (map (reference flag) names))))
    \/ (exists e done n rest d t,
           names = done ++ n :: rest
           /\ inject_loop exe flag names st
              = (Raise e, mkState d t (stdout st)
                            (trace st ++ appended (exe_path exe) (map (reference flag) done)
                               ++ [EvInjFunc (exe_path exe) (reference flag n) (Raise e)]))).
Proof.
  induction names as [|a names IH]; intros st.
  - left. exists (disk st), (tool st). destruct st. simpl. rewrite app_nil_r. reflexivity.
  - simpl inject_loop.
    replace (if flag then inj_func exe ("@executable_path/../../" +:+ a)
             else inj_func exe ("@rpath/" +:+ a))
      with (inj_func exe (reference flag a)) by (destruct flag; reflexivity).
    rewrite bind_eq. unfold inj_func. rewrite action_eq.
    destruct (Executable_inj_func exe (reference flag a) (disk st, tool st))
      as [[[]|e] [d t]]; cbn [fst snd].
    + destruct (IH (mkState d t (stdout st)
                      (trace st ++ [EvInjFunc (exe_path exe) (reference flag a) (Ok tt)])))
        as [(d' & t' & H)|(e & done & n & rest & d' & t' & Hn & H)];
        rewrite H; cbn [stdout trace].
      * left. exists d', t'. rewrite <- app_assoc. reflexivity.
      * right. exists e, (a :: done), n, rest, d', t'. split; [rewrite Hn; reflexivity|].
        rewrite <- app_assoc. reflexivity.
    + right. exists e, [], a, names, d, t. split; reflexivity.
Qed.

Lemma inject_and_sign_trace (ext : AppBundle) (appex name : string)
    (dylibs : list (string * string)) (flag : bool) (st : state T) :
  exists evs,
    trace (inject_and_sign ext appex name dylibs flag st).2 = trace st ++ evs
    /\ injection_trace (exe_path (executable ext)) (appex +:+ "/cyan.entitlements")
         (map (reference flag) (map fst dylibs))
         (inject_and_sign ext appex name dylibs flag st).1 evs.
Proof.
  unfold inject_and_sign, write_entitlements, remove_signature.
  rewrite bind_eq, action_eq.
  destruct (MainExecutable_write_entitlements _ _ _) as [[has|e] [d1 t1]];
    cbn [fst snd disk tool stdout trace].
  2:{ eexists. split; [reflexivity|]. apply IT_extract_raises. }
  rewrite bind_eq, action_eq. cbn [fst snd disk tool stdout trace].
  destruct (Executable_remove_signature _ _) as [[[]|e] [d2 t2]];
    cbn [fst snd disk tool stdout trace].
  2:{ eexists. split; [rewrite <- app_assoc; reflexivity|]. apply IT_strip_raises. }
  rewrite bind_eq.
  match goal with
  | |- context [inject_loop ?x ?f ?n ?s] =>
      destruct (inject_loop_cases x f n s)
        as [(d3 & t3 & H)|(e & done & n' & rest & d3 & t3 & Hn & H)]; rewrite H; clear H
  end; cbn [fst snd disk tool stdout trace].
  2:{ eexists. split; [rewrite <- !app_assoc; reflexivity|].
      rewrite Hn, map_app. simpl map.
      apply (IT_append_raises _ _ _ has (map (reference flag) done)
               (reference flag n') (map (reference flag) rest) e).
      reflexivity. }
  rewrite bind_eq. unfold inj_present. rewrite query_eq. unfold log.
  cbn [fst snd disk tool stdout trace].
  destruct (Executable_inj_present (executable ext) t3) eqn:Hp.
  - unfold inj_write. rewrite bind_eq, action_eq. cbn [fst snd disk tool stdout trace].
    destruct (Executable_inj_write _ _ _) as [[[]|e] [d4 t4]];
      cbn [fst snd disk tool stdout trace].
    2:{ eexists. split; [rewrite <- !app_assoc; reflexivity|]. apply IT_flush_raises. }
    destruct has.
    + unfold sign_with_entitlements. rewrite !bind_eq, action_eq.
      cbn [fst snd disk tool stdout trace].
      destruct (MainExecutable_sign_with_entitlements _ _ _) as [[signed|e] [d5 t5]];
        cbn [fst snd disk tool stdout trace print].
      * eexists. split; [rewrite <- !app_assoc; reflexivity|].
        apply (IT_signed _ _ _ true signed).
      * eexists. split; [rewrite <- !app_assoc; reflexivity|].
        apply (IT_sign_raises _ _ _ true e).
    + cbn [fst snd disk tool stdout trace print mbind M_bind mret M_ret].
      eexists. split; [rewrite <- !app_assoc; reflexivity|].
      apply (IT_unsigned _ _ _ true).
  - rewrite ret_bind. destruct has.
    + unfold sign_with_entitlements. rewrite !bind_eq, action_eq.
      cbn [fst snd disk tool stdout trace mret M_ret].
      destruct (MainExecutable_sign_with_entitlements _ _ _) as [[signed|e] [d5 t5]];
        cbn [fst snd disk tool stdout trace print].
      * eexists. split; [rewrite <- !app_assoc; reflexivity|].
        apply (IT_signed _ _ _ false signed).
      * eexists. split; [rewrite <- !app_assoc; reflexivity|].
        apply (IT_sign_raises _ _ _ false e).
    + cbn [fst snd disk tool stdout trace print mbind M_bind mret M_ret].
      eexists. split; [rewrite <- !app_assoc; reflexivity|].
      apply (IT_unsigned _ _ _ false).
Qed.

(** The three ways a run of [_inject_into_extension] can go: the
    extension is skipped or has nothing to receive (the world is as it
    was), a lookup raises (the world is as it was), or the injection
    sequence runs. *)
Lemma inject_into_extension_cases (self : AppBundle) (appex : string)
    (tweaks : list (string * string)) (flag : bool) (st : state T) :
  (exists r0 evs out,
      _inject_into_extension self appex tweaks flag st
      = (Ok tt, printed out (log (EvPlist (appex +:+ "/Info.plist") r0 :: evs) st))
      /\ Forall (fun ev => is_lookup ev = true) evs)
  \/ (exists e r0 evs,
         _inject_into_extension self appex tweaks flag st
         = (Raise e, log (EvPlist (appex +:+ "/Info.plist") r0 :: evs) st)
         /\ Forall (fun ev => is_lookup ev = true) evs
         /\ Exists (fun ev => raised ev = Some e
                              /\ (is_construction ev = true -> is_Exception e = false))
                   (EvPlist (appex +:+ "/Info.plist") r0 :: evs))
  \/ (exists name evs,
         List.filter (fun kv => endswith kv.1 ".dylib") tweaks <> []
         /\ trace (_inject_into_extension self appex tweaks flag st).2
            = trace st ++ [EvPlist (appex +:+ "/Info.plist") (Ok tt);
                           EvExecutable (appex +:+ "/" +:+ name) (Ok tt);
                           EvIsEncrypted (appex +:+ "/" +:+ name) (Ok false)] ++ evs
         /\ injection_trace (appex +:+ "/" +:+ name) (appex +:+ "/cyan.entitlements")
              (map (reference flag)
                   (map fst (List.filter (fun kv => endswith kv.1 ".dylib") tweaks)))
              (_inject_into_extension self appex tweaks flag st).1 evs).
Proof.
  unfold _inject_into_extension. rewrite bind_eq. unfold try_except. rewrite bind_eq.
  destruct (AppBundle_init_cases appex st)
    as [(e & evs & H & Hc & Hx)|(doc & name & Hl & Hn & H)]; rewrite H; clear H.
  - destruct (is_Exception e) eqn:He.
    + left. eexists _, evs, [_]. split; [reflexivity|].
      eapply Forall_impl; [exact Hc|]. intros [] Hev; simpl in *; congruence.
    + right. left. eexists e, _, evs. split; [reflexivity|]. split.
      * eapply Forall_impl; [exact Hc|]. intros [] Hev; simpl in *; congruence.
      * specialize (Hx eq_refl). apply List.Exists_exists in Hx as (ev & Hin & Hev).
        apply List.Exists_exists. exists ev. split; [exact Hin|]. split; [exact Hev|].
        intros _. exact He.
  - cbn [mret M_ret]. rewrite bind_eq. unfold is_encrypted. rewrite query_eq.
    cbn [executable exe_path disk tool log].
    rewrite log_log. simpl app.
    destruct (Executable_is_encrypted _ _ _) as [[|]|e] eqn:Henc.
    + left. eexists _, [_; _], [_]. split; [reflexivity|]. repeat constructor.
    + destruct (List.filter (fun kv => endswith kv.1 ".dylib") tweaks)
        as [|kv dylibs] eqn:Hf.
      * left. eexists _, [_; _], []. rewrite printed_nil.
        split; [reflexivity|]. repeat constructor.
      * right. right. exists name.
        match goal with
        | |- context [inject_and_sign ?b ?a ?n ?l ?f ?s] =>
            destruct (inject_and_sign_trace b a n l f s) as (evs & Htr & Hit)
        end.
        exists evs. split; [discriminate|]. split.
        -- rewrite Htr. unfold log. cbn [trace]. rewrite <- app_assoc. reflexivity.
        -- exact Hit.
    + right. left. eexists e, _, [_; _]. split; [reflexivity|].
      split; [repeat constructor|].
      right. right. left. split; [reflexivity|]. discriminate.
Qed.

End Injection.

(* ===================================================================== *)
(** ** Load-command references: facts about the strings *)
(* ===================================================================== *)

Lemma segments_nonempty (s : string) : segments s <> [].
Proof.
  induction s as [|c s IH]; simpl; [discriminate|].
  destruct (Ascii.eqb c "/"); [discriminate|].
  destruct (segments s); discriminate.
Qed.

Lemma segments_slash (a b : string) :
  segments (a +:+ String "/" b) = segments a ++ segments b.
Proof.
  induction a as [|c a IH]; simpl; [reflexivity|].
  destruct (Ascii.eqb c "/"); [rewrite IH; reflexivity|].
  rewrite IH. pose proof (segments_nonempty a) as Hne.
  destruct (segments a); [congruence|reflexivity].
Qed.

Lemma contains_slash_cons (c : ascii) (k : string) :
  contains "/" (String c k) = false -> Ascii.eqb c "/" = false /\ contains "/" k = false.
Proof.
  change (contains "/" (String c k))
    with ((if Ascii.eqb "/" c then startswith k "" else false) || contains "/" k).
  rewrite (Ascii.eqb_sym "/" c), startswith_nil.
  destruct (Ascii.eqb c "/"); simpl.
  - discriminate.
  - intros H. split; [reflexivity|exact H].
Qed.

Lemma segments_file_name (k : string) : contains "/" k = false -> segments k = [k].
Proof.
  induction k as [|c k IH]; intros H; [reflexivity|].
  apply contains_slash_cons in H as [Hc Hk]. simpl. rewrite Hc, (IH Hk). reflexivity.
Qed.

Lemma file_name_not_ascending (k : string) :
  contains "/" k = false -> contains "../../" k = false.
Proof.
  induction k as [|c k IH]; intros H; [reflexivity|].
  apply contains_slash_cons in H as [Hc Hk].
  change (contains "../../" (String c k))
    with (startswith (String c k) "../../" || contains "../../" k).
  rewrite (IH Hk), orb_false_r.
  change (startswith (String c k) "../../")
    with (if Ascii.eqb "." c then startswith k "./../" else false).
  destruct (Ascii.eqb "." c); [|reflexivity].
  destruct k as [|c1 k]; [reflexivity|].
  change (startswith (String c1 k) "./../")
    with (if Ascii.eqb "." c1 then startswith k "/../" else false).
  destruct (Ascii.eqb "." c1); [|reflexivity].
  destruct k as [|c2 k]; [reflexivity|].
  change (startswith (String c2 k) "/../")
    with (if Ascii.eqb "/" c2 then startswith k "../" else false).
  apply contains_slash_cons in Hk as [_ Hk].
  apply contains_slash_cons in Hk as [Hc2 _].
  rewrite (Ascii.eqb_sym "/" c2), Hc2. reflexivity.
Qed.

Lemma reference_run_path (k : string) :
  contains "/" k = false ->
  contains "../../" (reference false k) = false
  /\ segments (reference false k) = ["@rpath"; k].
Proof.
  intros H. split.
  - unfold reference. simpl. apply file_name_not_ascending. exact H.
  - change (reference false k) with ("@rpath" +:+ String "/" k).
    rewrite segments_slash, (segments_file_name k H). reflexivity.
Qed.

Lemma reference_path_relative (k : string) :
  contains "/" k = false ->
  contains "../../" (reference true k) = true
  /\ segments (reference true k) = ["@executable_path"; ".."; ".."; k].
Proof.
  intros H. split; [reflexivity|].
  change (reference true k)
    with ("@executable_path" +:+ String "/" (".." +:+ String "/" (".." +:+ String "/" k))).
  rewrite !segments_slash, (segments_file_name k H). reflexivity.
Qed.

(* ===================================================================== *)
(** ** Injection into one extension: the properties *)
(* ===================================================================== *)

Ltac split_in H :=
  repeat match type of H with
         | In _ (_ ++ _) => apply in_app_or in H; destruct H as [H|H]
         | In _ (appended _ _) =>
             unfold appended in H; apply in_map_iff in H;
             let c := fresh "c" in let Hc := fresh "Hc" in
             destruct H as (c & H & Hc)
         | In _ (flushed _ ?b) => unfold flushed in H
         | In _ (if ?b then _ else _) => destruct b
         | In _ (_ :: _) => destruct H as [H|H]
         | In _ [] => destruct H
         end.

Lemma filter_none {A} (f : A -> bool) (l : list A) :
  (forall x, In x l -> f x = false) -> List.filter f l = [].
Proof.
  induction l as [|a l IH]; intros H; [reflexivity|]. simpl.
  rewrite (H a (or_introl eq_refl)). apply IH. intros x Hx. apply H. right. exact Hx.
Qed.

Lemma injection_trace_appends (p ent : string) (cmds : list string)
    (res : result unit) (evs : list event) (p' cmd : string) (r : result unit) :
  injection_trace p ent cmds res evs ->
  In (EvInjFunc p' cmd r) evs -> p' = p /\ In cmd cmds.
Proof.
  intros Ht Hin. inversion Ht; subst; split_in Hin;
    try discriminate; try (injection Hin as <- <- <-);
    try (split; [reflexivity|]); try assumption.
  - apply in_or_app. left. assumption.
  - apply in_or_app. right. left. reflexivity.
Qed.

Lemma injection_trace_sign (p ent : string) (cmds : list string)
    (res : result unit) (evs : list event) (p' ent' : string) (r : result bool) :
  injection_trace p ent cmds res evs ->
  In (EvSignWithEntitlements p' ent' r) evs ->
  p' = p /\ ent' = ent
  /\ exists present,
      evs = [EvWriteEntitlements p ent (Ok true); EvRemoveSignature p (Ok tt)]
              ++ appended p cmds ++ flushed p present
              ++ [EvSignWithEntitlements p ent r].
Proof.
  intros Ht Hin. inversion Ht; subst.
  1-4, 7: split_in Hin; discriminate.
  - assert (r = Raise e /\ p' = p /\ ent' = ent) as (-> & -> & ->).
    { split_in Hin; try discriminate. injection Hin as <- <- <-. auto. }
    split; [reflexivity|]. split; [reflexivity|]. exists present. reflexivity.
  - assert (r = Ok signed /\ p' = p /\ ent' = ent) as (-> & -> & ->).
    { split_in Hin; try discriminate. injection Hin as <- <- <-. auto. }
    split; [reflexivity|]. split; [reflexivity|]. exists present. reflexivity.
Qed.

Lemma injection_trace_completed (p ent : string) (cmds : list string) (evs : list event) :
  injection_trace p ent cmds (Ok tt) evs ->
  (forall p' ent', In (EvWriteEntitlements p' ent' (Ok true)) evs ->
                   exists r, In (EvSignWithEntitlements p' ent' r) evs)
  /\ (forall p' ent', In (EvWriteEntitlements p' ent' (Ok false)) evs ->
                      forall p'' ent'' r, ~ In (EvSignWithEntitlements p'' ent'' r) evs).
Proof.
  intros Ht. inversion Ht; subst; split.
  - intros p' ent' Hin. exists (Ok signed).
    assert (p' = p /\ ent' = ent) as (-> & ->).
    { split_in Hin; try discriminate. injection Hin as <- <-. auto. }
    rewrite !in_app_iff. right. right. right. left. reflexivity.
  - intros p' ent' Hin. exfalso. split_in Hin; discriminate.
  - intros p' ent' Hin. exfalso. split_in Hin; discriminate.
  - intros p' ent' _ p'' ent'' r Hin. split_in Hin; discriminate.
Qed.

(** C10: when no key of the tweak set ends in [.dylib],
    [_inject_into_extension] returns before any mutation: the disk (so no
    [cyan.entitlements] side file appears) and the collaborators' state are
    as they were, and the only calls made are the lookups (the document
    read, the executable constructor, the encryption query): no entitlement
    extraction, no signature removal, no load command appended. *)
Theorem no_dylib_no_mutation {T} {C : Collaborators T} (self : AppBundle)
    (appex : string) (tweaks : list (string * string)) (flag : bool) (st : state T) :
  (forall k v, In (k, v) tweaks -> endswith k ".dylib" = false) ->
  disk (_inject_into_extension self appex tweaks flag st).2 = disk st
  /\ tool (_inject_into_extension self appex tweaks flag st).2 = tool st
  /\ exists evs,
      trace (_inject_into_extension self appex tweaks flag st).2 = trace st ++ evs
      /\ Forall (fun ev => is_lookup ev = true) evs.
Proof.
  intros H.
  assert (List.filter (fun kv => endswith kv.1 ".dylib") tweaks = []) as Hnone.
  { apply filter_none. intros [k v] Hin. simpl. exact (H k v Hin). }
  destruct (inject_into_extension_cases self appex tweaks flag st)
    as [(r0 & evs & out & Hrun & Hl)|[(e & r0 & evs & Hrun & Hl & _)|(name & evs & Hne & _)]].
  - rewrite Hrun. simpl. repeat split. eexists. split; [reflexivity|].
    constructor; [reflexivity|exact Hl].
  - rewrite Hrun. simpl. repeat split. eexists. split; [reflexivity|].
    constructor; [reflexivity|exact Hl].
  - contradiction.
Qed.

(** C4: every load command appended to an extension's executable is the
    reference built from a tweak-set key that ends in [.dylib]; for keys
    that are file names, the run-path reference is [@rpath/<key>] and does
    not contain [../../], and the path-relative reference is
    [@executable_path/../../<key>]: it contains [../../] and ascends
    exactly two levels. *)
Theorem extension_references {T} {C : Collaborators T} (self : AppBundle)
    (appex : string) (tweaks : list (string * string)) (flag : bool) (st : state T) :
  (forall k v, In (k, v) tweaks -> contains "/" k = false) ->
  forall p cmd r,
    In (EvInjFunc p cmd r) (trace (_inject_into_extension self appex tweaks flag st).2) ->
    In (EvInjFunc p cmd r) (trace st)
    \/ exists k v,
        In (k, v) tweaks /\ endswith k ".dylib" = true
        /\ (if flag
            then cmd = "@executable_path/../../" +:+ k
                 /\ contains "../../" cmd = true
                 /\ segments cmd = ["@executable_path"; ".."; ".."; k]
            else cmd = "@rpath/" +:+ k
                 /\ contains "../../" cmd = false
                 /\ segments cmd = ["@rpath"; k]).
Proof.
  intros Hnames p cmd r Hin.
  destruct (inject_into_extension_cases self appex tweaks flag st)
    as [(r0 & evs & out & Hrun & Hl)|[(e & r0 & evs & Hrun & Hl & _)
                                     |(name & evs & Hne & Htr & Hit)]].
  - rewrite Hrun in Hin. simpl in Hin. apply in_app_or in Hin as [Hin|[Hin|Hin]];
      [left; exact Hin|discriminate|].
    rewrite List.Forall_forall in Hl. specialize (Hl _ Hin). discriminate.
  - rewrite Hrun in Hin. simpl in Hin. apply in_app_or in Hin as [Hin|[Hin|Hin]];
      [left; exact Hin|discriminate|].
    rewrite List.Forall_forall in Hl. specialize (Hl _ Hin). discriminate.
  - rewrite Htr in Hin. apply in_app_or in Hin as [Hin|Hin]; [left; exact Hin|].
    right. apply in_app_or in Hin as [Hin|Hin].
    { split_in Hin; discriminate. }
    destruct (injection_trace_appends _ _ _ _ _ _ _ _ Hit Hin) as [_ Hcmd].
    apply in_map_iff in Hcmd as (k & <- & Hk).
    apply in_map_iff in Hk as ([k' v] & Hfst & Hkv). simpl in Hfst. subst k'.
    apply filter_In in Hkv as [Hkv Hsuf]. simpl in Hsuf.
    exists k, v. split; [exact Hkv|]. split; [exact Hsuf|].
    pose proof (Hnames k v Hkv) as Hfile.
    destruct flag.
    + split; [reflexivity|]. apply reference_path_relative. exact Hfile.
    + split; [reflexivity|]. apply reference_run_path. exact Hfile.
Qed.

Section InjectionExact.
Context {T : Type} {C : Collaborators T}.

(** With collaborators that accumulate, the accumulator is there once a
    non-empty series of load commands is appended. *)
Lemma inject_loop_present (exe : Executable) (flag : bool) (names : list string) :
  accumulates C -> names <> [] ->
  forall st st' : state T,
    inject_loop exe flag names st = (Ok tt, st') ->
    Executable_inj_present exe (tool st') = true.
Proof.
  intros Hacc. induction names as [|a names IH]; [contradiction|]. intros _ st st'.
  simpl inject_loop.
  replace (if flag then inj_func exe ("@executable_path/../../" +:+ a)
           else inj_func exe ("@rpath/" +:+ a))
    with (inj_func exe (reference flag a)) by (destruct flag; reflexivity).
  rewrite bind_eq. unfold inj_func. rewrite action_eq.
  destruct (Executable_inj_func exe (reference flag a) (disk st, tool st))
    as [[[]|e] [d t]] eqn:Hf; cbn [fst snd]; [|discriminate].
  destruct names as [|b names].
  - cbn [inject_loop mret M_ret]. intros [= <-]. cbn [tool].
    exact (Hacc _ _ _ _ Hf).
  - apply IH. discriminate.
Qed.

Lemma appended_quiet (p : string) (cmds : list string) :
  Forall (fun ev => raised ev = None) (appended p cmds)
  /\ forall q ent r, ~ In (EvSignWithEntitlements q ent r) (appended p cmds).
Proof.
  unfold appended. split.
  - apply List.Forall_forall. intros ev Hin. apply in_map_iff in Hin as (c & <- & _).
    reflexivity.
  - intros q ent r Hin. apply in_map_iff in Hin as (c & Hc & _). discriminate Hc.
Qed.

(** The second half of [_inject_into_extension] with collaborators that
    accumulate and at least one dylib: when it completes, the calls are
    the extraction, the removal, every append, the write and, when
    entitlements existed, the signing; when it raises, a call raised, and
    it is the last one. *)
Lemma inject_and_sign_exact (ext : AppBundle) (appex name : string)
    (dylibs : list (string * string)) (flag : bool) (st : state T) :
  accumulates C -> dylibs <> [] ->
  let p := exe_path (executable ext) in
  let ent := appex +:+ "/cyan.entitlements" in
  let cmds := map (reference flag) (map fst dylibs) in
  let written := [EvInjPresent p true; EvInjWrite p p (Ok tt)] in
  exists evs,
    trace (inject_and_sign ext appex name dylibs flag st).2 = trace st ++ evs
    /\ match (inject_and_sign ext appex name dylibs flag st).1 with
       | Ok _ =>
           exists has tail,
             evs = [EvWriteEntitlements p ent (Ok has); EvRemoveSignature p (Ok tt)]
                     ++ appended p cmds ++ written ++ tail
             /\ if has : bool
                then exists signed, tail = [EvSignWithEntitlements p ent (Ok signed)]
                else tail = []
       | Raise e =>
           exists good ev,
             evs = good ++ [ev]
             /\ Forall (fun ev => raised ev = None) good
             /\ raised ev = Some e
             /\ is_construction ev = false
             /\ (forall q ent' r, ~ In (EvSignWithEntitlements q ent' r) good)
             /\ (forall q ent' r,
                    ev = EvSignWithEntitlements q ent' r ->
                    q = p /\ ent' = ent
                    /\ good = [EvWriteEntitlements p ent (Ok true);
                               EvRemoveSignature p (Ok tt)]
                                ++ appended p cmds ++ written)
       end.
Proof.
  intros Hacc Hne. cbn zeta.
  assert (map fst dylibs <> []) as Hnames by (destruct dylibs; [contradiction|discriminate]).
  destruct (appended_quiet (exe_path (executable ext))
              (map (reference flag) (map fst dylibs))) as [Hquiet Hnosign].
  unfold inject_and_sign, write_entitlements, remove_signature.
  rewrite bind_eq, action_eq.
  destruct (MainExecutable_write_entitlements _ _ _) as [[has|e] [d1 t1]];
    cbn [fst snd disk tool stdout trace].
  2:{ eexists. split; [reflexivity|]. exists [], (EvWriteEntitlements (exe_path (executable ext))
                    (appex +:+ "/cyan.entitlements") (Raise e)).
      split; [reflexivity|]. split; [constructor|]. split; [reflexivity|].
      split; [reflexivity|]. split; [intros q ent' r []|discriminate]. }
  rewrite bind_eq, action_eq. cbn [fst snd disk tool stdout trace].
  destruct (Executable_remove_signature _ _) as [[[]|e] [d2 t2]];
    cbn [fst snd disk tool stdout trace].
  2:{ eexists. split; [rewrite <- app_assoc; reflexivity|].
      exists [EvWriteEntitlements (exe_path (executable ext))
                (appex +:+ "/cyan.entitlements") (Ok has)],
        (EvRemoveSignature (exe_path (executable ext)) (Raise e)).
      split; [reflexivity|]. split; [repeat constructor|]. split; [reflexivity|].
      split; [reflexivity|].
      split; [intros q ent' r [H|[]]; discriminate H|discriminate]. }
  rewrite bind_eq.
  match goal with
  | |- context [inject_loop ?x ?f ?n ?s] =>
      pose proof (inject_loop_present x f n Hacc Hnames s) as Hpresent;
      destruct (inject_loop_cases x f n s)
        as [(d3 & t3 & H)|(e & done & n' & rest & d3 & t3 & Hn & H)]; rewrite H in *
  end; cbn [fst snd disk tool stdout trace].
  2:{ eexists. split; [rewrite <- !app_assoc; reflexivity|].
      exists ([EvWriteEntitlements (exe_path (executable ext))
                 (appex +:+ "/cyan.entitlements") (Ok has);
               EvRemoveSignature (exe_path (executable ext)) (Ok tt)]
                ++ appended (exe_path (executable ext)) (map (reference flag) done)),
        (EvInjFunc (exe_path (executable ext)) (reference flag n') (Raise e)).
      destruct (appended_quiet (exe_path (executable ext)) (map (reference flag) done))
        as [Hq Hs].
      split; [rewrite <- !app_assoc; reflexivity|].
      split; [repeat constructor; exact Hq|]. split; [reflexivity|].
      split; [reflexivity|]. split; [|discriminate].
      intros q ent' r [Hin|[Hin|Hin]]; [discriminate Hin|discriminate Hin|].
      exact (Hs q ent' r Hin). }
  specialize (Hpresent _ eq_refl). cbn [tool] in Hpresent.
  rewrite bind_eq. unfold inj_present. rewrite query_eq. unfold log.
  cbn [fst snd disk tool stdout trace]. rewrite Hpresent.
  unfold inj_write. rewrite bind_eq, action_eq. cbn [fst snd disk tool stdout trace].
  destruct (Executable_inj_write _ _ _) as [[[]|e] [d4 t4]];
    cbn [fst snd disk tool stdout trace].
  2:{ eexists. split; [rewrite <- !app_assoc; reflexivity|].
      exists ([EvWriteEntitlements (exe_path (executable ext))
                 (appex +:+ "/cyan.entitlements") (Ok has);
               EvRemoveSignature (exe_path (executable ext)) (Ok tt)]
                ++ appended (exe_path (executable ext))
                     (map (reference flag) (map fst dylibs))
                ++ [EvInjPresent (exe_path (executable ext)) true]),
        (EvInjWrite (exe_path (executable ext)) (exe_path (executable ext)) (Raise e)).
      split; [rewrite <- !app_assoc; reflexivity|].
      split; [repeat constructor; apply Forall_app; split;
              [exact Hquiet|repeat constructor]|].
      split; [reflexivity|]. split; [reflexivity|]. split; [|discriminate].
      intros q ent' r [Hin|[Hin|Hin]]; [discriminate Hin|discriminate Hin|].
      rewrite ?app_nil_l in Hin.
      apply in_app_or in Hin as [Hin|[Hin|[]]]; [|discriminate Hin].
      exact (Hnosign q ent' r Hin). }
  destruct has.
  - unfold sign_with_entitlements. rewrite !bind_eq, action_eq.
    cbn [fst snd disk tool stdout trace].
    destruct (MainExecutable_sign_with_entitlements _ _ _) as [[signed|e] [d5 t5]];
      cbn [fst snd disk tool stdout trace print mret M_ret].
    + eexists. split; [rewrite <- !app_assoc; reflexivity|].
      exists true, [EvSignWithEntitlements (exe_path (executable ext))
                      (appex +:+ "/cyan.entitlements") (Ok signed)].
      split; [reflexivity|]. exists signed. reflexivity.
    + eexists. split; [rewrite <- !app_assoc; reflexivity|].
      exists ([EvWriteEntitlements (exe_path (executable ext))
                 (appex +:+ "/cyan.entitlements") (Ok true);
               EvRemoveSignature (exe_path (executable ext)) (Ok tt)]
                ++ appended (exe_path (executable ext))
                     (map (reference flag) (map fst dylibs))
                ++ [EvInjPresent (exe_path (executable ext)) true;
                    EvInjWrite (exe_path (executable ext)) (exe_path (executable ext))
                      (Ok tt)]),
        (EvSignWithEntitlements (exe_path (executable ext))
           (appex +:+ "/cyan.entitlements") (Raise e)).
      split; [rewrite <- !app_assoc; reflexivity|].
      split; [repeat constructor; apply Forall_app; split;
              [exact Hquiet|repeat constructor]|].
      split; [reflexivity|]. split; [reflexivity|]. split.
      * intros q ent' r [Hin|[Hin|Hin]]; [discriminate Hin|discriminate Hin|].
        rewrite ?app_nil_l in Hin.
        apply in_app_or in Hin as [Hin|[Hin|[Hin|[]]]];
          [|discriminate Hin|discriminate Hin].
        exact (Hnosign q ent' r Hin).
      * intros q ent' r [= <- <- <-]. split; [reflexivity|]. split; reflexivity.
  - cbn [fst snd disk tool stdout trace print mbind M_bind mret M_ret].
    eexists. split; [rewrite <- !app_assoc; reflexivity|].
    exists false, []. split; [rewrite app_nil_r; reflexivity|reflexivity].
Qed.

End InjectionExact.

(** C5: the injection sequence on an extension whose bundle is
    constructed, whose executable is not encrypted and for which at least
    one tweak is a dylib, with an executable reference that accumulates
    the appended load commands.  When the run completes, the calls after
    the three lookups are, in this order: the extraction of the
    entitlements to [<appex>/cyan.entitlements], the removal of the
    signature, the append of the load command of every dylib, the write of
    the accumulated load commands to the executable file, and then, exactly
    when entitlements existed, the signing with the side file; when none
    existed no signing call is made.  Whenever a signing call is made,
    in a completed run or not, it is the last call and all of the above
    precedes it: every load command was appended and written.  A run that
    raises does so right after a call that raised, with its exception. *)
Theorem flush_before_signing {T} {C : Collaborators T} (self : AppBundle)
    (appex : string) (tweaks : list (string * string)) (flag : bool) (st : state T)
    (b : AppBundle) :
  accumulates C ->
  (AppBundle_init appex st).1 = Ok b ->
  Executable_is_encrypted (executable b) (disk st) (tool st) = Ok false ->
  List.filter (fun kv => endswith kv.1 ".dylib") tweaks <> [] ->
  let run := _inject_into_extension self appex tweaks flag st in
  let p := exe_path (executable b) in
  let ent := appex +:+ "/cyan.entitlements" in
  let cmds := map (reference flag)
                  (map fst (List.filter (fun kv => endswith kv.1 ".dylib") tweaks)) in
  let before_signing :=
    appended p cmds ++ [EvInjPresent p true; EvInjWrite p p (Ok tt)] in
  exists evs,
    trace run.2
    = trace st ++ [EvPlist (appex +:+ "/Info.plist") (Ok tt); EvExecutable p (Ok tt);
                   EvIsEncrypted p (Ok false)] ++ evs
    /\ (forall q ent' r,
           In (EvSignWithEntitlements q ent' r) evs ->
           q = p /\ ent' = ent
           /\ evs = [EvWriteEntitlements p ent (Ok true); EvRemoveSignature p (Ok tt)]
                      ++ before_signing ++ [EvSignWithEntitlements p ent r])
    /\ match run.1 with
       | Ok _ =>
           exists has tail,
             evs = [EvWriteEntitlements p ent (Ok has); EvRemoveSignature p (Ok tt)]
                     ++ before_signing ++ tail
             /\ if has : bool
                then exists signed, tail = [EvSignWithEntitlements p ent (Ok signed)]
                else tail = []
       | Raise e =>
           exists good ev,
             evs = good ++ [ev] /\ Forall (fun ev => raised ev = None) good
             /\ raised ev = Some e
       end.
Proof.
  intros Hacc Hinit Henc Hne. cbn zeta.
  unfold _inject_into_extension. rewrite bind_eq. unfold try_except. rewrite bind_eq.
  destruct (AppBundle_init_cases appex st)
    as [(e' & evs0 & H & _)|(doc & name & _ & _ & H)]; rewrite H in *;
    cbn [fst snd] in *; [discriminate|].
  injection Hinit as <-.
  cbn [mret M_ret]. rewrite bind_eq. unfold is_encrypted. rewrite query_eq.
  cbn [executable exe_path disk tool log] in *. rewrite Henc.
  unfold log. cbn [disk tool stdout trace].
  destruct (List.filter (fun kv => endswith kv.1 ".dylib") tweaks)
    as [|kv dylibs] eqn:Hf; [contradiction|].
  match goal with
  | |- context [inject_and_sign ?bb ?a ?n ?l ?f ?s] =>
      destruct (inject_and_sign_exact bb a n l f s Hacc Hne) as (evs & Htr & Hshape)
  end.
  cbn zeta in Hshape. cbn [executable exe_path trace] in *.
  exists evs. split; [rewrite Htr, <- !app_assoc; reflexivity|].
  destruct (inject_and_sign _ _ _ _ _ _) as [[[]|e] s']; cbn [fst snd] in *.
  - destruct Hshape as (has & tail & -> & Htail). split.
    + intros q ent' r Hin.
      assert (In (EvSignWithEntitlements q ent' r) tail) as Hin'.
      { destruct Hin as [Hin|[Hin|Hin]]; [discriminate Hin|discriminate Hin|].
        rewrite app_nil_l in Hin.
        apply in_app_or in Hin as [Hin|Hin].
        - exfalso. eapply (proj2 (appended_quiet _ _)). exact Hin.
        - destruct Hin as [Hin|[Hin|Hin]]; [discriminate Hin|discriminate Hin|exact Hin]. }
      destruct has; [|subst tail; destruct Hin'].
      destruct Htail as [signed ->]. destruct Hin' as [[= <- <- <-]|[]].
      split; [reflexivity|]. split; [reflexivity|].
      rewrite <- !app_assoc. reflexivity.
    + exists has, tail. split; [rewrite <- !app_assoc; reflexivity|exact Htail].
  - destruct Hshape as (good & ev & -> & Hgood & Hraised & _ & Hnosign & Hlast). split.
    + intros q ent' r Hin. apply in_app_or in Hin as [Hin|[Hin|[]]].
      * exfalso. exact (Hnosign q ent' r Hin).
      * destruct (Hlast q ent' r Hin) as (-> & -> & ->).
        split; [reflexivity|]. split; [reflexivity|]. rewrite Hin, <- !app_assoc.
        reflexivity.
    + exists good, ev. split; [reflexivity|]. split; assumption.
Qed.

(* ===================================================================== *)
(** ** The sweep over the extensions *)
(* ===================================================================== *)

Lemma raised_uncaught (ev : event) : raised ev = None -> uncaught ev = None.
Proof. unfold uncaught. intros ->. reflexivity. Qed.

Lemma primitive_uncaught (ev : event) (e : exn) :
  raised ev = Some e -> is_construction ev = false -> uncaught ev = Some e.
Proof. unfold uncaught. intros -> ->. reflexivity. Qed.

(** In the calls of the injection sequence nothing raised when it
    completes, and when it raises the last call raised, and only it. *)
Lemma injection_trace_shape (p ent : string) (cmds : list string) (r : result unit)
    (evs : list event) :
  injection_trace p ent cmds r evs ->
  match r with
  | Ok _ => Forall (fun ev => uncaught ev = None) evs
  | Raise e =>
      exists good ev,
        evs = good ++ [ev] /\ Forall (fun ev => uncaught ev = None) good
        /\ uncaught ev = Some e
  end.
Proof.
  intros Ht.
  assert (forall c, Forall (fun ev => uncaught ev = None) (appended p c)) as Hq.
  { intros c. apply List.Forall_forall. intros ev Hin.
    apply in_map_iff in Hin as (x & <- & _). reflexivity. }
  assert (forall b, Forall (fun ev => uncaught ev = None) (flushed p b)) as Hf
    by (intros []; repeat constructor).
  inversion Ht; subst.
  - exists [], (EvWriteEntitlements p ent (Raise e)). repeat split. constructor.
  - exists [EvWriteEntitlements p ent (Ok has)], (EvRemoveSignature p (Raise e)).
    repeat split. repeat constructor.
  - exists ([EvWriteEntitlements p ent (Ok has); EvRemoveSignature p (Ok tt)]
              ++ appended p done), (EvInjFunc p cmd (Raise e)).
    split; [rewrite <- !app_assoc; reflexivity|]. split; [|reflexivity].
    repeat constructor. apply Hq.
  - exists ([EvWriteEntitlements p ent (Ok has); EvRemoveSignature p (Ok tt)]
              ++ appended p cmds ++ [EvInjPresent p true]),
      (EvInjWrite p p (Raise e)).
    split; [rewrite <- !app_assoc; reflexivity|]. split; [|reflexivity].
    repeat constructor. apply Forall_app. split; [apply Hq|repeat constructor].
  - exists ([EvWriteEntitlements p ent (Ok true); EvRemoveSignature p (Ok tt)]
              ++ appended p cmds ++ flushed p present),
      (EvSignWithEntitlements p ent (Raise e)).
    split; [rewrite <- !app_assoc; reflexivity|]. split; [|reflexivity].
    repeat constructor. apply Forall_app. split; [apply Hq|apply Hf].
  - repeat constructor. apply Forall_app. split; [apply Hq|].
    apply Forall_app. split; [apply Hf|repeat constructor].
  - repeat constructor. apply Forall_app. split; [apply Hq|apply Hf].
Qed.

(** A call that raised uncaught, after calls none of which did, is the
    last one. *)
Lemma uncaught_is_last (good : list event) (ev : event) :
  Forall (fun ev => uncaught ev = None) good ->
  forall pre x post e,
    good ++ [ev] = pre ++ x :: post -> uncaught x = Some e -> post = [] /\ x = ev.
Proof.
  induction good as [|g good IH]; intros Hgood pre x post e Heq Hx.
  - destruct pre as [|a pre]; simpl in Heq.
    + injection Heq as <- <-. split; reflexivity.
    + injection Heq as _ Heq. destruct pre; discriminate Heq.
  - apply Forall_cons in Hgood as [Hg Hgood]. destruct pre as [|a pre]; simpl in Heq.
    + injection Heq as <- _. congruence.
    + injection Heq as _ Heq. exact (IH Hgood pre x post e Heq Hx).
Qed.

Lemma none_uncaught (evs : list event) :
  Forall (fun ev => uncaught ev = None) evs ->
  forall pre x post e, evs = pre ++ x :: post -> uncaught x = Some e -> False.
Proof.
  intros Hall pre x post e -> Hx. apply Forall_app in Hall as [_ Hall].
  apply Forall_cons in Hall as [Hnone _]. congruence.
Qed.

Section Sweep.
Context {T : Type} {C : Collaborators T}.

(** One extension: its document is always asked for; when the run
    completes no call raised uncaught, and when it raises, the last call
    raised uncaught, with the exception of the run, and no call before
    it did. *)
Lemma extension_shape (self : AppBundle) (appex : string)
    (tweaks : list (string * string)) (flag : bool) (st : state T) :
  exists evs,
    trace (_inject_into_extension self appex tweaks flag st).2 = trace st ++ evs
    /\ attempted appex evs
    /\ match (_inject_into_extension self appex tweaks flag st).1 with
       | Ok _ => Forall (fun ev => uncaught ev = None) evs
       | Raise e =>
           exists good ev,
             evs = good ++ [ev] /\ Forall (fun ev => uncaught ev = None) good
             /\ uncaught ev = Some e
       end.
Proof.
  unfold _inject_into_extension. rewrite bind_eq. unfold try_except. rewrite bind_eq.
  unfold AppBundle_init, Plist_new, MainExecutable_new, lift_result.
  rewrite !bind_eq, query_eq.
  destruct (Plist_load (appex +:+ "/Info.plist") (disk st) (tool st)) as [doc|e] eqn:Hload.
  2:{ simpl void. destruct (is_Exception e) eqn:He; simpl.
      - exists [EvPlist (appex +:+ "/Info.plist") (Raise e)]. split; [reflexivity|].
        split; [exists (Raise e); left; reflexivity|].
        constructor; [|constructor]. unfold uncaught. simpl. rewrite He. reflexivity.
      - exists [EvPlist (appex +:+ "/Info.plist") (Raise e)]. split; [reflexivity|].
        split; [exists (Raise e); left; reflexivity|].
        exists [], (EvPlist (appex +:+ "/Info.plist") (Raise e)).
        split; [reflexivity|]. split; [constructor|].
        unfold uncaught. simpl. rewrite He. reflexivity. }
  simpl. rewrite !bind_eq. unfold getitem. simpl.
  destruct (doc !! "CFBundleExecutable") as [name|] eqn:Hname.
  2:{ simpl. exists [EvPlist (appex +:+ "/Info.plist") (Ok tt)]. split; [reflexivity|].
      split; [exists (Ok tt); left; reflexivity|]. repeat constructor. }
  rewrite !bind_eq, query_eq.
  destruct (Executable_init (appex +:+ "/" +:+ name) _ _) as [[]|e] eqn:Hinit.
  2:{ simpl. destruct (is_Exception e) eqn:He; simpl.
      - exists [EvPlist (appex +:+ "/Info.plist") (Ok tt);
                EvExecutable (appex +:+ "/" +:+ name) (Raise e)].
        split; [rewrite <- app_assoc; reflexivity|].
        split; [exists (Ok tt); left; reflexivity|].
        constructor; [reflexivity|]. constructor; [|constructor].
        unfold uncaught. simpl. rewrite He. reflexivity.
      - exists [EvPlist (appex +:+ "/Info.plist") (Ok tt);
                EvExecutable (appex +:+ "/" +:+ name) (Raise e)].
        split; [rewrite <- app_assoc; reflexivity|].
        split; [exists (Ok tt); left; reflexivity|].
        exists [EvPlist (appex +:+ "/Info.plist") (Ok tt)],
          (EvExecutable (appex +:+ "/" +:+ name) (Raise e)).
        split; [reflexivity|]. split; [repeat constructor|].
        unfold uncaught. simpl. rewrite He. reflexivity. }
  cbn [mret M_ret fst snd]. rewrite bind_eq. unfold is_encrypted. rewrite query_eq.
  cbn [executable exe_path disk tool log]. rewrite !log_log. simpl app.
  destruct (Executable_is_encrypted _ _ _) as [[|]|e] eqn:Henc.
  - eexists. split; [reflexivity|]. split; [exists (Ok tt); left; reflexivity|].
    repeat constructor.
  - destruct (List.filter (fun kv => endswith kv.1 ".dylib") tweaks)
      as [|kv dylibs] eqn:Hf.
    + eexists. split; [reflexivity|]. split; [exists (Ok tt); left; reflexivity|].
      repeat constructor.
    + match goal with
      | |- context [inject_and_sign ?b ?a ?n ?l ?f ?s] =>
          destruct (inject_and_sign_trace b a n l f s) as (evs & Htr & Hit)
      end.
      apply injection_trace_shape in Hit.
      exists ([EvPlist (appex +:+ "/Info.plist") (Ok tt);
               EvExecutable (appex +:+ "/" +:+ name) (Ok tt);
               EvIsEncrypted (appex +:+ "/" +:+ name) (Ok false)] ++ evs).
      split; [rewrite Htr; unfold log; cbn [trace]; rewrite <- app_assoc; reflexivity|].
      split; [exists (Ok tt); left; reflexivity|].
      destruct (inject_and_sign _ _ _ _ _ _).1 as [[]|e].
      * apply Forall_app. split; [repeat constructor|exact Hit].
      * destruct Hit as (good & ev & -> & Hgood & Hev).
        exists ([EvPlist (appex +:+ "/Info.plist") (Ok tt);
                 EvExecutable (appex +:+ "/" +:+ name) (Ok tt);
                 EvIsEncrypted (appex +:+ "/" +:+ name) (Ok false)] ++ good), ev.
        split; [rewrite <- app_assoc; reflexivity|]. split; [|exact Hev].
        apply Forall_app. split; [repeat constructor|exact Hgood].
  - eexists. split; [reflexivity|]. split; [exists (Ok tt); left; reflexivity|].
    exists [EvPlist (appex +:+ "/Info.plist") (Ok tt);
            EvExecutable (appex +:+ "/" +:+ name) (Ok tt)],
      (EvIsEncrypted (appex +:+ "/" +:+ name) (Raise e)).
    split; [reflexivity|]. split; [repeat constructor|reflexivity].
Qed.

Lemma sweep_shape (self : AppBundle) (tweaks : list (string * string)) (flag : bool)
    (l : list string) :
  forall st : state T,
  exists evs,
    trace (for_each l (fun p => _inject_into_extension self p tweaks flag) st).2
    = trace st ++ evs
    /\ match (for_each l (fun p => _inject_into_extension self p tweaks flag) st).1 with
       | Ok _ =>
           Forall (fun ev => uncaught ev = None) evs
           /\ forall p, In p l -> attempted p evs
       | Raise e =>
           exists good ev done p rest,
             evs = good ++ [ev] /\ Forall (fun ev => uncaught ev = None) good
             /\ uncaught ev = Some e
             /\ l = done ++ p :: rest
             /\ (forall q, In q (done ++ [p]) -> attempted q evs)
             /\ for_each l (fun p => _inject_into_extension self p tweaks flag) st
                = for_each (done ++ [p])
                    (fun p => _inject_into_extension self p tweaks flag) st
       end.
Proof.
  induction l as [|a l IH]; intros st.
  - exists []. simpl. rewrite app_nil_r. split; [reflexivity|].
    split; [constructor|intros p []].
  - destruct (extension_shape self a tweaks flag st) as (evs1 & Htr1 & Hat & Hs1).
    cbn [for_each]. rewrite bind_eq.
    destruct (_inject_into_extension self a tweaks flag st) as [[[]|e] st1] eqn:Hrun;
      cbn [fst snd] in *.
    + destruct (IH st1) as (evs2 & Htr2 & Hs2).
      exists (evs1 ++ evs2). split; [rewrite Htr2, Htr1, app_assoc; reflexivity|].
      destruct (for_each l _ st1) as [[[]|e] st2] eqn:Hrest; cbn [fst snd] in *.
      * destruct Hs2 as [Hnone Hall]. split; [apply Forall_app; split; assumption|].
        intros p [<-|Hp].
        -- destruct Hat as [r Hr]. exists r. apply in_or_app. left. exact Hr.
        -- destruct (Hall p Hp) as [r Hr]. exists r. apply in_or_app. right. exact Hr.
      * destruct Hs2 as (good & ev & done & p & rest & -> & Hgood & Hev & Hl & Hatt & Heq).
        exists (evs1 ++ good), ev, (a :: done), p, rest.
        split; [rewrite app_assoc; reflexivity|].
        split; [apply Forall_app; split; assumption|]. split; [exact Hev|].
        split; [rewrite Hl; reflexivity|]. split.
        -- intros q [<-|Hq].
           ++ destruct Hat as [r Hr]. exists r. apply in_or_app. left. exact Hr.
           ++ destruct (Hatt q Hq) as [r Hr]. exists r. apply in_or_app. right. exact Hr.
        -- cbn [app for_each]. rewrite bind_eq, Hrun. exact Heq.
    + destruct Hs1 as (good & ev & -> & Hgood & Hev).
      exists (good ++ [ev]). split; [exact Htr1|].
      exists good, ev, [], a, l. split; [reflexivity|]. split; [exact Hgood|].
      split; [exact Hev|]. split; [reflexivity|]. split.
      * intros q [<-|[]]. exact Hat.
      * cbn [app for_each]. rewrite bind_eq, Hrun. reflexivity.
Qed.

End Sweep.

(** C3, as the code has it.  Once the main executable is done, in a run
    of [inject_all_extensions]: (1) a collaborator call that raises, other
    than a call of the bundle construction raising an [Exception] (the
    document read, the executable constructor), is the last call of the
    run and the run raises its exception: the failure of the encryption
    query, of the entitlement extraction, of the signature removal, of a
    load-command append, of the write or of the signing is not caught;
    (2) a run that completes has processed every extension of the list,
    whatever bundle constructions failed and whichever extensions were
    encrypted on the way; (3) a run that raises does so with the exception
    of its last call, raised uncaught, at some extension of the list, with
    that extension and those before it processed, and it is the run of
    the sweep over these alone: the extensions after it are not
    processed. *)
Theorem extension_sweep_isolation {T} {C : Collaborators T} (self : AppBundle)
    (tweaks : list (string * string)) (tmpdir : string) (flag : bool) (st : state T) :
  (inject (executable self) tweaks tmpdir flag st).1 = Ok tt ->
  let after_main := (inject (executable self) tweaks tmpdir flag st).2 in
  let appex_list := get_all_appex self (disk after_main) in
  let run := inject_all_extensions self tweaks tmpdir flag true st in
  exists evs,
    trace run.2 = trace after_main ++ evs
    /\ (forall pre ev post e,
           evs = pre ++ ev :: post -> uncaught ev = Some e ->
           post = [] /\ run.1 = Raise e)
    /\ (run.1 = Ok tt -> forall p, In p appex_list -> attempted p evs)
    /\ forall e,
        run.1 = Raise e ->
        (exists pre ev, evs = pre ++ [ev] /\ uncaught ev = Some e)
        /\ exists done p rest,
            appex_list = done ++ p :: rest
            /\ (forall q, In q (done ++ [p]) -> attempted q evs)
            /\ run = for_each (done ++ [p])
                       (fun p => _inject_into_extension self p tweaks flag) after_main.
Proof.
  intros Hmain. cbn zeta. unfold inject_all_extensions. rewrite bind_eq.
  destruct (inject (executable self) tweaks tmpdir flag st) as [[[]|e] s1];
    [|discriminate].
  cbn [fst snd negb]. rewrite bind_eq. unfold with_disk. cbn [mret M_ret].
  destruct (get_all_appex self (disk s1)) as [|a l] eqn:Hlist.
  - exists []. unfold print. cbn [fst snd trace]. rewrite app_nil_r.
    split; [reflexivity|].
    split; [intros [|x pre] ev post e Heq; discriminate Heq|].
    split; [intros _ p []|discriminate].
  - destruct (sweep_shape self tweaks flag (a :: l) s1) as (evs & Htr & Hs).
    exists evs. split; [exact Htr|].
    destruct (for_each (a :: l) _ s1) as [[[]|e] s2] eqn:Hrun; cbn [fst snd] in *.
    + destruct Hs as [Hnone Hall]. split; [|split; [intros _; exact Hall|discriminate]].
      intros pre ev post e Heq Hev. exfalso.
      exact (none_uncaught evs Hnone pre ev post e Heq Hev).
    + destruct Hs as (good & ev & done & p & rest & -> & Hgood & Hev & Hl & Hatt & Heq).
      split; [|split; [discriminate|]].
      * intros pre x post e' Heq' Hx.
        destruct (uncaught_is_last good ev Hgood pre x post e' Heq' Hx) as [-> ->].
        split; [reflexivity|]. congruence.
      * intros e' [= <-]. split; [exists good, ev; split; [reflexivity|exact Hev]|].
        exists done, p, rest. split; [exact Hl|]. split; [exact Hatt|exact Heq].
Qed.

(* ===================================================================== *)
(** ** The mass operation driver *)
(* ===================================================================== *)

Lemma capability_calls_app (l1 l2 : list event) :
  capability_calls (l1 ++ l2) = capability_calls l1 ++ capability_calls l2.
Proof. unfold capability_calls. apply omap_app. Qed.

Lemma capability_calls_lookups (l : list event) :
  Forall (fun ev => is_lookup ev = true) l -> capability_calls l = [].
Proof.
  induction 1 as [|ev l Hev _ IH]; [reflexivity|].
  unfold capability_calls in *. destruct ev; try discriminate; simpl; exact IH.
Qed.

Section MassOperation.
Context {T : Type} {C : Collaborators T}.

Lemma call_capability_eq (func : capability) (exe : Executable) (st : state T) :
  exists r d t,
    call_capability func exe st
    = (r, mkState d t (stdout st) (trace st ++ [EvCapability func (exe_path exe) r])).
Proof.
  destruct func; unfold call_capability; rewrite action_eq; eexists _, _, _; reflexivity.
Qed.

(** One artifact: either its executable is resolved and the capability
    called on it, or a call raises; nothing is printed. *)
Lemma resolve_and_call_cases (func : capability) (ts : string) (st : state T) :
  (exists exe b lookups d t,
      resolve_and_call func ts st
      = (Ok b, mkState d t (stdout st)
                 (trace st ++ lookups ++ [EvCapability func exe (Ok b)]))
      /\ resolves_to ts exe
      /\ Forall (fun ev => is_lookup ev = true) lookups)
  \/ (exists e st',
         resolve_and_call func ts st = (Raise e, st') /\ stdout st' = stdout st).
Proof.
  unfold resolve_and_call, resolves_to.
  destruct (endswith ts ".dylib") eqn:Hsuf.
  - unfold Executable_new. rewrite !bind_eq, query_eq.
    destruct (Executable_init ts (disk st) (tool st)) as [[]|e].
    + cbn [mret M_ret].
      destruct (call_capability_eq func (mkExecutable ts (basename ts))
                  (log [EvExecutable ts (Ok tt)] st)) as ([b|e] & d & t & Hcall);
        rewrite Hcall; cbn [log stdout trace exe_path].
      * left. exists ts, b, [EvExecutable ts (Ok tt)], d, t.
        split; [rewrite <- app_assoc; reflexivity|]. split; [reflexivity|].
        repeat constructor.
      * right. eexists _, _. split; reflexivity.
    + right. eexists _, _. split; reflexivity.
  - unfold Plist_new, Executable_new, lift_result. rewrite !bind_eq, query_eq.
    destruct (Plist_load (ts +:+ "/Info.plist") (disk st) (tool st)) as [doc|e].
    2:{ right. eexists _, _. split; reflexivity. }
    cbn [mret M_ret void]. rewrite !bind_eq. unfold getitem. cbn [document].
    destruct (doc !! "CFBundleExecutable") as [name|].
    2:{ right. eexists _, _. split; reflexivity. }
    rewrite !bind_eq, query_eq. cbn [log disk tool].
    destruct (Executable_init (ts +:+ "/" +:+ name) (disk st) (tool st)) as [[]|e].
    2:{ right. eexists _, _. split; reflexivity. }
    cbn [mret M_ret].
    match goal with
    | |- context [call_capability func ?x ?s] =>
        destruct (call_capability_eq func x s) as ([b|e] & d & t & Hcall); rewrite Hcall
    end; cbn [log stdout trace exe_path].
    + left. exists (ts +:+ "/" +:+ name), b,
        [EvPlist (ts +:+ "/Info.plist") (Ok tt); EvExecutable (ts +:+ "/" +:+ name) (Ok tt)],
        d, t.
      split; [rewrite <- !app_assoc; reflexivity|]. split; [exists name; reflexivity|].
      repeat constructor.
    + right. eexists _, _. split; reflexivity.
Qed.

Lemma successes_cons (exe : string) (b : bool) (outcomes : list (string * bool)) (n : nat) :
  (if b then n + 1 else n) + successes outcomes = n + successes ((exe, b) :: outcomes).
Proof. unfold successes. destruct b; simpl; lia. Qed.

(** The sweep: either every artifact is resolved and called, in order,
    and the counter grows by the number of successes, or a call raises;
    nothing is printed. *)
Lemma mass_loop_cases (func : capability) (l : list string) :
  forall (count : nat) (st : state T),
    (exists outcomes evs d t,
        mass_loop func l count st
        = (Ok (count + successes outcomes),
           mkState d t (stdout st) (trace st ++ evs))
        /\ Forall2 (fun ts o => resolves_to ts o.1) l outcomes
        /\ capability_calls evs = map (fun o => (func, o.1, Ok o.2)) outcomes)
    \/ (exists e st',
           mass_loop func l count st = (Raise e, st') /\ stdout st' = stdout st).
Proof.
  induction l as [|ts l IH]; intros count st.
  - left. exists [], [], (disk st), (tool st). destruct st. simpl.
    rewrite app_nil_r. unfold successes. simpl. rewrite Nat.add_0_r.
    repeat split. constructor.
  - cbn [mass_loop]. rewrite bind_eq.
    destruct (resolve_and_call_cases func ts st)
      as [(exe & b & lookups & d & t & Hrun & Hres & Hl)|(e & st' & Hrun & Hout)];
      rewrite Hrun.
    + destruct (IH (if b then count + 1 else count)
                   (mkState d t (stdout st)
                      (trace st ++ lookups ++ [EvCapability func exe (Ok b)])))
        as [(outcomes & evs & d' & t' & Hrest & Hall & Hcalls)|(e & st' & Hrest & Hout)];
        rewrite Hrest; cbn [stdout trace].
      * left. exists ((exe, b) :: outcomes),
          (lookups ++ [EvCapability func exe (Ok b)] ++ evs), d', t'.
        split; [|split].
        -- rewrite (successes_cons exe), <- !app_assoc. reflexivity.
        -- constructor; [exact Hres|exact Hall].
        -- rewrite !capability_calls_app, (capability_calls_lookups _ Hl), Hcalls.
           reflexivity.
      * right. exists e, st'. split; [reflexivity|exact Hout].
    + right. exists e, st'. split; [reflexivity|exact Hout].
Qed.

Lemma mass_loop_app (func : capability) (l1 l2 : list string) :
  forall (count : nat) (st : state T),
    mass_loop func (l1 ++ l2) count st
    = match mass_loop func l1 count st with
      | (Ok c, st') => mass_loop func l2 c st'
      | (Raise e, st') => (Raise e, st')
      end.
Proof.
  induction l1 as [|ts l1 IH]; intros count st; [reflexivity|].
  cbn [app mass_loop]. rewrite !bind_eq.
  destruct (resolve_and_call func ts st) as [[b|e] st']; [apply IH|reflexivity].
Qed.

End MassOperation.

Section MassOperationProperties.
Context {T : Type} {C : Collaborators T}.

Lemma fill_cache_cached (self : AppBundle) (d : FS) :
  cached_executables (fill_cache self d)
  = Some match cached_executables self with
         | Some l => l
         | None => get_executables self d
         end.
Proof.
  unfold fill_cache. destruct (cached_executables self) eqn:E; [exact E|reflexivity].
Qed.

Lemma fill_cache_filled (self : AppBundle) (d : FS) (l : list string) :
  cached_executables self = Some l -> fill_cache self d = self.
Proof. unfold fill_cache. intros H. rewrite H. reflexivity. Qed.

Lemma fill_cache_executable (self : AppBundle) (d : FS) :
  executable (fill_cache self d) = executable self.
Proof. unfold fill_cache. destruct (cached_executables self); reflexivity. Qed.

Lemma after_calls_filled (calls : list (string * capability * state T)) :
  forall (self : AppBundle) (l : list string),
    cached_executables self = Some l -> after_calls self calls = self.
Proof.
  induction calls as [|c calls IH]; intros self l Hl; [reflexivity|].
  unfold after_calls in *. cbn [fold_left]. unfold mass_operate at 2. cbn [fst].
  rewrite (fill_cache_filled self _ l Hl). apply (IH self l Hl).
Qed.

End MassOperationProperties.

(** C1, as the code has it: when the sweep completes, the count
    [mass_operate] prints is the number of executables the capability
    succeeded on: one for the main executable if its call succeeded, zero
    if it failed, plus the number of cached artifacts whose resolved
    executable's call succeeded.  Every artifact is resolved and called
    once, in order, whatever the earlier calls returned. *)
Theorem mass_operate_count {T} {C : Collaborators T} (self : AppBundle) (op : string)
    (func : capability) (st : state T) :
  (mass_operate self op func st).2.1 = Ok tt ->
  exists main_ok outcomes evs,
    trace (mass_operate self op func st).2.2 = trace st ++ evs
    /\ capability_calls evs
       = (func, exe_path (executable self), Ok main_ok)
           :: map (fun o => (func, o.1, Ok o.2)) outcomes
    /\ Forall2 (fun ts o => resolves_to ts o.1)
               (cache_of (mass_operate self op func st).1) outcomes
    /\ stdout (mass_operate self op func st).2.2
       = stdout st ++ [count_line op ((if main_ok then 1 else 0) + successes outcomes)].
Proof.
  unfold mass_operate. cbn [fst snd]. unfold mass_sweep.
  rewrite fill_cache_executable. rewrite bind_eq.
  destruct (call_capability_eq func (executable self) st) as ([main_ok|e] & d & t & Hmain);
    rewrite Hmain; [|discriminate].
  rewrite bind_eq.
  destruct (mass_loop_cases func (cache_of (fill_cache self (disk st)))
              (if main_ok then 1 else 0)
              (mkState d t (stdout st)
                 (trace st ++ [EvCapability func (exe_path (executable self)) (Ok main_ok)])))
    as [(outcomes & evs & d' & t' & Hloop & Hall & Hcalls)|(e & st' & Hloop & _)];
    rewrite Hloop; [|discriminate].
  intros _. cbn [print fst snd stdout trace].
  exists main_ok, outcomes, (EvCapability func (exe_path (executable self)) (Ok main_ok) :: evs).
  split; [rewrite <- app_assoc; reflexivity|].
  split; [change (EvCapability func (exe_path (executable self)) (Ok main_ok) :: evs)
            with ([EvCapability func (exe_path (executable self)) (Ok main_ok)] ++ evs);
          rewrite capability_calls_app, Hcalls; reflexivity|].
  split; [exact Hall|reflexivity].
Qed.

(** C9: the read of an artifact's [Info.plist] in [mass_operate] is not
    guarded.  When the artifacts before a non-dylib artifact [ts] have
    been swept and the document of [ts] cannot be read, the exception of
    the read is the outcome of [mass_operate]; the run ends in the state of
    the failed read: no count is printed and no artifact after [ts] is
    visited. *)
Theorem unreadable_metadata_aborts_sweep {T} {C : Collaborators T} (self : AppBundle)
    (op : string) (func : capability) (st : state T)
    (done : list string) (ts : string) (rest : list string)
    (main_ok : bool) (c : nat) (e : exn) :
  let main := call_capability func (executable self) st in
  let swept := mass_loop func done (if main_ok then 1 else 0) main.2 in
  cache_of (mass_operate self op func st).1 = done ++ ts :: rest ->
  endswith ts ".dylib" = false ->
  main.1 = Ok main_ok ->
  swept.1 = Ok c ->
  Plist_load (ts +:+ "/Info.plist") (disk swept.2) (tool swept.2) = Raise e ->
  (mass_operate self op func st).2
  = (Raise e, log [EvPlist (ts +:+ "/Info.plist") (Raise e)] swept.2)
  /\ stdout swept.2 = stdout st.
Proof.
  cbn zeta. unfold mass_operate. cbn [fst snd]. intros Hcache Hsuf Hmain Hswept Hload.
  split.
  - unfold mass_sweep. rewrite fill_cache_executable, bind_eq.
    destruct (call_capability func (executable self) st) as [[b|e0] s0];
      cbn [fst snd] in *; [|discriminate].
    injection Hmain as ->. rewrite bind_eq, Hcache, mass_loop_app.
    destruct (mass_loop func done (if main_ok then 1 else 0) s0) as [[c0|e0] s1];
      cbn [fst snd] in *; [|discriminate].
    cbn [mass_loop]. rewrite bind_eq. unfold resolve_and_call. rewrite Hsuf.
    unfold Plist_new. rewrite !bind_eq, query_eq, Hload. reflexivity.
  - destruct (call_capability_eq func (executable self) st) as (r & d & t & Hcall).
    rewrite Hcall. cbn [fst snd].
    match goal with
    | |- context [mass_loop func done ?n ?s] =>
        destruct (mass_loop_cases func done n s)
          as [(outcomes & evs & d' & t' & Hloop & _)|(e0 & st' & Hloop & Hout)];
        rewrite Hloop
    end; cbn [fst snd stdout]; [reflexivity|exact Hout].
Qed.

(** C7: the artifact enumeration is computed at most once per object.  The
    first [mass_operate] call fills the cache from the disk as it is then;
    a call on an object whose cache is filled leaves it as it is; so after
    any series of later calls, in whatever worlds (files added or removed),
    the cache holds the same sequence, and each later sweep runs over it
    without looking at the disk. *)
Theorem enumeration_cached_once {T} {C : Collaborators T} (self : AppBundle) (op : string)
    (func : capability) (st : state T) :
  let filled := (mass_operate self op func st).1 in
  cached_executables filled
  = Some match cached_executables self with
         | Some l => l
         | None => get_executables self (disk st)
         end
  /\ (forall calls : list (string * capability * state T),
         after_calls filled calls = filled)
  /\ (forall op' func' (st' : state T),
         mass_operate filled op' func' st' = (filled, mass_sweep filled op' func' st')).
Proof.
  cbn zeta. change (mass_operate self op func st).1 with (fill_cache self (disk st)).
  pose proof (fill_cache_cached self (disk st)) as Hc.
  split; [exact Hc|]. split.
  - intros calls. exact (after_calls_filled calls _ _ Hc).
  - intros op' func' st'. unfold mass_operate.
    rewrite (fill_cache_filled _ (disk st') _ Hc). reflexivity.
Qed.

(* ===================================================================== *)
(** ** The removal engine *)
(* ===================================================================== *)

Lemma existsb_false_Forall {A} (f : A -> bool) (l : list A) :
  existsb f l = false <-> Forall (fun x => f x = false) l.
Proof.
  induction l as [|a l IH]; simpl.
  - split; [constructor|reflexivity].
  - rewrite orb_false_iff, IH. split.
    + intros [Ha Hl]. constructor; assumption.
    + intros H. inversion H; subst. split; assumption.
Qed.

(** C2, as the code has it: whenever [remove] returns, it returns [False]
    exactly when none of the paths it resolves the names to existed
    beforehand (a name is resolved to itself when the package root occurs
    in it, to [<root>/<name>] otherwise); after the call none of those
    paths exists (on a well-formed disk, nothing is left at or below
    them).  Nothing is created, and nothing but the disk changes. *)
Theorem remove_reports_and_clears {T} {C : Collaborators T} (self : AppBundle)
    (names : list string) (st : state T) (b : bool) :
  (remove self names st).1 = Ok b ->
  (b = false <->
   Forall (fun n => path_exists (disk st) (resolve (path self) n) = false) names)
  /\ Forall (fun n => path_exists (disk (remove self names st).2)
                                  (resolve (path self) n) = false) names
  /\ shrinks (disk st) (disk (remove self names st).2)
  /\ tool (remove self names st).2 = tool st
  /\ stdout (remove self names st).2 = stdout st
  /\ trace (remove self names st).2 = trace st
  /\ (wf_disk (disk st) = true ->
      wf_disk (disk (remove self names st).2) = true
      /\ Forall (fun n => resolve (path self) n <> "" ->
                          forall k, under (canon (disk st) (resolve (path self) n)) k = true ->
                                    entries (disk (remove self names st).2) !! k = None)
                names).
Proof.
  destruct (remove_loop_spec (path self) names false st)
    as (d' & Hrun & Hsh & Hgone & _ & Hwf).
  unfold remove. rewrite Hrun. cbn [fst snd disk tool stdout trace orb].
  intros [= <-].
  split; [apply existsb_false_Forall|].
  split; [exact Hgone|]. split; [exact Hsh|].
  split; [reflexivity|]. split; [reflexivity|]. split; [reflexivity|].
  intros Hwf0. specialize (Hwf Hwf0). split; [exact Hwf|].
  eapply Forall_impl; [exact Hgone|]. cbn beta. intros n Hn Hne k Hk.
  unfold path_exists, stat in Hn. rewrite (canon_cwd _ _ _ (proj1 Hsh)) in Hn.
  destruct (String.eqb_spec (resolve (path self) n) "") as [E|_]; [contradiction|].
  destruct (entries d' !! canon (disk st) (resolve (path self) n)) eqn:E; [discriminate|].
  exact (wf_disk_absent d' _ k Hwf E Hk).
Qed.

(** C8, as the code has it: [remove] uses a name as it is when the package
    root occurs in it as a substring (so in particular when the name starts
    with the package root, as the paths globbed below the root do), and
    takes it below the package root, as [<root>/<name>], otherwise; that
    path is the one it tests and deletes. *)
Theorem remove_resolves_by_root_occurrence {T} {C : Collaborators T} (self : AppBundle)
    (name : string) (st : state T) :
  let target := if contains (path self) name then name
                else path self +:+ "/" +:+ name in
  (remove self [name] st).1 = Ok (path_exists (disk st) target)
  /\ path_exists (disk (remove self [name] st).2) target = false
  /\ (forall k, under (canon (disk st) target) k = false ->
                entries (disk (remove self [name] st).2) !! k = entries (disk st) !! k)
  /\ forall rest, resolve (path self) (path self +:+ rest) = path self +:+ rest.
Proof.
  cbn zeta. fold (resolve (path self) name).
  destruct (remove_loop_spec (path self) [name] false st) as (d' & Hrun & _ & Hgone & Hkeep).
  unfold remove. rewrite Hrun. cbn [fst snd disk existsb orb].
  rewrite orb_false_r. split; [reflexivity|].
  split; [inversion Hgone; assumption|]. split.
  - intros k Hk. apply Hkeep. cbn [forallb]. rewrite Hk. reflexivity.
  - intros rest. apply resolve_under_root.
Qed.

(* ===================================================================== *)
(** ** Globbed extension packages *)
(* ===================================================================== *)

Lemma string_app_assoc (a b c : string) : (a +:+ b) +:+ c = a +:+ (b +:+ c).
Proof.
  induction a as [|x a IH]; [reflexivity|].
  change (String x ((a +:+ b) +:+ c) = String x (a +:+ (b +:+ c))). f_equal. exact IH.
Qed.

Lemma valid_name_slash (n : string) : valid_name n = true -> contains "/" n = false.
Proof.
  unfold valid_name. intros H. apply andb_prop in H as [_ H].
  apply negb_true_iff. exact H.
Qed.

Lemma canon_step_name (stack : list string) (n : string) :
  valid_name n = true -> canon_step stack n = stack ++ [n].
Proof.
  unfold valid_name, canon_step. intros H.
  apply andb_prop in H as [H _]. apply andb_prop in H as [H H3].
  apply andb_prop in H as [H1 H2].
  apply negb_true_iff in H1, H2, H3. rewrite H1, H2, H3. reflexivity.
Qed.

Lemma isabs_slash (root x : string) : isabs (root +:+ String "/" x) = isabs (root +:+ "/").
Proof. destruct root; reflexivity. Qed.

Lemma canon_root_slash (fs : FS) (root : string) :
  canon fs (root +:+ "/")
  = fold_left canon_step (segments root) (if isabs (root +:+ "/") then [] else cwd fs).
Proof.
  unfold canon. rewrite (segments_slash root ""), fold_left_app. reflexivity.
Qed.

(** A path globbed one wildcard level below [root] is canonically the root
    followed by the two names. *)
Lemma canon_below (fs : FS) (root d n : string) :
  valid_name d = true -> valid_name n = true ->
  canon fs ((root +:+ "/" +:+ d) +:+ "/" +:+ n) = canon fs (root +:+ "/") ++ [d; n].
Proof.
  intros Hd Hn. rewrite canon_root_slash. unfold canon.
  change ("/" +:+ n) with (String "/" n). change ("/" +:+ d) with (String "/" d).
  rewrite (segments_slash (root +:+ String "/" d) n), (segments_slash root d).
  rewrite (segments_file_name d (valid_name_slash d Hd)).
  rewrite (segments_file_name n (valid_name_slash n Hn)).
  rewrite string_app_assoc.
  change (String "/" d +:+ String "/" n) with (String "/" (d +:+ String "/" n)).
  rewrite isabs_slash.
  rewrite !fold_left_app. cbn [fold_left].
  rewrite (canon_step_name _ d Hd), (canon_step_name _ n Hn), <- app_assoc.
  reflexivity.
Qed.

(** *** Plain roots: no wildcard character, no trailing slash *)

Lemma contains_char_app (c : ascii) (a b : string) :
  contains (String c "") (a +:+ b)
  = contains (String c "") a || contains (String c "") b.
Proof.
  induction a as [|x a IH].
  - destruct b; reflexivity.
  - change (String x a +:+ b) with (String x (a +:+ b)).
    cbn [contains startswith]. rewrite IH.
    destruct (Ascii.eqb c x); [reflexivity|].
    cbn [orb]. reflexivity.
Qed.

Lemma has_magic_app (a b : string) :
  has_magic (a +:+ b) = has_magic a || has_magic b.
Proof.
  unfold has_magic. rewrite !contains_char_app.
  destruct (contains "*" a), (contains "?" a), (contains "[" a),
    (contains "*" b), (contains "?" b), (contains "[" b); reflexivity.
Qed.

Lemma app_empty (a b : string) : a +:+ b = "" -> a = "" /\ b = "".
Proof. destruct a; [intros H; split; [reflexivity|exact H]|discriminate]. Qed.

Lemma string_app_nil_r (a : string) : a +:+ "" = a.
Proof.
  induction a as [|x a IH]; [reflexivity|].
  change (String x (a +:+ "") = String x a). rewrite IH. reflexivity.
Qed.

(** A string that ends in a non-empty [s] ends in a slash when [s]
    does. *)
Lemma endswith_slash_app (x s : string) :
  s <> "" -> endswith (x +:+ s) "/" = endswith s "/".
Proof.
  intros Hs. induction x as [|c x IH]; [reflexivity|].
  change (String c x +:+ s) with (String c (x +:+ s)).
  cbn [endswith]. rewrite IH.
  destruct (String.eqb_spec (String c (x +:+ s)) "/") as [E|_]; [|reflexivity].
  injection E as _ E. apply app_empty in E as [_ E]. contradiction.
Qed.

Lemma all_slashes_endswith (s : string) :
  all_slashes s = true -> s <> "" -> endswith s "/" = true.
Proof.
  induction s as [|c s IH]; [contradiction|]. cbn [all_slashes endswith].
  intros H _. apply andb_prop in H as [Hc Hs]. apply Ascii.eqb_eq in Hc. subst c.
  destruct s as [|c' s]; [reflexivity|].
  rewrite (IH Hs) by discriminate. apply orb_true_r.
Qed.

Lemma all_slashes_app (a b : string) :
  all_slashes (a +:+ b) = all_slashes a && all_slashes b.
Proof.
  induction a as [|x a IH]; [reflexivity|].
  change (String x a +:+ b) with (String x (a +:+ b)). cbn [all_slashes].
  rewrite IH, andb_assoc. reflexivity.
Qed.

Lemma rstrip_slashes_slash (s : string) :
  endswith s "/" = false -> rstrip_slashes (s +:+ "/") = s.
Proof.
  induction s as [|c s IH]; [reflexivity|]. intros H.
  change (String c s +:+ "/") with (String c (s +:+ "/")).
  cbn [rstrip_slashes].
  assert (all_slashes (String c (s +:+ "/")) = false) as Hall.
  { destruct (all_slashes (String c (s +:+ "/"))) eqn:E; [|reflexivity].
    change (String c (s +:+ "/")) with (String c s +:+ "/") in E.
    rewrite all_slashes_app in E. apply andb_prop in E as [E _].
    rewrite (all_slashes_endswith _ E) in H by discriminate. discriminate. }
  rewrite Hall. f_equal. apply IH.
  cbn [endswith] in H. apply orb_false_iff in H as [_ H]. exact H.
Qed.

(** The directory part of a plain directory is the directory itself
    (the root directory for the empty string). *)
Lemma glob_dir_plain (dir : string) :
  endswith dir "/" = false ->
  glob_dir dir = if String.eqb dir "" then "/" else dir.
Proof.
  intros H. unfold glob_dir. destruct dir as [|c dir]; [reflexivity|].
  cbn [String.eqb].
  assert (all_slashes (String c dir +:+ "/") = false) as Hall.
  { rewrite all_slashes_app.
    destruct (all_slashes (String c dir)) eqn:E; [|reflexivity].
    rewrite (all_slashes_endswith _ E) in H by discriminate. discriminate. }
  rewrite Hall. apply rstrip_slashes_slash. exact H.
Qed.

Lemma has_magic_glob_dir (dir : string) :
  endswith dir "/" = false -> has_magic (glob_dir dir) = has_magic dir.
Proof.
  intros H. rewrite (glob_dir_plain dir H). destruct dir; reflexivity.
Qed.

Lemma valid_name_start (n : string) : valid_name n = true -> startswith n "/" = false.
Proof.
  intros H. pose proof (valid_name_slash n H) as Hs.
  destruct n as [|c n]; [reflexivity|]. cbn [contains startswith] in Hs.
  apply orb_false_iff in Hs as [Hs _]. cbn [startswith]. exact Hs.
Qed.

Lemma valid_name_nonempty (n : string) : valid_name n = true -> n <> "".
Proof. intros H ->. discriminate H. Qed.

Lemma valid_name_end (n : string) : valid_name n = true -> endswith n "/" = false.
Proof.
  intros H. pose proof (valid_name_slash n H) as Hs. clear H.
  induction n as [|c n IH]; [reflexivity|].
  cbn [contains startswith] in Hs. apply orb_false_iff in Hs as [Hc Hs].
  cbn [endswith]. rewrite (IH Hs), orb_false_r.
  destruct (String.eqb_spec (String c n) "/") as [E|_]; [|reflexivity].
  injection E as -> _. discriminate Hc.
Qed.

(** Joining a name to the directory part of a plain directory. *)
Lemma join_glob_dir (dir n : string) :
  endswith dir "/" = false -> startswith n "/" = false ->
  os_path_join (glob_dir dir) n = dir +:+ "/" +:+ n.
Proof.
  intros Hd Hn. rewrite (glob_dir_plain dir Hd). unfold os_path_join. rewrite Hn.
  destruct dir as [|c dir]; [reflexivity|]. cbn [String.eqb orb]. rewrite Hd.
  reflexivity.
Qed.

Lemma join_plain (dir n : string) :
  String.eqb dir "" = false -> endswith dir "/" = false -> startswith n "/" = false ->
  os_path_join dir n = dir +:+ "/" +:+ n.
Proof.
  intros Hne Hd Hn. unfold os_path_join. rewrite Hn, Hne, Hd. reflexivity.
Qed.

Lemma canon_glob_dir (fs : FS) (dir : string) :
  endswith dir "/" = false -> canon fs (glob_dir dir) = canon fs (dir +:+ "/").
Proof.
  intros H. rewrite (glob_dir_plain dir H). destruct dir as [|c dir]; [reflexivity|].
  cbn [String.eqb]. rewrite canon_root_slash. reflexivity.
Qed.

Lemma canon_slash (fs : FS) (dir : string) :
  String.eqb dir "" = false -> canon fs (dir +:+ "/") = canon fs dir.
Proof.
  intros H. rewrite canon_root_slash. destruct dir; [discriminate|reflexivity].
Qed.

Section PlainRoots.
Context {T : Type} {C : Collaborators T}.

Lemma glob1_valid (fs : FS) (dirname suf n : string) :
  In n (glob1 fs dirname suf) -> valid_name n = true.
Proof.
  unfold glob1. intros H. apply list_elem_of_In, list_elem_of_filter in H as [H _].
  apply andb_prop in H as [H _]. unfold visible in H. apply andb_prop in H as [H _].
  exact H.
Qed.

Lemma glob_in_plain (fs : FS) (dir suf : string) :
  has_magic dir = false -> String.eqb dir "" = false -> endswith dir "/" = false ->
  glob_in fs dir suf = plain_in fs dir suf.
Proof.
  intros Hm Hne Hd. unfold glob_in, plain_in. cbn zeta.
  rewrite (has_magic_glob_dir dir Hd), Hm, (glob_dir_plain dir Hd), Hne.
  apply map_ext_in. intros n Hn.
  apply join_plain; [exact Hne|exact Hd|].
  apply valid_name_start. exact (glob1_valid fs dir suf n Hn).
Qed.

Lemma below_plain (root d : string) :
  valid_name d = true ->
  String.eqb (root +:+ "/" +:+ d) "" = false
  /\ endswith (root +:+ "/" +:+ d) "/" = false.
Proof.
  intros Hd. split; [destruct root; reflexivity|].
  rewrite endswith_slash_app by discriminate.
  change ("/" +:+ d) with (String "/" d). cbn [endswith].
  rewrite (valid_name_end d Hd), orb_false_r.
  destruct (String.eqb_spec (String "/" d) "/") as [E|_]; [|reflexivity].
  injection E as ->. discriminate Hd.
Qed.

Lemma glob_one_level_plain (fs : FS) (root suf : string) :
  has_magic root = false -> endswith root "/" = false ->
  glob_one_level fs root suf = plain_one_level fs root suf.
Proof.
  intros Hm Hd. unfold glob_one_level, plain_one_level. cbn zeta.
  rewrite (has_magic_glob_dir root Hd), Hm, (canon_glob_dir fs root Hd).
  f_equal. apply map_ext_in. intros d Hin.
  apply list_elem_of_In, list_elem_of_filter in Hin as [Hv _].
  assert (valid_name d = true) as Hvalid
      by (unfold visible in Hv; apply andb_prop in Hv as [H _]; exact H).
  rewrite (join_glob_dir root d Hd (valid_name_start d Hvalid)).
  destruct (below_plain root d Hvalid) as [Hne Hend].
  unfold plain_in. apply map_ext_in. intros n Hn.
  apply join_plain; [exact Hne|exact Hend|].
  apply valid_name_start. exact (glob1_valid fs _ suf n Hn).
Qed.

Lemma omap_pointwise {A B} (f g : A -> option B) (l : list A) :
  (forall a, f a = g a) -> omap f l = omap g l.
Proof.
  intros H. induction l as [|a l IH]; [reflexivity|].
  cbn [omap list_omap]. rewrite H, IH. reflexivity.
Qed.

Lemma glob_recursive_plain (fs : FS) (root suf : string) :
  has_magic root = false -> endswith root "/" = false ->
  glob_recursive fs root suf = plain_recursive fs root suf.
Proof.
  intros Hm Hd. unfold glob_recursive, plain_recursive. cbn zeta.
  rewrite (has_magic_glob_dir root Hd), Hm, (canon_glob_dir fs root Hd).
  destruct (is_dir fs (canon fs (root +:+ "/"))); [|reflexivity].
  apply omap_pointwise. intros kv.
  rewrite (join_glob_dir root "" Hd eq_refl).
  destruct (strip (canon fs (root +:+ "/")) kv.1) as [rel|]; [|reflexivity].
  destruct (last rel) as [n|]; [|reflexivity].
  destruct (forallb visible rel && endswith n suf); [|reflexivity].
  rewrite string_app_assoc. reflexivity.
Qed.

Lemma extensions_dir_plain (root sub : string) :
  has_magic root = false -> valid_name sub = true -> has_magic sub = false ->
  has_magic (root +:+ "/" +:+ sub) = false
  /\ String.eqb (root +:+ "/" +:+ sub) "" = false
  /\ endswith (root +:+ "/" +:+ sub) "/" = false.
Proof.
  intros Hm Hv Hs. split; [|exact (below_plain root sub Hv)].
  rewrite !has_magic_app, Hm, Hs. reflexivity.
Qed.

(** The extensions of a package whose root holds no wildcard
    character. *)
Lemma get_all_appex_plain (self : AppBundle) (d : FS) :
  has_magic (path self) = false ->
  get_all_appex self d
  = plain_in d (path self +:+ "/Extensions") ".appex"
    ++ plain_in d (path self +:+ "/PlugIns") ".appex".
Proof.
  intros Hm. unfold get_all_appex.
  destruct (extensions_dir_plain (path self) "Extensions" Hm eq_refl eq_refl)
    as (H1 & H2 & H3).
  destruct (extensions_dir_plain (path self) "PlugIns" Hm eq_refl eq_refl)
    as (H4 & H5 & H6).
  change (path self +:+ "/" +:+ "Extensions") with (path self +:+ "/Extensions") in *.
  change (path self +:+ "/" +:+ "PlugIns") with (path self +:+ "/PlugIns") in *.
  rewrite (glob_in_plain d _ ".appex" H1 H2 H3), (glob_in_plain d _ ".appex" H4 H5 H6).
  reflexivity.
Qed.

(** The artifacts of a package whose root is plain. *)
Lemma get_executables_plain (self : AppBundle) (d : FS) :
  has_magic (path self) = false -> endswith (path self) "/" = false ->
  get_executables self d
  = plain_recursive d (path self) ".dylib"
    ++ plain_recursive d (path self) ".appex"
    ++ plain_recursive d (path self) ".framework".
Proof.
  intros Hm Hd. unfold get_executables.
  rewrite !(glob_recursive_plain d (path self) _ Hm Hd). reflexivity.
Qed.

End PlainRoots.

Lemma plain_one_level_members (fs : FS) (root suf p : string) :
  In p (plain_one_level fs root suf) ->
  exists d n, p = (root +:+ "/" +:+ d) +:+ "/" +:+ n
              /\ valid_name d = true /\ valid_name n = true /\ endswith n suf = true.
Proof.
  unfold plain_one_level, plain_in. intros H.
  apply in_concat in H as (l & Hl & Hp).
  apply in_map_iff in Hl as (d & <- & Hd).
  apply in_map_iff in Hp as (n & <- & Hn).
  apply list_elem_of_In, list_elem_of_filter in Hd as [Hd _].
  apply list_elem_of_In, list_elem_of_filter in Hn as [Hn _].
  apply andb_prop in Hn as [Hv Hs].
  unfold visible in *. apply andb_prop in Hd as [Hd _]. apply andb_prop in Hv as [Hv _].
  exists d, n. repeat split; assumption.
Qed.

Lemma siblings_disjoint (base a b k : list string) :
  List.length a = List.length b ->
  under (base ++ a) k = true -> under (base ++ b) k = true -> a = b.
Proof.
  intros Hlen Ha Hb. apply under_app in Ha as [r1 H1]. apply under_app in Hb as [r2 H2].
  rewrite H1, <- !app_assoc in H2. apply app_inv_head in H2. clear H1.
  revert b Hlen H2. induction a as [|x a IH]; intros [|y b] Hlen H2;
    try discriminate; [reflexivity|].
  simpl in *. injection Hlen as Hlen. injection H2 as -> H2.
  rewrite (IH b Hlen H2). reflexivity.
Qed.

(** Two different globbed extension packages share no path. *)
Lemma plain_disjoint (fs : FS) (root suf p q : string) (k : list string) :
  In p (plain_one_level fs root suf) -> In q (plain_one_level fs root suf) ->
  under (canon fs p) k = true -> under (canon fs q) k = true -> p = q.
Proof.
  intros Hp Hq Hpk Hqk.
  apply plain_one_level_members in Hp as (d1 & n1 & -> & Hd1 & Hn1 & _).
  apply plain_one_level_members in Hq as (d2 & n2 & -> & Hd2 & Hn2 & _).
  rewrite canon_below in Hpk, Hqk by assumption.
  pose proof (siblings_disjoint _ [d1; n1] [d2; n2] _ eq_refl Hpk Hqk) as Heq.
  injection Heq as -> ->. reflexivity.
Qed.

Lemma plain_below_root (fs : FS) (root suf p : string) :
  In p (plain_one_level fs root suf) -> resolve root p = p.
Proof.
  intros Hp. apply plain_one_level_members in Hp as (d & n & -> & _).
  rewrite !string_app_assoc. apply resolve_under_root.
Qed.

(* ===================================================================== *)
(** ** The encrypted-extension filter *)
(* ===================================================================== *)

Lemma clear_of_encrypted_cwd (d d' : FS) (vs : list verdict) (k : list string) :
  cwd d' = cwd d -> clear_of_encrypted d' vs k = clear_of_encrypted d vs k.
Proof.
  intros H. unfold clear_of_encrypted. induction vs as [|v vs IH]; [reflexivity|].
  cbn [forallb]. rewrite IH, (canon_cwd d d' _ H). reflexivity.
Qed.

Section EncryptedFilter.
Context {T : Type} {C : Collaborators T}.

(** The loop of the filter over plugin paths that [remove] uses as they
    are.  It examines a prefix of the list (all of it when it returns):
    each examined extension has a recorded answer of the encryption
    query; those that answered [True] are gone, every path outside them
    is as it was. *)
Lemma encrypted_loop_spec (self : AppBundle) (plugins : list string) :
  (forall p, In p plugins -> resolve (path self) p = p) ->
  forall (removed : list string) (st : state T),
  exists vs rest d' evs r,
    encrypted_loop self plugins removed st
    = (r, mkState d' (tool st) (stdout st) (trace st ++ evs))
    /\ plugins = map v_plugin vs ++ rest
    /\ match r with
       | Ok out => rest = [] /\ out = removed ++ removed_names vs
       | Raise _ => rest <> []
       end
    /\ Forall (fun v => In (EvIsEncrypted (v_plugin v +:+ "/" +:+ v_name v)
                                          (Ok (v_encrypted v))) evs) vs
    /\ shrinks (disk st) d'
    /\ Forall (fun v => v_encrypted v = true -> path_exists d' (v_plugin v) = false) vs
    /\ (forall k, clear_of_encrypted (disk st) vs k = true ->
                  entries d' !! k = entries (disk st) !! k)
    /\ Forall (declared_in (disk st) (tool st)) vs
    /\ (wf_disk (disk st) = true -> wf_disk d' = true).
Proof.
  induction plugins as [|plugin rest IH]; intros Hres removed st.
  - exists [], [], (disk st), [], (Ok removed). destruct st as [d t o tr].
    cbn. rewrite !app_nil_r.
    split; [reflexivity|]. split; [reflexivity|]. split; [split; reflexivity|].
    split; [constructor|]. split; [apply shrinks_refl|]. split; [constructor|].
    split; [reflexivity|]. split; [constructor|]. intros H; exact H.
  - assert (forall p, In p rest -> resolve (path self) p = p) as Hres'
        by (intros p Hp; apply Hres; right; exact Hp).
    cbn [encrypted_loop]. rewrite bind_eq.
    destruct (AppBundle_init_cases plugin st)
      as [(e & evs0 & H & _ & _)|(doc & name & Hl & Hn & H)]; rewrite H; clear H.
    { eexists [], (plugin :: rest), (disk st), _, (Raise e).
      split; [reflexivity|]. split; [reflexivity|]. split; [discriminate|].
      split; [constructor|]. split; [apply shrinks_refl|].
      split; [constructor|]. split; [reflexivity|]. split; [constructor|].
      intros H; exact H. }
    rewrite bind_eq. unfold is_encrypted. rewrite query_eq.
    cbn [executable exe_path bn]. rewrite log_log. cbn [app].
    destruct (Executable_is_encrypted _ _ _) as [[|]|e].
    + rewrite bind_eq. unfold remove. cbn [path].
      match goal with
      | |- context [remove_loop (path self) [plugin] false ?s] =>
          destruct (remove_loop_spec (path self) [plugin] false s)
            as (d1 & Hrm & Hsh1 & Hgone & Hkeep & Hwf1); rewrite Hrm; clear Hrm
      end.
      cbn [log disk tool stdout trace] in *.
      pose proof (Hres plugin (or_introl eq_refl)) as Hp.
      apply List.Forall_inv in Hgone. cbn beta in Hgone. rewrite Hp in Hgone.
      assert (forall k, under (canon (disk st) plugin) k = false ->
                        entries d1 !! k = entries (disk st) !! k) as Hkeep1
          by (intros k Hk; apply Hkeep; cbn [forallb]; rewrite Hp, Hk; reflexivity).
      clear Hkeep.
      match goal with
      | |- context [encrypted_loop self rest ?rm ?s] =>
          destruct (IH Hres' rm s)
            as (vs & rest' & d' & evs & r & Hrun & Hpl & Hr & Hev & Hsh & Hgone' & Hkeep'
                              & Hdecl & Hwf);
          rewrite Hrun; clear Hrun
      end.
      cbn [disk tool stdout trace] in *.
      exists (mkVerdict plugin name true :: vs), rest', d',
        ([EvPlist (plugin +:+ "/Info.plist") (Ok tt);
          EvExecutable (plugin +:+ "/" +:+ name) (Ok tt);
          EvIsEncrypted (plugin +:+ "/" +:+ name) (Ok true)] ++ evs), r.
      split; [rewrite <- app_assoc; reflexivity|].
      split; [rewrite Hpl; reflexivity|]. split.
      { destruct r as [out|e]; [|exact Hr]. destruct Hr as [-> ->].
        split; [reflexivity|]. unfold removed_names. cbn. rewrite <- app_assoc.
        reflexivity. }
      split.
      { constructor; [right; right; left; reflexivity|].
        eapply Forall_impl; [exact Hev|]. intros v Hv. right. right. right. exact Hv. }
      split; [eapply shrinks_trans; eassumption|]. split.
      { constructor.
        - intros _. cbn [v_plugin]. eapply path_exists_shrinks; eassumption.
        - exact Hgone'. }
      split.
      { intros k Hk. unfold clear_of_encrypted in Hk. cbn [forallb] in Hk.
        apply andb_prop in Hk as [Hk1 Hk2]. cbn in Hk1.
        rewrite Hkeep'.
        - apply Hkeep1. apply negb_true_iff. exact Hk1.
        - rewrite (clear_of_encrypted_cwd (disk st) d1 vs k (proj1 Hsh1)). exact Hk2. }
      split; [|intros H; apply Hwf, Hwf1, H].
      constructor.
      { exists (disk st), doc. split; [apply shrinks_refl|]. split; [exact Hl|exact Hn]. }
      eapply Forall_impl; [exact Hdecl|].
      intros v (d & doc' & Hs & Hload & Hname). exists d, doc'.
      split; [eapply shrinks_trans; eassumption|]. split; assumption.
    + match goal with
      | |- context [encrypted_loop self rest ?rm ?s] =>
          destruct (IH Hres' rm s)
            as (vs & rest' & d' & evs & r & Hrun & Hpl & Hr & Hev & Hsh & Hgone' & Hkeep'
                              & Hdecl & Hwf);
          rewrite Hrun; clear Hrun
      end.
      cbn [log disk tool stdout trace] in *.
      exists (mkVerdict plugin name false :: vs), rest', d',
        ([EvPlist (plugin +:+ "/Info.plist") (Ok tt);
          EvExecutable (plugin +:+ "/" +:+ name) (Ok tt);
          EvIsEncrypted (plugin +:+ "/" +:+ name) (Ok false)] ++ evs), r.
      split; [rewrite <- app_assoc; reflexivity|].
      split; [rewrite Hpl; reflexivity|]. split; [exact Hr|]. split.
      { constructor; [right; right; left; reflexivity|].
        eapply Forall_impl; [exact Hev|]. intros v Hv. right. right. right. exact Hv. }
      split; [exact Hsh|]. split.
      { constructor; [discriminate|exact Hgone']. }
      split; [intros k Hk; apply Hkeep'; exact Hk|]. split; [|exact Hwf].
      constructor; [|exact Hdecl].
      exists (disk st), doc. split; [apply shrinks_refl|]. split; [exact Hl|exact Hn].
    + eexists [], (plugin :: rest), (disk st), _, (Raise e).
      split; [reflexivity|]. split; [reflexivity|]. split; [discriminate|].
      split; [constructor|]. split; [apply shrinks_refl|].
      split; [constructor|]. split; [reflexivity|]. split; [constructor|].
      intros H; exact H.
  Qed.

End EncryptedFilter.

(** The encrypted-extension filter on a package root that holds no
    wildcard character and does not end in a slash.  It examines the
    extension packages one wildcard level below the package root, in glob
    order (all of them when it completes).  Each examined extension has
    the recorded answer of its executable's encryption query and the
    executable name its document declares.  Exactly those that answered
    [True] are removed: their paths no longer exist (on a well-formed
    disk, nothing is left at or below them), and every path that lies in
    none of them is as it was; in particular an extension that did not
    answer [True] keeps all its files.  On completion one line is printed:
    the declared executable names of the removed extensions, in order, or
    the "no encrypted plugins" line when the removed list is empty.  A run
    that raises (a bundle construction or an encryption query raised, both
    unguarded) has examined a proper prefix only and prints nothing. *)
Theorem encrypted_filter_removes_exactly {T} {C : Collaborators T} (self : AppBundle)
    (st : state T) :
  has_magic (path self) = false ->
  endswith (path self) "/" = false ->
  let plugins := glob_one_level (disk st) (path self) ".appex" in
  let run := remove_encrypted_extensions self st in
  exists vs rest evs,
    plugins = map v_plugin vs ++ rest
    /\ trace run.2 = trace st ++ evs
    /\ tool run.2 = tool st
    /\ Forall (fun v => In (EvIsEncrypted (v_plugin v +:+ "/" +:+ v_name v)
                                          (Ok (v_encrypted v))) evs) vs
    /\ Forall (declared_in (disk st) (tool st)) vs
    /\ Forall (fun v => v_encrypted v = true ->
                        path_exists (disk run.2) (v_plugin v) = false) vs
    /\ (wf_disk (disk st) = true ->
        Forall (fun v => v_encrypted v = true ->
                         forall k, under (canon (disk st) (v_plugin v)) k = true ->
                                   entries (disk run.2) !! k = None) vs)
    /\ (forall k, clear_of_encrypted (disk st) vs k = true ->
                  entries (disk run.2) !! k = entries (disk st) !! k)
    /\ (forall p k,
           In p plugins -> ~ In p (map v_plugin (List.filter v_encrypted vs)) ->
           under (canon (disk st) p) k = true ->
           entries (disk run.2) !! k = entries (disk st) !! k)
    /\ match run.1 with
       | Ok _ =>
           rest = []
           /\ stdout run.2
              = stdout st
                  ++ [match removed_names vs with
                      | [] => "[?] no encrypted plugins"
                      | _ :: _ =>
                          "[*] removed encrypted plugins: " +:+ join ", " (removed_names vs)
                      end]
       | Raise _ => rest <> [] /\ stdout run.2 = stdout st
       end.
Proof.
  intros Hplain Hslash.
  cbn zeta. unfold remove_encrypted_extensions. rewrite bind_eq.
  unfold with_disk. cbn [mret M_ret]. rewrite bind_eq.
  rewrite (glob_one_level_plain (disk st) (path self) ".appex" Hplain Hslash).
  destruct (encrypted_loop_spec self (plain_one_level (disk st) (path self) ".appex")
              (fun p Hp => plain_below_root _ _ _ _ Hp) [] st)
    as (vs & rest & d' & evs & r & Hrun & Hpl & Hr & Hev & Hsh & Hgone & Hkeep & Hdecl
        & Hwf).
  rewrite Hrun. exists vs, rest, evs.
  assert (forall p k,
             In p (plain_one_level (disk st) (path self) ".appex") ->
             ~ In p (map v_plugin (List.filter v_encrypted vs)) ->
             under (canon (disk st) p) k = true ->
             clear_of_encrypted (disk st) vs k = true) as Hclear.
  { intros p k Hp Hnot Hk. unfold clear_of_encrypted. apply forallb_forall.
    intros v Hv. apply negb_true_iff. destruct (v_encrypted v) eqn:Henc; [|reflexivity].
    cbn [andb]. destruct (under (canon (disk st) (v_plugin v)) k) eqn:Hu; [|reflexivity].
    exfalso. apply Hnot.
    assert (In (v_plugin v) (plain_one_level (disk st) (path self) ".appex")) as Hq
        by (rewrite Hpl; apply in_or_app; left; apply in_map; exact Hv).
    rewrite (plain_disjoint _ _ _ _ _ _ Hp Hq Hk Hu).
    apply in_map. apply filter_In. split; assumption. }
  split; [exact Hpl|].
  assert (forall p k,
             In p (plain_one_level (disk st) (path self) ".appex") ->
             ~ In p (map v_plugin (List.filter v_encrypted vs)) ->
             under (canon (disk st) p) k = true ->
             entries d' !! k = entries (disk st) !! k) as Hkept
      by (intros p k Hp Hnot Hk; apply Hkeep; eapply Hclear; eassumption).
  assert (wf_disk (disk st) = true ->
          Forall (fun v => v_encrypted v = true ->
                           forall k, under (canon (disk st) (v_plugin v)) k = true ->
                                     entries d' !! k = None) vs) as Hwhole.
  { intros Hwf0. specialize (Hwf Hwf0). apply List.Forall_forall. intros v Hv Henc k Hk.
    rewrite List.Forall_forall in Hgone. specialize (Hgone v Hv Henc).
    assert (In (v_plugin v) (plain_one_level (disk st) (path self) ".appex")) as Hq
        by (rewrite Hpl; apply in_or_app; left; apply in_map; exact Hv).
    apply plain_one_level_members in Hq as (d & n & Hq & _).
    unfold path_exists, stat in Hgone. rewrite (canon_cwd _ _ _ (proj1 Hsh)) in Hgone.
    assert (String.eqb (v_plugin v) "" = false) as Hne.
    { rewrite Hq. change ("/" +:+ n) with (String "/" n).
      destruct (path self +:+ "/" +:+ d); reflexivity. }
    rewrite Hne in Hgone.
    destruct (entries d' !! canon (disk st) (v_plugin v)) eqn:E; [discriminate|].
    exact (wf_disk_absent d' _ k Hwf E Hk). }
  destruct r as [removed|e].
  - destruct Hr as [-> ->]. cbn [app].
    destruct (removed_names vs) as [|n names] eqn:Hnames;
      cbn [List.length Nat.eqb print fst snd disk tool stdout trace];
      (split; [reflexivity|]); (split; [reflexivity|]); (split; [exact Hev|]);
      (split; [exact Hdecl|]); (split; [exact Hgone|]); (split; [exact Hwhole|]); (split; [exact Hkeep|]); (split; [exact Hkept|]);
      split; reflexivity.
  - cbn [fst snd disk tool stdout trace].
    (split; [reflexivity|]); (split; [reflexivity|]); (split; [exact Hev|]);
      (split; [exact Hdecl|]); (split; [exact Hgone|]); (split; [exact Hwhole|]); (split; [exact Hkeep|]); (split; [exact Hkept|]).
    split; [exact Hr|reflexivity].
Qed.

(* ===================================================================== *)
(** ** The properties on concrete packages *)
(* ===================================================================== *)

Import Scripted.

(** The scenario of the specification: [A.appex] encrypted, [B.appex] not;
    the filter removes [A.appex], keeps [B.appex] and reports [A]. *)
Example encrypted_filter_scenario :
  let run := remove_encrypted_extensions app (start app_disk encrypted_script) in
  run.1 = Ok tt
  /\ stdout run.2 = ["[*] removed encrypted plugins: A"]
  /\ path_exists (disk run.2) "/App.app/PlugIns/A.appex" = false
  /\ path_exists (disk run.2) "/App.app/PlugIns/A.appex/A" = false
  /\ stat (disk run.2) "/App.app/PlugIns/B.appex/B" = Some (File "macho").
Proof. vm_compute. repeat split. Qed.

(** With no encrypted extension the filter changes nothing. *)
Example encrypted_filter_none :
  let run := remove_encrypted_extensions app (start app_disk app_script) in
  run.1 = Ok tt /\ stdout run.2 = ["[?] no encrypted plugins"]
  /\ disk run.2 = app_disk.
Proof. vm_compute. repeat split. Qed.

(** A dylib added after the first sweep is not seen by the second one. *)
Example cache_survives_new_files :
  let first := mass_operate app "fakesigned" fakesign (start app_disk app_script) in
  let second := mass_operate first.1 "thinned" thin (start grown_disk app_script) in
  In "/App.app/Frameworks/new.dylib" (get_executables app grown_disk)
  /\ cached_executables second.1 = Some (get_executables app app_disk)
  /\ stdout second.2.2 = [count_line "thinned" 5].
Proof. vm_compute. repeat split. repeat (try (left; reflexivity); right). Qed.

(** The package of the examples is a well-formed disk. *)
Example app_disk_well_formed : wf_disk app_disk = true.
Proof. vm_compute. reflexivity. Qed.

(** An extension with entitlements: they are saved, the signature is
    removed, the load command is appended and written, then the executable
    is signed with the side file.  Without entitlements no signing call is
    made. *)
Example injection_with_entitlements :
  let tweaks := [("t.dylib", "/src/t.dylib"); ("pkg.deb", "/src/pkg.deb")] in
  let exe := "/App.app/PlugIns/A.appex/A" in
  let ent := "/App.app/PlugIns/A.appex/cyan.entitlements" in
  let signed := _inject_into_extension app "/App.app/PlugIns/A.appex" tweaks true
                  (start app_disk entitled_script) in
  let unsigned := _inject_into_extension app "/App.app/PlugIns/A.appex" tweaks true
                    (start app_disk app_script) in
  trace signed.2
  = [EvPlist "/App.app/PlugIns/A.appex/Info.plist" (Ok tt);
     EvExecutable exe (Ok tt); EvIsEncrypted exe (Ok false);
     EvWriteEntitlements exe ent (Ok true); EvRemoveSignature exe (Ok tt);
     EvInjFunc exe "@executable_path/../../t.dylib" (Ok tt);
     EvInjPresent exe true; EvInjWrite exe exe (Ok tt);
     EvSignWithEntitlements exe ent (Ok true)]
  /\ path_exists (disk signed.2) ent = true
  /\ trace unsigned.2
     = [EvPlist "/App.app/PlugIns/A.appex/Info.plist" (Ok tt);
        EvExecutable exe (Ok tt); EvIsEncrypted exe (Ok false);
        EvWriteEntitlements exe ent (Ok false); EvRemoveSignature exe (Ok tt);
        EvInjFunc exe "@executable_path/../../t.dylib" (Ok tt);
        EvInjPresent exe true; EvInjWrite exe exe (Ok tt)].
Proof. vm_compute. repeat split. Qed.

(** Removing twice: the second call reports that nothing existed. *)
Example remove_twice :
  let first := remove app ["PlugIns"; "Watch"] (start app_disk app_script) in
  let second := remove app ["PlugIns"; "Watch"] first.2 in
  first.1 = Ok true /\ second.1 = Ok false /\ disk second.2 = disk first.2.
Proof. vm_compute. repeat split. Qed.

(** [no_dylib_no_mutation] on the extension [A] with a tweak set that holds
    a [.deb] only. *)
Lemma no_dylib_no_mutation_witness :
  let tweaks := [("pkg.deb", "/src/pkg.deb")] in
  let st := start app_disk app_script in
  let run := _inject_into_extension app "/App.app/PlugIns/A.appex" tweaks false st in
  (forall k v, In (k, v) tweaks -> endswith k ".dylib" = false)
  /\ (disk run.2 = disk st
      /\ tool run.2 = tool st
      /\ exists evs, trace run.2 = trace st ++ evs
                     /\ Forall (fun ev => is_lookup ev = true) evs).
Proof.
  cbn zeta.
  assert (forall k v, In (k, v) [("pkg.deb", "/src/pkg.deb")] -> endswith k ".dylib" = false)
    as H by (intros k v [[= <- <-]|[]]; reflexivity).
  split; [exact H|].
  exact (no_dylib_no_mutation app "/App.app/PlugIns/A.appex" _ false
           (start app_disk app_script) H).
Defined.

(** [extension_references] on the extension [A] with a dylib and a [.deb],
    under the run-path strategy. *)
Lemma extension_references_witness :
  let tweaks := [("t.dylib", "/src/t.dylib"); ("pkg.deb", "/src/pkg.deb")] in
  let st := start app_disk app_script in
  (forall k v, In (k, v) tweaks -> contains "/" k = false)
  /\ forall p cmd r,
      In (EvInjFunc p cmd r)
         (trace (_inject_into_extension app "/App.app/PlugIns/A.appex" tweaks false st).2) ->
      In (EvInjFunc p cmd r) (trace st)
      \/ exists k v,
          In (k, v) tweaks /\ endswith k ".dylib" = true
          /\ cmd = "@rpath/" +:+ k
          /\ contains "../../" cmd = false
          /\ segments cmd = ["@rpath"; k].
Proof.
  cbn zeta.
  assert (forall k v,
             In (k, v) [("t.dylib", "/src/t.dylib"); ("pkg.deb", "/src/pkg.deb")] ->
             contains "/" k = false)
    as H by (intros k v [[= <- <-]|[[= <- <-]|[]]]; reflexivity).
  split; [exact H|].
  exact (extension_references app "/App.app/PlugIns/A.appex" _ false
           (start app_disk app_script) H).
Defined.

(** The scripted executable reference accumulates the appended load
    commands. *)
Lemma scripted_accumulates : accumulates collaborators.
Proof.
  intros exe cmd [d t] w' H. cbn in H. unfold append_command in H.
  injection H as <-. cbn. rewrite existsb_app. cbn.
  rewrite String.eqb_refl. apply orb_true_r.
Qed.

(** [flush_before_signing] on the entitled extension [A]. *)
Lemma flush_before_signing_witness :
  let tweaks := [("t.dylib", "/src/t.dylib"); ("notes.txt", "/src/notes.txt")] in
  let st := start app_disk entitled_script in
  let appex := "/App.app/PlugIns/A.appex" in
  let b := mkAppBundle appex
             (mkPlist (appex +:+ "/Info.plist")
                (list_to_map [("CFBundleExecutable", "A")]))
             (mkExecutable (appex +:+ "/A") "A") None in
  let run := _inject_into_extension app appex tweaks false st in
  let p := exe_path (executable b) in
  let ent := appex +:+ "/cyan.entitlements" in
  let cmds := map (reference false)
                  (map fst (List.filter (fun kv => endswith kv.1 ".dylib") tweaks)) in
  let before_signing :=
    appended p cmds ++ [EvInjPresent p true; EvInjWrite p p (Ok tt)] in
  accumulates collaborators
  /\ (AppBundle_init appex st).1 = Ok b
  /\ Executable_is_encrypted (executable b) (disk st) (tool st) = Ok false
  /\ List.filter (fun kv => endswith kv.1 ".dylib") tweaks <> []
  /\ run.1 = Ok tt
  /\ exists evs,
      trace run.2
      = trace st ++ [EvPlist (appex +:+ "/Info.plist") (Ok tt); EvExecutable p (Ok tt);
                     EvIsEncrypted p (Ok false)] ++ evs
      /\ (forall q ent' r,
             In (EvSignWithEntitlements q ent' r) evs ->
             q = p /\ ent' = ent
             /\ evs = [EvWriteEntitlements p ent (Ok true); EvRemoveSignature p (Ok tt)]
                        ++ before_signing ++ [EvSignWithEntitlements p ent r])
      /\ match run.1 with
         | Ok _ =>
             exists has tail,
               evs = [EvWriteEntitlements p ent (Ok has); EvRemoveSignature p (Ok tt)]
                       ++ before_signing ++ tail
               /\ if has : bool
                  then exists signed, tail = [EvSignWithEntitlements p ent (Ok signed)]
                  else tail = []
         | Raise e =>
             exists good ev,
               evs = good ++ [ev] /\ Forall (fun ev => raised ev = None) good
               /\ raised ev = Some e
         end.
Proof.
  cbn zeta.
  assert ((AppBundle_init "/App.app/PlugIns/A.appex" (start app_disk entitled_script)).1
          = Ok (mkAppBundle "/App.app/PlugIns/A.appex"
                  (mkPlist ("/App.app/PlugIns/A.appex" +:+ "/Info.plist")
                     (list_to_map [("CFBundleExecutable", "A")]))
                  (mkExecutable ("/App.app/PlugIns/A.appex" +:+ "/A") "A") None))
    as H1 by (vm_compute; reflexivity).
  assert (Executable_is_encrypted
            (executable (mkAppBundle "/App.app/PlugIns/A.appex"
                           (mkPlist ("/App.app/PlugIns/A.appex" +:+ "/Info.plist")
                              (list_to_map [("CFBundleExecutable", "A")]))
                           (mkExecutable ("/App.app/PlugIns/A.appex" +:+ "/A") "A") None))
            (disk (start app_disk entitled_script))
            (tool (start app_disk entitled_script)) = Ok false)
    as H2 by (vm_compute; reflexivity).
  assert (List.filter (fun kv : string * string => endswith kv.1 ".dylib")
            [("t.dylib", "/src/t.dylib"); ("notes.txt", "/src/notes.txt")] <> [])
    as H3 by (vm_compute; discriminate).
  split; [exact scripted_accumulates|]. split; [exact H1|]. split; [exact H2|].
  split; [exact H3|]. split; [vm_compute; reflexivity|].
  exact (flush_before_signing app "/App.app/PlugIns/A.appex"
           [("t.dylib", "/src/t.dylib"); ("notes.txt", "/src/notes.txt")] false
           (start app_disk entitled_script) _ scripted_accumulates H1 H2 H3).
Defined.

(** [extension_sweep_isolation] on the package where the document of the
    first extension does not parse and the signing tool breaks on the
    second: the first is skipped, the second is processed, and the run
    raises with the exception of the signing call, its last call. *)
Lemma extension_sweep_isolation_witness :
  let tweaks := [("t.dylib", "/src/t.dylib")] in
  let st := start split_disk guarded_script in
  let after_main := (inject (executable app) tweaks "/tmp" false st).2 in
  let appex_list := get_all_appex app (disk after_main) in
  let run := inject_all_extensions app tweaks "/tmp" false true st in
  (inject (executable app) tweaks "/tmp" false st).1 = Ok tt
  /\ appex_list = ["/App.app/Extensions/B.appex"; "/App.app/PlugIns/A.appex"]
  /\ run.1 = Raise OSError
  /\ trace run.2
     = [EvInject "/App.app/App" (Ok tt);
        EvPlist "/App.app/Extensions/B.appex/Info.plist"
          (Raise (OtherException "invalid plist"));
        EvPlist "/App.app/PlugIns/A.appex/Info.plist" (Ok tt);
        EvExecutable "/App.app/PlugIns/A.appex/A" (Ok tt);
        EvIsEncrypted "/App.app/PlugIns/A.appex/A" (Ok false);
        EvWriteEntitlements "/App.app/PlugIns/A.appex/A"
          "/App.app/PlugIns/A.appex/cyan.entitlements" (Ok true);
        EvRemoveSignature "/App.app/PlugIns/A.appex/A" (Ok tt);
        EvInjFunc "/App.app/PlugIns/A.appex/A" "@rpath/t.dylib" (Ok tt);
        EvInjPresent "/App.app/PlugIns/A.appex/A" true;
        EvInjWrite "/App.app/PlugIns/A.appex/A" "/App.app/PlugIns/A.appex/A" (Ok tt);
        EvSignWithEntitlements "/App.app/PlugIns/A.appex/A"
          "/App.app/PlugIns/A.appex/cyan.entitlements" (Raise OSError)]
  /\ exists evs,
      trace run.2 = trace after_main ++ evs
      /\ (forall pre ev post e,
             evs = pre ++ ev :: post -> uncaught ev = Some e ->
             post = [] /\ run.1 = Raise e)
      /\ (run.1 = Ok tt -> forall p, In p appex_list -> attempted p evs)
      /\ forall e,
          run.1 = Raise e ->
          (exists pre ev, evs = pre ++ [ev] /\ uncaught ev = Some e)
          /\ exists done p rest,
              appex_list = done ++ p :: rest
              /\ (forall q, In q (done ++ [p]) -> attempted q evs)
              /\ run = for_each (done ++ [p])
                         (fun p => _inject_into_extension app p tweaks false) after_main.
Proof.
  cbn zeta. split; [reflexivity|]. split; [vm_compute; reflexivity|].
  split; [vm_compute; reflexivity|]. split; [vm_compute; reflexivity|].
  exact (extension_sweep_isolation app [("t.dylib", "/src/t.dylib")] "/tmp" false
           (start split_disk guarded_script) eq_refl).
Defined.

(** [mass_operate_count] on the package, every call succeeding. *)
Lemma mass_operate_count_witness :
  let st := start app_disk app_script in
  let run := mass_operate app "fakesigned" fakesign st in
  run.2.1 = Ok tt
  /\ exists main_ok outcomes evs,
      trace run.2.2 = trace st ++ evs
      /\ capability_calls evs
         = (fakesign, exe_path (executable app), Ok main_ok)
             :: map (fun o => (fakesign, o.1, Ok o.2)) outcomes
      /\ Forall2 (fun ts o => resolves_to ts o.1) (cache_of run.1) outcomes
      /\ stdout run.2.2
         = stdout st
             ++ [count_line "fakesigned" ((if main_ok then 1 else 0) + successes outcomes)].
Proof.
  cbn zeta.
  assert ((mass_operate app "fakesigned" fakesign (start app_disk app_script)).2.1 = Ok tt)
    as H by (vm_compute; reflexivity).
  split; [exact H|].
  exact (mass_operate_count app "fakesigned" fakesign (start app_disk app_script) H).
Defined.

(** [unreadable_metadata_aborts_sweep] on the package whose framework has
    a document that does not parse: the dylib and the two extensions are
    swept, then the read of the framework's document raises. *)
Lemma unreadable_metadata_aborts_sweep_witness :
  let st := start app_disk unreadable_script in
  let done := ["/App.app/Frameworks/t.dylib"; "/App.app/PlugIns/B.appex";
               "/App.app/PlugIns/A.appex"] in
  let ts := "/App.app/Frameworks/F.framework" in
  let e := OtherException "invalid plist" in
  let main := call_capability fakesign (executable app) st in
  let swept := mass_loop fakesign done 1 main.2 in
  cache_of (mass_operate app "fakesigned" fakesign st).1 = done ++ ts :: []
  /\ endswith ts ".dylib" = false
  /\ main.1 = Ok true
  /\ swept.1 = Ok 4
  /\ Plist_load (ts +:+ "/Info.plist") (disk swept.2) (tool swept.2) = Raise e
  /\ ((mass_operate app "fakesigned" fakesign st).2
      = (Raise e, log [EvPlist (ts +:+ "/Info.plist") (Raise e)] swept.2)
      /\ stdout swept.2 = stdout st).
Proof.
  cbn zeta.
  pose proof (unreadable_metadata_aborts_sweep app "fakesigned" fakesign
                (start app_disk unreadable_script)
                ["/App.app/Frameworks/t.dylib"; "/App.app/PlugIns/B.appex";
                 "/App.app/PlugIns/A.appex"]
                "/App.app/Frameworks/F.framework" [] true 4
                (OtherException "invalid plist")) as H.
  cbn zeta in H.
  assert (cache_of (mass_operate app "fakesigned" fakesign
                      (start app_disk unreadable_script)).1
          = ["/App.app/Frameworks/t.dylib"; "/App.app/PlugIns/B.appex";
             "/App.app/PlugIns/A.appex"] ++ ["/App.app/Frameworks/F.framework"])
    as H1 by (vm_compute; reflexivity).
  assert (endswith "/App.app/Frameworks/F.framework" ".dylib" = false)
    as H2 by (vm_compute; reflexivity).
  assert ((call_capability fakesign (executable app)
             (start app_disk unreadable_script)).1 = Ok true)
    as H3 by (vm_compute; reflexivity).
  assert ((mass_loop fakesign
             ["/App.app/Frameworks/t.dylib"; "/App.app/PlugIns/B.appex";
              "/App.app/PlugIns/A.appex"] 1
             (call_capability fakesign (executable app)
                (start app_disk unreadable_script)).2).1 = Ok 4)
    as H4 by (vm_compute; reflexivity).
  assert (Plist_load ("/App.app/Frameworks/F.framework" +:+ "/Info.plist")
            (disk (mass_loop fakesign
                     ["/App.app/Frameworks/t.dylib"; "/App.app/PlugIns/B.appex";
                      "/App.app/PlugIns/A.appex"] 1
                     (call_capability fakesign (executable app)
                        (start app_disk unreadable_script)).2).2)
            (tool (mass_loop fakesign
                     ["/App.app/Frameworks/t.dylib"; "/App.app/PlugIns/B.appex";
                      "/App.app/PlugIns/A.appex"] 1
                     (call_capability fakesign (executable app)
                        (start app_disk unreadable_script)).2).2)
          = Raise (OtherException "invalid plist"))
    as H5 by (vm_compute; reflexivity).
  split; [exact H1|]. split; [exact H2|]. split; [exact H3|]. split; [exact H4|].
  split; [exact H5|]. exact (H H1 H2 H3 H4 H5).
Defined.

(** C1 as worded does not hold: on a package with no nested artifact whose
    main executable the signing tool fails on, [mass_operate] completes and
    prints the count 0, where "one for the main executable plus the
    successful artifacts" is 1. *)
Lemma main_failure_is_not_counted :
  let run := mass_operate app "fakesigned" fakesign (start bare_disk failing_script) in
  cache_of run.1 = []
  /\ run.2.1 = Ok tt
  /\ trace run.2.2 = [EvCapability fakesign "/App.app/App" (Ok false)]
  /\ stdout run.2.2 = [count_line "fakesigned" 0]
  /\ count_line "fakesigned" 0 <> count_line "fakesigned" (spec_count [])
  /\ ~ count_is_one_plus_successes.
Proof.
  cbn zeta. split; [vm_compute; reflexivity|]. split; [vm_compute; reflexivity|].
  split; [vm_compute; reflexivity|]. split; [vm_compute; reflexivity|].
  split; [vm_compute; discriminate|].
  intros H.
  destruct (H script collaborators app "fakesigned" fakesign
              (start bare_disk failing_script) eq_refl)
    as (main_result & outcomes & evs & Htr & Hcalls & Hout).
  vm_compute in Htr. subst evs.
  destruct outcomes as [|o outcomes]; [|discriminate Hcalls].
  vm_compute in Hout. discriminate Hout.
Qed.

(** C3 as worded does not hold: when the signing tool breaks on the first
    extension, [Extensions/B.appex], the exception leaves
    [inject_all_extensions] and the second extension of the list,
    [PlugIns/A.appex], is never processed. *)
Lemma signing_failure_aborts_siblings :
  let tweaks := [("t.dylib", "/src/t.dylib")] in
  let st := start split_disk broken_script in
  let run := inject_all_extensions app tweaks "/tmp" false true st in
  get_all_appex app (disk st) = ["/App.app/Extensions/B.appex"; "/App.app/PlugIns/A.appex"]
  /\ (inject (executable app) tweaks "/tmp" false st).1 = Ok tt
  /\ run.1 = Raise OSError
  /\ trace run.2
     = [EvInject "/App.app/App" (Ok tt);
        EvPlist "/App.app/Extensions/B.appex/Info.plist" (Ok tt);
        EvExecutable "/App.app/Extensions/B.appex/B" (Ok tt);
        EvIsEncrypted "/App.app/Extensions/B.appex/B" (Ok false);
        EvWriteEntitlements "/App.app/Extensions/B.appex/B"
          "/App.app/Extensions/B.appex/cyan.entitlements" (Ok true);
        EvRemoveSignature "/App.app/Extensions/B.appex/B" (Ok tt);
        EvInjFunc "/App.app/Extensions/B.appex/B" "@rpath/t.dylib" (Ok tt);
        EvInjPresent "/App.app/Extensions/B.appex/B" true;
        EvInjWrite "/App.app/Extensions/B.appex/B" "/App.app/Extensions/B.appex/B" (Ok tt);
        EvSignWithEntitlements "/App.app/Extensions/B.appex/B"
          "/App.app/Extensions/B.appex/cyan.entitlements" (Raise OSError)]
  /\ ~ attempted "/App.app/PlugIns/A.appex" (trace run.2)
  /\ ~ per_artifact_isolation.
Proof.
  cbn zeta.
  assert (~ attempted "/App.app/PlugIns/A.appex"
            (trace (inject_all_extensions app [("t.dylib", "/src/t.dylib")] "/tmp"
                      false true (start split_disk broken_script)).2)) as Hnot.
  { intros [r Hin]. vm_compute in Hin.
    repeat (destruct Hin as [Hin|Hin]; [discriminate Hin|]). exact Hin. }
  split; [vm_compute; reflexivity|]. split; [vm_compute; reflexivity|].
  split; [vm_compute; reflexivity|]. split; [vm_compute; reflexivity|].
  split; [exact Hnot|].
  intros H. apply Hnot.
  apply (H script collaborators app [("t.dylib", "/src/t.dylib")] "/tmp" false
           (start split_disk broken_script) eq_refl).
  vm_compute. right. left. reflexivity.
Qed.

(** [remove_reports_and_clears] on the package, with a name that exists
    and one that does not. *)
Lemma remove_reports_and_clears_witness :
  let st := start app_disk app_script in
  let names := ["PlugIns"; "Watch"] in
  (remove app names st).1 = Ok true
  /\ ((true = false <->
       Forall (fun n => path_exists (disk st) (resolve (path app) n) = false) names)
      /\ Forall (fun n => path_exists (disk (remove app names st).2)
                                      (resolve (path app) n) = false) names
      /\ shrinks (disk st) (disk (remove app names st).2)
      /\ tool (remove app names st).2 = tool st
      /\ stdout (remove app names st).2 = stdout st
      /\ trace (remove app names st).2 = trace st
      /\ (wf_disk (disk st) = true ->
          wf_disk (disk (remove app names st).2) = true
          /\ Forall (fun n => resolve (path app) n <> "" ->
                              forall k,
                                under (canon (disk st) (resolve (path app) n)) k = true ->
                                entries (disk (remove app names st).2) !! k = None)
                    names)).
Proof.
  cbn zeta.
  assert ((remove app ["PlugIns"; "Watch"] (start app_disk app_script)).1 = Ok true)
    as H by (vm_compute; reflexivity).
  split; [exact H|].
  exact (remove_reports_and_clears app ["PlugIns"; "Watch"] (start app_disk app_script)
           true H).
Defined.

(** C2 as worded does not hold: the package root [app] occurs in the name
    [com.apple.WatchPlaceholder], so [remove] takes the name as it is,
    relative to the working directory, and not below the package; the
    entry the name stands for, [app/com.apple.WatchPlaceholder], exists,
    the call returns [False], and the entry is still there afterwards. *)
Lemma named_entry_survives_remove :
  let run := remove rel_app ["com.apple.WatchPlaceholder"] (start rel_disk quiet) in
  isabs "com.apple.WatchPlaceholder" = false
  /\ spec_resolve "app" "com.apple.WatchPlaceholder" = "app/com.apple.WatchPlaceholder"
  /\ contains "app" "com.apple.WatchPlaceholder" = true
  /\ path_exists rel_disk "app/com.apple.WatchPlaceholder" = true
  /\ run.1 = Ok false
  /\ path_exists (disk run.2) "app/com.apple.WatchPlaceholder" = true
  /\ ~ removal_as_worded.
Proof.
  cbn zeta. repeat (split; [vm_compute; reflexivity|]).
  intros H.
  destruct (H script collaborators rel_app ["com.apple.WatchPlaceholder"]
              (start rel_disk quiet) false) as [_ Hafter]; [vm_compute; reflexivity|].
  apply List.Forall_inv in Hafter. vm_compute in Hafter. discriminate Hafter.
Qed.

(** C6 on a package where the extension [B] is encrypted and the document
    of its sibling [A] does not parse: the filter removes [B], then the
    construction of the bundle of [A] raises, outside any handler; the
    exception leaves [remove_encrypted_extensions], and nothing is
    reported, although [B] was removed. *)
Theorem unreadable_sibling_aborts_filter :
  let st := start app_disk mixed_script in
  let run := remove_encrypted_extensions app st in
  glob_one_level (disk st) (path app) ".appex"
  = ["/App.app/PlugIns/B.appex"; "/App.app/PlugIns/A.appex"]
  /\ run.1 = Raise (OtherException "invalid plist")
  /\ trace run.2
     = [EvPlist "/App.app/PlugIns/B.appex/Info.plist" (Ok tt);
        EvExecutable "/App.app/PlugIns/B.appex/B" (Ok tt);
        EvIsEncrypted "/App.app/PlugIns/B.appex/B" (Ok true);
        EvPlist "/App.app/PlugIns/A.appex/Info.plist"
          (Raise (OtherException "invalid plist"))]
  /\ path_exists (disk st) "/App.app/PlugIns/B.appex" = true
  /\ path_exists (disk run.2) "/App.app/PlugIns/B.appex" = false
  /\ stdout run.2 = [].
Proof. vm_compute. repeat split. Qed.

(** C8 as worded does not hold: an absolute name in which the package root
    does not occur is not used as it is; [remove] takes it below the
    package root, so the entry it names stays where it is. *)
Lemma absolute_name_taken_below_root :
  let run := remove tmp_app ["/etc/hosts"] (start hosts_disk quiet) in
  isabs "/etc/hosts" = true
  /\ spec_resolve "/tmp/App.app" "/etc/hosts" = "/etc/hosts"
  /\ resolve "/tmp/App.app" "/etc/hosts" = "/tmp/App.app//etc/hosts"
  /\ path_exists hosts_disk "/etc/hosts" = true
  /\ run.1 = Ok false
  /\ path_exists (disk run.2) "/etc/hosts" = true
  /\ ~ (forall root name, resolve root name = spec_resolve root name).
Proof.
  cbn zeta. repeat (split; [vm_compute; reflexivity|]).
  intros H. specialize (H "/tmp/App.app" "/etc/hosts"). vm_compute in H. discriminate H.
Qed.

(* ===================================================================== *)
(** * Further properties *)
(* ===================================================================== *)

(* ===================================================================== *)
(** ** The removal engine, continued *)
(* ===================================================================== *)

(** A name that [remove] has resolved is resolved to itself: passing the
    resolved path back, as [remove_encrypted_extensions] does with globbed
    paths, names the same entry. *)
Theorem resolve_idempotent (root name : string) :
  resolve root (resolve root name) = resolve root name.
Proof.
  unfold resolve. destruct (contains root name) eqn:E; [rewrite E; reflexivity|].
  rewrite contains_app. reflexivity.
Qed.

Section RemovalMore.
Context {T : Type} {C : Collaborators T}.

(** When none of the names exists, the loop of [remove] skips them all. *)
Lemma remove_loop_absent (root : string) (names : list string) (existed : bool)
    (st : state T) :
  Forall (fun n => path_exists (disk st) (resolve root n) = false) names ->
  remove_loop root names existed st = (Ok existed, st).
Proof.
  induction 1 as [|name rest Hn _ IH]; [reflexivity|].
  cbn [remove_loop]. rewrite bind_eq. unfold on_disk at 1. rewrite Hn.
  destruct st as [d t o tr]. cbn [disk tool stdout trace negb] in *. exact IH.
Qed.

End RemovalMore.

(** Removing the same names twice: the second call returns [False] and
    leaves the disk, and everything else, as the first call left it. *)
Theorem remove_idempotent {T} {C : Collaborators T} (self : AppBundle)
    (names : list string) (st : state T) :
  remove self names (remove self names st).2 = (Ok false, (remove self names st).2).
Proof.
  destruct (remove_loop_spec (path self) names false st) as (d' & Hrun & _ & Hgone & _).
  unfold remove. rewrite Hrun. cbn [snd].
  apply remove_loop_absent. exact Hgone.
Qed.

(** [remove] touches nothing outside the named entries: a path that is
    neither a resolved name nor below one keeps its node, and the
    collaborators' state, the printed lines and the recorded calls are as
    they were. *)
Theorem remove_frame {T} {C : Collaborators T} (self : AppBundle)
    (names : list string) (st : state T) :
  (forall k,
      forallb (fun n => negb (under (canon (disk st) (resolve (path self) n)) k)) names
      = true ->
      entries (disk (remove self names st).2) !! k = entries (disk st) !! k)
  /\ cwd (disk (remove self names st).2) = cwd (disk st)
  /\ tool (remove self names st).2 = tool st
  /\ stdout (remove self names st).2 = stdout st
  /\ trace (remove self names st).2 = trace st.
Proof.
  destruct (remove_loop_spec (path self) names false st)
    as (d' & Hrun & Hsh & _ & Hkeep & _).
  unfold remove. rewrite Hrun. cbn [snd disk tool stdout trace].
  split; [exact Hkeep|]. split; [exact (proj1 Hsh)|]. repeat split.
Qed.

(** [remove_watch_apps], for a package root that occurs in none of the
    three names [Watch], [WatchKit], [com.apple.WatchPlaceholder] (so that
    each is taken below the root): whenever it returns it has printed one
    line, that a watch app was removed when one of the three existed under
    the root, that none is present otherwise; afterwards none of the three
    exists under the root.  It calls no collaborator. *)
Theorem remove_watch_apps_reports {T} {C : Collaborators T} (self : AppBundle)
    (st : state T) :
  let names := ["Watch"; "WatchKit"; "com.apple.WatchPlaceholder"] in
  let run := remove_watch_apps self st in
  forallb (fun n => negb (contains (path self) n)) names = true ->
  run.1 = Ok tt ->
  stdout run.2
  = stdout st
      ++ [if existsb (fun n => path_exists (disk st) (path self +:+ "/" +:+ n)) names
          then "[*] removed watch app" else "[?] watch app not present"]
  /\ Forall (fun n => path_exists (disk run.2) (path self +:+ "/" +:+ n) = false) names
  /\ tool run.2 = tool st /\ trace run.2 = trace st.
Proof.
  cbn zeta. intros Hout _. cbn [forallb] in Hout.
  apply andb_prop in Hout as [H1 Hout]. apply andb_prop in Hout as [H2 Hout].
  apply andb_prop in Hout as [H3 _]. apply negb_true_iff in H1, H2, H3.
  unfold remove_watch_apps, remove. rewrite bind_eq.
  destruct (remove_loop_spec (path self)
              ["Watch"; "WatchKit"; "com.apple.WatchPlaceholder"] false st)
    as (d' & Hrun & _ & Hgone & _).
  rewrite Hrun. cbn [orb existsb]. unfold resolve in *. rewrite H1, H2, H3.
  inversion Hgone as [|? ? G1 Hrest1]; subst. inversion Hrest1 as [|? ? G2 Hrest2]; subst.
  inversion Hrest2 as [|? ? G3 _]; subst. cbn beta in G1, G2, G3.
  rewrite H1 in G1. rewrite H2 in G2. rewrite H3 in G3.
  assert (Forall (fun n => path_exists d' (path self +:+ "/" +:+ n) = false)
            ["Watch"; "WatchKit"; "com.apple.WatchPlaceholder"]) as Hnone
      by (repeat constructor; assumption).
  destruct (path_exists (disk st) (path self +:+ "/" +:+ "Watch")),
    (path_exists (disk st) (path self +:+ "/" +:+ "WatchKit")),
    (path_exists (disk st) (path self +:+ "/" +:+ "com.apple.WatchPlaceholder"));
    cbn [orb print fst snd disk tool stdout trace];
    (split; [reflexivity|]); (split; [exact Hnone|]); split; reflexivity.
Qed.

Lemma plain_in_absent (d : FS) (dir suf : string) :
  path_exists d dir = false -> String.eqb dir "" = false -> plain_in d dir suf = [].
Proof.
  unfold path_exists, stat, plain_in, listdir, is_dir. intros H Hne. rewrite Hne in H.
  destruct (entries d !! canon d dir); [discriminate|]. reflexivity.
Qed.

Section RemoveAllExtensions.
Context {T : Type} {C : Collaborators T}.

Lemma get_all_appex_absent (self : AppBundle) (d : FS) :
  has_magic (path self) = false ->
  path_exists d (path self +:+ "/Extensions") = false ->
  path_exists d (path self +:+ "/PlugIns") = false ->
  get_all_appex self d = [].
Proof.
  intros Hm H1 H2. rewrite (get_all_appex_plain self d Hm).
  rewrite (plain_in_absent d (path self +:+ "/Extensions") ".appex" H1)
    by (destruct (path self); reflexivity).
  rewrite (plain_in_absent d (path self +:+ "/PlugIns") ".appex" H2)
    by (destruct (path self); reflexivity).
  reflexivity.
Qed.

End RemoveAllExtensions.

(** [remove_all_extensions], for a package root that holds no wildcard
    character and occurs in neither of the words [Extensions] and
    [PlugIns] (so that the two names are taken below the root): whenever
    it returns it has printed one line, that the extensions were removed
    when [<root>/Extensions] or [<root>/PlugIns] existed, that there are
    none otherwise; afterwards [get_all_appex] finds no extension. *)
Theorem remove_all_extensions_clears {T} {C : Collaborators T} (self : AppBundle)
    (st : state T) :
  has_magic (path self) = false ->
  contains (path self) "Extensions" = false ->
  contains (path self) "PlugIns" = false ->
  let run := remove_all_extensions self st in
  run.1 = Ok tt ->
  get_all_appex self (disk run.2) = []
  /\ stdout run.2
     = stdout st
         ++ [if path_exists (disk st) (path self +:+ "/Extensions")
                || path_exists (disk st) (path self +:+ "/PlugIns")
             then "[*] removed app extensions" else "[?] no app extensions"].
Proof.
  intros Hm HE HP. cbn zeta. intros _. unfold remove_all_extensions, remove.
  rewrite bind_eq.
  destruct (remove_loop_spec (path self) ["Extensions"; "PlugIns"] false st)
    as (d' & Hrun & _ & Hgone & _).
  rewrite Hrun. cbn [orb existsb]. unfold resolve in *. rewrite HE, HP.
  rewrite orb_false_r.
  inversion Hgone as [|? ? H1 Hrest]; subst. inversion Hrest as [|? ? H2 _]; subst.
  cbn beta in H1, H2. rewrite HE in H1. rewrite HP in H2.
  change (path self +:+ "/" +:+ "Extensions") with (path self +:+ "/Extensions") in *.
  change (path self +:+ "/" +:+ "PlugIns") with (path self +:+ "/PlugIns") in *.
  pose proof (get_all_appex_absent self d' Hm H1 H2) as Hnone.
  destruct (path_exists (disk st) (path self +:+ "/Extensions")
            || path_exists (disk st) (path self +:+ "/PlugIns"));
    cbn [print fst snd disk stdout]; (split; [exact Hnone|]); reflexivity.
Qed.

(* ===================================================================== *)
(** ** The artifact enumeration *)
(* ===================================================================== *)

Lemma endswith_app (x n suf : string) :
  endswith n suf = true -> endswith (x +:+ n) suf = true.
Proof.
  intros H. induction x as [|c x IH]; [exact H|].
  change (String.eqb (String c (x +:+ n)) suf || endswith (x +:+ n) suf = true).
  rewrite IH. apply orb_true_r.
Qed.

Lemma endswith_refl (s : string) : endswith s s = true.
Proof. destruct s; cbn [endswith]; rewrite String.eqb_refl; reflexivity. Qed.

Lemma endswith_length (s suf : string) :
  endswith s suf = true -> String.length suf <= String.length s.
Proof.
  induction s as [|c s IH]; cbn [endswith].
  - rewrite orb_false_r. intros H. apply String.eqb_eq in H. subst. simpl. lia.
  - intros H. apply orb_prop in H as [H|H].
    + apply String.eqb_eq in H. subst. simpl. lia.
    + specialize (IH H). simpl. lia.
Qed.

(** Of two suffixes of one string, the shorter is a suffix of the longer. *)
Lemma endswith_nested (s a b : string) :
  endswith s a = true -> endswith s b = true ->
  String.length a <= String.length b -> endswith b a = true.
Proof.
  induction s as [|c s IH]; cbn [endswith]; intros Ha Hb Hlen.
  - rewrite orb_false_r in Ha, Hb. apply String.eqb_eq in Ha, Hb. subst.
    apply endswith_refl.
  - apply orb_prop in Ha as [Ha|Ha]; apply orb_prop in Hb as [Hb|Hb].
    + apply String.eqb_eq in Ha, Hb. subst. apply endswith_refl.
    + apply String.eqb_eq in Ha. subst a. apply endswith_length in Hb.
      simpl in Hlen. lia.
    + apply String.eqb_eq in Hb. subst b. cbn [endswith]. rewrite Ha.
      apply orb_true_r.
    + exact (IH Ha Hb Hlen).
Qed.

Lemma join_ends_with_last (rel : list string) (n suf : string) :
  last rel = Some n -> endswith n suf = true -> endswith (join "/" rel) suf = true.
Proof.
  induction rel as [|x rel IH]; [discriminate|]. intros Hl Hs.
  destruct rel as [|y rel].
  - injection Hl as ->. exact Hs.
  - change (join "/" (x :: y :: rel)) with (x +:+ "/" +:+ join "/" (y :: rel)).
    rewrite <- string_app_assoc. apply endswith_app. apply IH; assumption.
Qed.

Lemma strip_spec (p k r : list string) : strip p k = Some r <-> k = p ++ r.
Proof.
  revert k. induction p as [|a p IH]; intros k; simpl.
  - split; [intros [= ->]; reflexivity|intros ->; reflexivity].
  - destruct k as [|b k]; [split; discriminate|].
    destruct (String.eqb_spec a b) as [->|Hne].
    + rewrite IH. split; [intros ->; reflexivity|intros [= ->]; reflexivity].
    + split; [discriminate|]. intros [= -> _]. contradiction.
Qed.

(** What [glob] with [**] returns: a path below the root, spelled from the
    root string and the visible components, whose last component has the
    suffix; it names an entry of the disk. *)
Lemma plain_recursive_members (d : FS) (root suf p : string) :
  In p (plain_recursive d root suf) ->
  exists rel n,
    p = root +:+ "/" +:+ join "/" rel
    /\ last rel = Some n
    /\ forallb visible rel = true
    /\ endswith n suf = true
    /\ entries d !! (canon d (root +:+ "/") ++ rel) <> None.
Proof.
  unfold plain_recursive. destruct (is_dir d (canon d (root +:+ "/"))); [|intros []].
  intros H. apply list_elem_of_In, list_elem_of_omap in H as ([k x] & Hk & Hp).
  cbn [fst] in Hp. destruct (strip (canon d (root +:+ "/")) k) as [rel|] eqn:Hs;
    [|discriminate].
  destruct (last rel) as [n|] eqn:Hl; [|discriminate].
  destruct (forallb visible rel && endswith n suf) eqn:Hv; [|discriminate].
  injection Hp as <-. apply andb_prop in Hv as [Hv Hsuf].
  apply strip_spec in Hs. subst k. apply elem_of_map_to_list in Hk.
  exists rel, n. repeat split; try assumption. rewrite Hk. discriminate.
Qed.

(** [mass_operate] and the enumeration agree, for a package root that
    holds no wildcard character and does not end in a slash: an artifact
    that [get_executables] returns is treated as a bare executable (its
    path ends in [.dylib]) exactly when the [*.dylib] pattern matched it;
    every other artifact ends in [.appex] or [.framework] and goes through
    its [Info.plist].  Every artifact is spelled below the package root and
    names an entry of the disk. *)
Theorem get_executables_dispatch {T} {C : Collaborators T} (self : AppBundle) (d : FS)
    (ts : string) :
  has_magic (path self) = false ->
  endswith (path self) "/" = false ->
  In ts (get_executables self d) ->
  ((In ts (glob_recursive d (path self) ".dylib") /\ endswith ts ".dylib" = true)
   \/ (endswith ts ".dylib" = false
       /\ (endswith ts ".appex" = true \/ endswith ts ".framework" = true)))
  /\ startswith ts (path self +:+ "/") = true
  /\ exists rel, ts = path self +:+ "/" +:+ join "/" rel
                 /\ entries d !! (canon d (path self +:+ "/") ++ rel) <> None.
Proof.
  intros Hm Hd H. rewrite (get_executables_plain self d Hm Hd) in H.
  rewrite (glob_recursive_plain d (path self) ".dylib" Hm Hd).
  assert (forall suf, In ts (plain_recursive d (path self) suf) ->
                      endswith ts suf = true
                      /\ startswith ts (path self +:+ "/") = true
                      /\ exists rel, ts = path self +:+ "/" +:+ join "/" rel
                                     /\ entries d !! (canon d (path self +:+ "/") ++ rel)
                                        <> None) as Hmem.
  { intros suf Hin.
    apply plain_recursive_members in Hin as (rel & n & -> & Hl & _ & Hs & He).
    split; [|split].
    - apply endswith_app, endswith_app. exact (join_ends_with_last rel n suf Hl Hs).
    - rewrite <- string_app_assoc. apply startswith_app.
    - exists rel. split; [reflexivity|exact He]. }
  apply in_app_or in H as [H|H].
  - destruct (Hmem _ H) as (Hs & Hr & He). split; [left; split; assumption|].
    split; assumption.
  - apply in_app_or in H as [H|H]; destruct (Hmem _ H) as (Hs & Hr & He).
    + split; [right|split; assumption]. split; [|left; exact Hs].
      destruct (endswith ts ".dylib") eqn:E; [|reflexivity].
      assert (endswith ".appex" ".dylib" = true) as Hno
          by (apply (endswith_nested ts); [assumption|assumption|simpl; lia]).
      vm_compute in Hno. discriminate Hno.
    + split; [right|split; assumption]. split; [|right; exact Hs].
      destruct (endswith ts ".dylib") eqn:E; [|reflexivity].
      assert (endswith ".framework" ".dylib" = true) as Hno
          by (apply (endswith_nested ts); [assumption|assumption|simpl; lia]).
      vm_compute in Hno. discriminate Hno.
Qed.

Lemma listdir_spec (d : FS) (p : list string) (n : string) :
  In n (listdir d p) <->
  is_dir d p = true /\ valid_name n = true /\ entries d !! (p ++ [n]) <> None.
Proof.
  unfold listdir. destruct (is_dir d p).
  - rewrite <- list_elem_of_In, list_elem_of_omap. split.
    + intros ([k x] & Hk & Hn). cbn [fst] in Hn.
      destruct (strip p k) as [[|m [|? ?]]|] eqn:Hs; try discriminate.
      destruct (valid_name m) eqn:Hv; [|discriminate]. injection Hn as ->.
      apply strip_spec in Hs. subst k. apply elem_of_map_to_list in Hk.
      split; [reflexivity|]. split; [exact Hv|]. rewrite Hk. discriminate.
    + intros (_ & Hv & He). destruct (entries d !! (p ++ [n])) as [x|] eqn:E; [|congruence].
      exists (p ++ [n], x). split; [apply elem_of_map_to_list; exact E|].
      cbn [fst]. rewrite (proj2 (strip_spec p (p ++ [n]) [n]) eq_refl), Hv. reflexivity.
  - split; [intros []|intros [H _]; discriminate].
Qed.

Lemma plain_in_spec (d : FS) (dir suf p : string) :
  In p (plain_in d dir suf) <->
  exists n, p = dir +:+ "/" +:+ n /\ In n (listdir d (canon d dir))
            /\ visible n = true /\ endswith n suf = true.
Proof.
  unfold plain_in. rewrite in_map_iff. split.
  - intros (n & <- & Hn). apply list_elem_of_In, list_elem_of_filter in Hn as [Hv Hn].
    apply andb_prop in Hv as [Hv Hs]. exists n. rewrite <- list_elem_of_In.
    repeat split; assumption.
  - intros (n & -> & Hn & Hv & Hs). exists n. split; [reflexivity|].
    apply list_elem_of_In, list_elem_of_filter. split; [|apply list_elem_of_In; exact Hn].
    rewrite Hv, Hs. reflexivity.
Qed.

Lemma isabs_nonempty (dir x : string) :
  String.eqb dir "" = false -> isabs (dir +:+ x) = isabs dir.
Proof. destruct dir; [discriminate|reflexivity]. Qed.

(** A name directly inside a directory is canonically the directory
    followed by the name. *)
Lemma canon_child (d : FS) (dir n : string) :
  String.eqb dir "" = false -> valid_name n = true ->
  canon d (dir +:+ "/" +:+ n) = canon d dir ++ [n].
Proof.
  intros Hne Hn. unfold canon. change ("/" +:+ n) with (String "/" n).
  rewrite segments_slash, (segments_file_name n (valid_name_slash n Hn)).
  rewrite (isabs_nonempty dir _ Hne), fold_left_app. cbn [fold_left].
  apply canon_step_name. exact Hn.
Qed.

Lemma canon_under_root (d : FS) (root n : string) :
  valid_name n = true -> canon d (root +:+ "/" +:+ n) = canon d (root +:+ "/") ++ [n].
Proof.
  intros Hn. rewrite canon_root_slash. unfold canon.
  change ("/" +:+ n) with (String "/" n).
  rewrite segments_slash, (segments_file_name n (valid_name_slash n Hn)), isabs_slash.
  rewrite fold_left_app. cbn [fold_left]. apply canon_step_name. exact Hn.
Qed.

(** A globbed path exists. *)
Lemma plain_in_exists (d : FS) (dir suf p : string) :
  String.eqb dir "" = false -> In p (plain_in d dir suf) -> path_exists d p = true.
Proof.
  intros Hne Hp. apply plain_in_spec in Hp as (n & -> & Hn & Hv & _).
  apply listdir_spec in Hn as (_ & Hvalid & He).
  unfold path_exists, stat. rewrite (canon_child d dir n Hne Hvalid).
  replace (String.eqb (dir +:+ "/" +:+ n) "") with false
    by (destruct dir; [discriminate|reflexivity]).
  destruct (entries d !! (canon d dir ++ [n])); [reflexivity|congruence].
Qed.

(** Globbing a disk with entries deleted finds nothing new. *)
Lemma plain_in_shrinks (d d' : FS) (dir suf p : string) :
  shrinks d d' -> In p (plain_in d' dir suf) -> In p (plain_in d dir suf).
Proof.
  intros [Hc Hs] Hp. apply plain_in_spec in Hp as (n & -> & Hn & Hv & Hsuf).
  apply plain_in_spec. exists n. split; [reflexivity|]. split; [|split; assumption].
  rewrite (canon_cwd d d' dir Hc) in Hn.
  apply listdir_spec in Hn as (Hd & Hvalid & He). apply listdir_spec.
  split; [|split; [exact Hvalid|]].
  - unfold is_dir in *. destruct (entries d' !! canon d dir) as [x|] eqn:E; [|discriminate].
    rewrite (lookup_weaken _ _ _ _ E Hs). exact Hd.
  - destruct (entries d' !! (canon d dir ++ [n])) as [x|] eqn:E; [|congruence].
    rewrite (lookup_weaken _ _ _ _ E Hs). discriminate.
Qed.

(** On a well-formed disk, what is globbed in a visible directory directly
    below the root is globbed by the one-level pattern too. *)
Lemma plain_in_one_level (d : FS) (root sub suf p : string) :
  wf_disk d = true -> visible sub = true ->
  In p (plain_in d (root +:+ "/" +:+ sub) suf) -> In p (plain_one_level d root suf).
Proof.
  intros Hwf Hsub Hp. unfold plain_one_level. apply in_concat.
  exists (plain_in d (root +:+ "/" +:+ sub) suf). split; [|exact Hp].
  apply in_map_iff. exists sub. split; [reflexivity|].
  apply list_elem_of_In, list_elem_of_filter. split; [exact Hsub|].
  apply list_elem_of_In, listdir_spec.
  assert (valid_name sub = true) as Hvalid
      by (unfold visible in Hsub; apply andb_prop in Hsub as [H _]; exact H).
  apply plain_in_spec in Hp as (n & _ & Hn & _).
  apply listdir_spec in Hn as (Hd & _ & _).
  rewrite (canon_under_root d root sub Hvalid) in Hd.
  assert (entries d !! (canon d (root +:+ "/") ++ [sub]) <> None) as He
      by (unfold is_dir in Hd; destruct (entries d !! _); [discriminate|discriminate]).
  split; [|split; [exact Hvalid|exact He]].
  apply (proj1 (wf_disk_spec d) Hwf _ sub). exact He.
Qed.

Section ExtensionsMore.
Context {T : Type} {C : Collaborators T}.

Lemma get_all_appex_one_level (self : AppBundle) (d : FS) (p : string) :
  wf_disk d = true -> has_magic (path self) = false ->
  In p (get_all_appex self d) ->
  In p (plain_one_level d (path self) ".appex").
Proof.
  intros Hwf Hm Hp. rewrite (get_all_appex_plain self d Hm) in Hp.
  apply in_app_or in Hp as [Hp|Hp].
  - apply (plain_in_one_level d (path self) "Extensions" ".appex" p Hwf eq_refl). exact Hp.
  - apply (plain_in_one_level d (path self) "PlugIns" ".appex" p Hwf eq_refl). exact Hp.
Qed.

Lemma get_all_appex_exists (self : AppBundle) (d : FS) (p : string) :
  has_magic (path self) = false ->
  In p (get_all_appex self d) -> path_exists d p = true.
Proof.
  intros Hm Hp. rewrite (get_all_appex_plain self d Hm) in Hp.
  apply in_app_or in Hp as [Hp|Hp];
    (eapply plain_in_exists; [|exact Hp]); destruct (path self); reflexivity.
Qed.

Lemma get_all_appex_shrinks (self : AppBundle) (d d' : FS) (p : string) :
  has_magic (path self) = false -> shrinks d d' ->
  In p (get_all_appex self d') -> In p (get_all_appex self d).
Proof.
  intros Hm Hs Hp. rewrite (get_all_appex_plain self d' Hm) in Hp.
  rewrite (get_all_appex_plain self d Hm).
  apply in_or_app. apply in_app_or in Hp as [Hp|Hp].
  - left. eapply plain_in_shrinks; eassumption.
  - right. eapply plain_in_shrinks; eassumption.
Qed.

End ExtensionsMore.

(** What [get_all_appex] returns for a package root that holds no wildcard
    character and does not end in a slash: first the extensions in
    [Extensions], then those in [PlugIns]; each is spelled
    [<root>/Extensions/<name>] or [<root>/PlugIns/<name>] with a visible
    name that ends in [.appex], and exists; on a well-formed disk each is
    among the extension packages the encrypted-extension filter examines
    (the one-level glob). *)
Theorem get_all_appex_members {T} {C : Collaborators T} (self : AppBundle) (d : FS)
    (p : string) :
  has_magic (path self) = false ->
  endswith (path self) "/" = false ->
  In p (get_all_appex self d) ->
  (exists n, (p = path self +:+ "/Extensions/" +:+ n \/ p = path self +:+ "/PlugIns/" +:+ n)
             /\ visible n = true /\ endswith n ".appex" = true)
  /\ path_exists d p = true
  /\ (wf_disk d = true -> In p (glob_one_level d (path self) ".appex")).
Proof.
  intros Hm Hd Hp. split; [|split].
  - rewrite (get_all_appex_plain self d Hm) in Hp.
    apply in_app_or in Hp as [Hp|Hp]; apply plain_in_spec in Hp as (n & -> & _ & Hv & Hs);
      exists n; (split; [|split; assumption]).
    + left. rewrite string_app_assoc. reflexivity.
    + right. rewrite string_app_assoc. reflexivity.
  - exact (get_all_appex_exists self d p Hm Hp).
  - intros Hwf. rewrite (glob_one_level_plain d (path self) ".appex" Hm Hd).
    apply get_all_appex_one_level; assumption.
Qed.

(** The filter and the injector compose, for a package root that holds no
    wildcard character and does not end in a slash: after a completed
    [remove_encrypted_extensions] on a well-formed disk, every extension
    [get_all_appex] still finds was there before, was examined by the
    filter, and its executable answered the encryption query with
    [False]. *)
Theorem filter_leaves_unencrypted_extensions {T} {C : Collaborators T}
    (self : AppBundle) (st : state T) (p : string) :
  has_magic (path self) = false ->
  endswith (path self) "/" = false ->
  wf_disk (disk st) = true ->
  (remove_encrypted_extensions self st).1 = Ok tt ->
  In p (get_all_appex self (disk (remove_encrypted_extensions self st).2)) ->
  In p (get_all_appex self (disk st))
  /\ exists name evs,
      trace (remove_encrypted_extensions self st).2 = trace st ++ evs
      /\ In (EvIsEncrypted (p +:+ "/" +:+ name) (Ok false)) evs.
Proof.
  intros Hm Hd. unfold remove_encrypted_extensions. rewrite bind_eq.
  unfold with_disk. cbn [mret M_ret]. rewrite bind_eq.
  rewrite (glob_one_level_plain (disk st) (path self) ".appex" Hm Hd).
  destruct (encrypted_loop_spec self (plain_one_level (disk st) (path self) ".appex")
              (fun p Hp => plain_below_root _ _ _ _ Hp) [] st)
    as (vs & rest & d' & evs & r & Hrun & Hpl & Hr & Hev & Hsh & Hgone & _).
  rewrite Hrun. intros Hwf Hok Hp.
  destruct r as [removed|e]; [|discriminate Hok]. destruct Hr as [-> _].
  assert (disk (match (if Nat.eqb (List.length removed) 0
                       then print "[?] no encrypted plugins"
                       else print ("[*] removed encrypted plugins: " +:+ join ", " removed))
                      (mkState d' (tool st) (stdout st) (trace st ++ evs))
                with (_, s) => s end) = d'
          /\ trace (match (if Nat.eqb (List.length removed) 0
                           then print "[?] no encrypted plugins"
                           else print ("[*] removed encrypted plugins: "
                                         +:+ join ", " removed))
                          (mkState d' (tool st) (stdout st) (trace st ++ evs))
                    with (_, s) => s end) = trace st ++ evs) as [Hdk Ht]
      by (destruct (Nat.eqb (List.length removed) 0); split; reflexivity).
  unfold snd in *. rewrite Hdk in Hp. rewrite Ht. clear Hdk Ht.
  pose proof (get_all_appex_shrinks self (disk st) d' p Hm Hsh Hp) as Hbefore.
  split; [exact Hbefore|].
  pose proof (get_all_appex_one_level self (disk st) p Hwf Hm Hbefore) as Hone.
  rewrite Hpl, app_nil_r in Hone. apply in_map_iff in Hone as (v & <- & Hv).
  pose proof (get_all_appex_exists self d' (v_plugin v) Hm Hp) as Hex.
  rewrite List.Forall_forall in Hgone, Hev.
  destruct (v_encrypted v) eqn:Henc.
  - rewrite (Hgone v Hv Henc) in Hex. discriminate.
  - exists (v_name v), evs. split; [reflexivity|].
    pose proof (Hev v Hv) as H. cbn beta in H. rewrite Henc in H. exact H.
Qed.

(* ===================================================================== *)
(** ** The mass operation driver, continued *)
(* ===================================================================== *)

Section MassOperationMore.
Context {T : Type} {C : Collaborators T}.

(** One artifact, whatever the outcome: nothing is printed; the calls are
    lookups and the requested capability; a dylib needs no document, any
    other artifact at most one. *)
Lemma resolve_and_call_any (func : capability) (ts : string) (st : state T) :
  exists r evs d t,
    resolve_and_call func ts st = (r, mkState d t (stdout st) (trace st ++ evs))
    /\ Forall (fun ev => sweep_call func ev = true) evs
    /\ List.length (List.filter is_plist_read evs)
       = if endswith ts ".dylib" then 0 else 1.
Proof.
  assert (same_capability func func = true) as Hsame by (destruct func; reflexivity).
  unfold resolve_and_call. destruct (endswith ts ".dylib").
  - unfold Executable_new. rewrite !bind_eq, query_eq.
    destruct (Executable_init ts (disk st) (tool st)) as [[]|e].
    + cbn [mret M_ret].
      destruct (call_capability_eq func (mkExecutable ts (basename ts))
                  (log [EvExecutable ts (Ok tt)] st)) as (r & d & t & Hcall).
      rewrite Hcall. cbn [log stdout trace exe_path].
      eexists r, [_; _], d, t. rewrite <- app_assoc.
      split; [reflexivity|]. split; [|reflexivity].
      repeat constructor. cbn. exact Hsame.
    + eexists _, [_], _, _. split; [reflexivity|]. split; [|reflexivity].
      repeat constructor.
  - unfold Plist_new, Executable_new, lift_result. rewrite !bind_eq, query_eq.
    destruct (Plist_load (ts +:+ "/Info.plist") (disk st) (tool st)) as [doc|e].
    2:{ eexists _, [_], _, _. split; [reflexivity|]. split; [|reflexivity].
        repeat constructor. }
    cbn [mret M_ret void]. rewrite !bind_eq. unfold getitem. cbn [document].
    destruct (doc !! "CFBundleExecutable") as [name|].
    2:{ eexists _, [_], _, _. split; [reflexivity|]. split; [|reflexivity].
        repeat constructor. }
    rewrite !bind_eq, query_eq. cbn [log disk tool].
    destruct (Executable_init (ts +:+ "/" +:+ name) (disk st) (tool st)) as [[]|e].
    2:{ eexists _, [_; _], _, _. unfold log. cbn [stdout trace disk tool].
        rewrite <- app_assoc.
        split; [reflexivity|]. split; [|reflexivity]. repeat constructor. }
    cbn [mret M_ret].
    match goal with
    | |- context [call_capability func ?x ?s] =>
        destruct (call_capability_eq func x s) as (r & d & t & Hcall); rewrite Hcall
    end; unfold log; cbn [stdout trace exe_path disk tool].
    eexists r, [_; _; _], d, t. rewrite <- !app_assoc.
    split; [reflexivity|]. split; [|reflexivity].
    repeat constructor. cbn. exact Hsame.
Qed.

(** The sweep, whatever the outcome: nothing is printed; the calls are
    lookups and the requested capability; at most one document is read per
    artifact that is not a dylib; a returned counter grew by at most one
    per artifact. *)
Lemma mass_loop_any (func : capability) (l : list string) :
  forall (count : nat) (st : state T),
  exists r evs d t,
    mass_loop func l count st = (r, mkState d t (stdout st) (trace st ++ evs))
    /\ Forall (fun ev => sweep_call func ev = true) evs
    /\ List.length (List.filter is_plist_read evs) <= List.length (bundles_of l)
    /\ match r with
       | Ok n => count <= n <= count + List.length l
       | Raise _ => True
       end.
Proof.
  induction l as [|ts l IH]; intros count st.
  - exists (Ok count), [], (disk st), (tool st). destruct st. cbn.
    rewrite app_nil_r. split; [reflexivity|]. split; [constructor|]. split; lia.
  - cbn [mass_loop]. rewrite bind_eq.
    destruct (resolve_and_call_any func ts st) as (r & evs1 & d & t & Hrun & Hall1 & Hn1).
    rewrite Hrun.
    assert (List.length (List.filter is_plist_read evs1)
              + List.length (bundles_of l) = List.length (bundles_of (ts :: l))) as Hb.
    { rewrite Hn1. unfold bundles_of. cbn [List.filter].
      destruct (endswith ts ".dylib"); reflexivity. }
    destruct r as [b|e].
    + destruct (IH (if b then count + 1 else count)
                   (mkState d t (stdout st) (trace st ++ evs1)))
        as (r & evs2 & d' & t' & Hrest & Hall2 & Hn2 & Hr).
      rewrite Hrest. cbn [stdout trace].
      exists r, (evs1 ++ evs2), d', t'. rewrite app_assoc.
      split; [reflexivity|]. split; [apply Forall_app; split; assumption|].
      split.
      * rewrite List.filter_app, length_app. lia.
      * destruct r as [n|]; [|exact I]. cbn [List.length]. destruct b; lia.
    + exists (Raise e), evs1, d, t. split; [reflexivity|]. split; [exact Hall1|].
      split; [lia|exact I].
Qed.

(** What a run of [mass_operate] prints: count lines only, none when it
    raises. *)
Lemma mass_operate_lines (self : AppBundle) (op : string) (func : capability)
    (st : state T) :
  exists out,
    stdout (mass_operate self op func st).2.2 = stdout st ++ out
    /\ Forall (fun line => exists n, line = count_line op n) out.
Proof.
  unfold mass_operate. cbn [fst snd]. unfold mass_sweep.
  rewrite fill_cache_executable, bind_eq.
  destruct (call_capability_eq func (executable self) st) as ([main_ok|e] & d & t & Hmain);
    rewrite Hmain.
  2:{ exists []. cbn [snd stdout]. rewrite app_nil_r. split; [reflexivity|constructor]. }
  rewrite bind_eq.
  match goal with
  | |- context [mass_loop func ?l ?n ?s] =>
      destruct (mass_loop_any func l n s) as (r & evs & d' & t' & Hloop & _);
      rewrite Hloop
  end.
  destruct r as [n|e]; cbn [print fst snd stdout].
  - exists [count_line op n]. split; [reflexivity|]. repeat constructor. exists n. reflexivity.
  - exists []. rewrite app_nil_r. split; [reflexivity|constructor].
Qed.

End MassOperationMore.

(** [mass_operate] prints exactly one line when it completes, the count
    line, with a count between 0 and one plus the number of cached
    artifacts; when it raises it prints nothing. *)
Theorem mass_operate_output {T} {C : Collaborators T} (self : AppBundle) (op : string)
    (func : capability) (st : state T) :
  match (mass_operate self op func st).2.1 with
  | Ok _ =>
      exists n,
        n <= 1 + List.length (cache_of (mass_operate self op func st).1)
        /\ stdout (mass_operate self op func st).2.2 = stdout st ++ [count_line op n]
  | Raise _ => stdout (mass_operate self op func st).2.2 = stdout st
  end.
Proof.
  unfold mass_operate. cbn [fst snd]. unfold mass_sweep.
  rewrite fill_cache_executable, bind_eq.
  destruct (call_capability_eq func (executable self) st) as ([main_ok|e] & d & t & Hmain);
    rewrite Hmain; [|reflexivity].
  rewrite bind_eq.
  match goal with
  | |- context [mass_loop func ?l ?n ?s] =>
      destruct (mass_loop_any func l n s) as (r & evs & d' & t' & Hloop & _ & _ & Hr);
      rewrite Hloop
  end.
  destruct r as [n|e]; cbn [print fst snd stdout]; [|reflexivity].
  exists n. split; [destruct main_ok; lia|reflexivity].
Qed.

Section MassOperationCalls.
Context {T : Type} {C : Collaborators T}.

Lemma mass_operate_trace (self : AppBundle) (op : string)
    (func : capability) (st : state T) :
  exists r evs,
    trace (mass_operate self op func st).2.2
    = trace st ++ EvCapability func (exe_path (executable self)) r :: evs
    /\ Forall (fun ev => sweep_call func ev = true) evs
    /\ List.length (List.filter is_plist_read evs)
       <= List.length (bundles_of (cache_of (mass_operate self op func st).1)).
Proof.
  unfold mass_operate. cbn [fst snd]. unfold mass_sweep.
  rewrite fill_cache_executable, bind_eq.
  destruct (call_capability_eq func (executable self) st) as ([main_ok|e] & d & t & Hmain);
    rewrite Hmain.
  - rewrite bind_eq.
    match goal with
    | |- context [mass_loop func ?l ?n ?s] =>
        destruct (mass_loop_any func l n s) as (r & evs & d' & t' & Hloop & Hall & Hn & _);
        rewrite Hloop
    end.
    exists (Ok main_ok), evs.
    split; [|split; assumption].
    destruct r as [n|e]; cbn [print fst snd trace]; rewrite <- app_assoc; reflexivity.
  - exists (Raise e), []. cbn [snd trace]. split; [reflexivity|].
    split; [constructor|cbn; lia].
Qed.

End MassOperationCalls.

(** What [mass_operate] calls: first the requested capability on the main
    executable, then only document reads, executable constructions and
    calls of the requested capability: never the other capability, never
    a signature removal, an injection or a signing.  It reads at most one
    document per cached artifact that is not a dylib. *)
Theorem mass_operate_calls {T} {C : Collaborators T} (self : AppBundle) (op : string)
    (func : capability) (st : state T) :
  exists r evs,
    trace (mass_operate self op func st).2.2
    = trace st ++ EvCapability func (exe_path (executable self)) r :: evs
    /\ Forall (fun ev => sweep_call func ev = true) evs
    /\ List.length (List.filter is_plist_read evs)
       <= List.length (bundles_of (cache_of (mass_operate self op func st).1)).
Proof. exact (mass_operate_trace self op func st). Qed.

(** [fakesign_all] and [thin_all] are the sweep with their own capability
    and their own word in the count line: [fakesign_all] makes no [thin]
    call and prints no line but one that starts with [[*] fakesigned],
    [thin_all] makes no [fakesign] call and prints no line but one that
    starts with [[*] thinned]. *)
Theorem named_sweeps {T} {C : Collaborators T} (self : AppBundle) (st : state T) :
  (exists evs out,
      trace (fakesign_all self st).2.2 = trace st ++ evs
      /\ Forall (fun ev => sweep_call fakesign ev = true) evs
      /\ stdout (fakesign_all self st).2.2 = stdout st ++ out
      /\ Forall (fun line => startswith line "[*] fakesigned " = true) out)
  /\ (exists evs out,
      trace (thin_all self st).2.2 = trace st ++ evs
      /\ Forall (fun ev => sweep_call thin ev = true) evs
      /\ stdout (thin_all self st).2.2 = stdout st ++ out
      /\ Forall (fun line => startswith line "[*] thinned " = true) out).
Proof.
  unfold fakesign_all, thin_all. split.
  - destruct (mass_operate_trace self "fakesigned" fakesign st) as (r & evs & Htr & Hall & _).
    destruct (mass_operate_lines self "fakesigned" fakesign st) as (out & Hout & Hline).
    exists (EvCapability fakesign (exe_path (executable self)) r :: evs), out.
    split; [exact Htr|]. split; [constructor; [reflexivity|exact Hall]|].
    split; [exact Hout|].
    eapply Forall_impl; [exact Hline|]. intros line [n ->]. reflexivity.
  - destruct (mass_operate_trace self "thinned" thin st) as (r & evs & Htr & Hall & _).
    destruct (mass_operate_lines self "thinned" thin st) as (out & Hout & Hline).
    exists (EvCapability thin (exe_path (executable self)) r :: evs), out.
    split; [exact Htr|]. split; [constructor; [reflexivity|exact Hall]|].
    split; [exact Hout|].
    eapply Forall_impl; [exact Hline|]. intros line [n ->]. reflexivity.
Qed.

(* ===================================================================== *)
(** ** Injection, continued *)
(* ===================================================================== *)

Section InjectionMore.
Context {T : Type} {C : Collaborators T}.

Lemma inject_eq (exe : Executable) (tweaks : list (string * string)) (tmpdir : string)
    (flag : bool) (st : state T) :
  exists r d t,
    inject exe tweaks tmpdir flag st
    = (r, mkState d t (stdout st) (trace st ++ [EvInject (exe_path exe) r])).
Proof.
  unfold inject. rewrite action_eq. eexists _, _, _. reflexivity.
Qed.

Lemma inject_loop_stdout (exe : Executable) (flag : bool) (names : list string)
    (st : state T) :
  stdout (inject_loop exe flag names st).2 = stdout st.
Proof.
  destruct (inject_loop_cases exe flag names st)
    as [(d & t & H)|(e & done & n & rest & d & t & _ & H)]; rewrite H; reflexivity.
Qed.

(** The injection sequence prints its message when it completes, and
    nothing when it raises. *)
Lemma inject_and_sign_stdout (ext : AppBundle) (appex name : string)
    (dylibs : list (string * string)) (flag : bool) (st : state T) :
  stdout (inject_and_sign ext appex name dylibs flag st).2
  = stdout st ++ match (inject_and_sign ext appex name dylibs flag st).1 with
                 | Ok _ => ["[*] injected into extension: " +:+ name]
                 | Raise _ => []
                 end.
Proof.
  unfold inject_and_sign, write_entitlements, remove_signature.
  rewrite bind_eq, action_eq.
  destruct (MainExecutable_write_entitlements _ _ _) as [[has|e] [d1 t1]];
    cbn [fst snd disk tool stdout trace]; [|rewrite app_nil_r; reflexivity].
  rewrite bind_eq, action_eq. cbn [fst snd disk tool stdout trace].
  destruct (Executable_remove_signature _ _) as [[[]|e] [d2 t2]];
    cbn [fst snd disk tool stdout trace]; [|rewrite app_nil_r; reflexivity].
  rewrite bind_eq.
  match goal with
  | |- context [inject_loop ?x ?f ?n ?s] =>
      destruct (inject_loop_cases x f n s)
        as [(d3 & t3 & H)|(e & done & n' & rest & d3 & t3 & Hn & H)]; rewrite H; clear H
  end; cbn [fst snd disk tool stdout trace]; [|rewrite app_nil_r; reflexivity].
  rewrite bind_eq. unfold inj_present. rewrite query_eq. unfold log.
  cbn [fst snd disk tool stdout trace].
  destruct (Executable_inj_present (executable ext) t3).
  - unfold inj_write. rewrite bind_eq, action_eq. cbn [fst snd disk tool stdout trace].
    destruct (Executable_inj_write _ _ _) as [[[]|e] [d4 t4]];
      cbn [fst snd disk tool stdout trace]; [|rewrite app_nil_r; reflexivity].
    destruct has.
    + unfold sign_with_entitlements. rewrite !bind_eq, action_eq.
      cbn [fst snd disk tool stdout trace].
      destruct (MainExecutable_sign_with_entitlements _ _ _) as [[signed|e] [d5 t5]];
        cbn [fst snd disk tool stdout trace print mret M_ret];
        [reflexivity|rewrite app_nil_r; reflexivity].
    + cbn [fst snd disk tool stdout trace print mbind M_bind mret M_ret]. reflexivity.
  - rewrite ret_bind. destruct has.
    + unfold sign_with_entitlements. rewrite !bind_eq, action_eq.
      cbn [fst snd disk tool stdout trace mret M_ret].
      destruct (MainExecutable_sign_with_entitlements _ _ _) as [[signed|e] [d5 t5]];
        cbn [fst snd disk tool stdout trace print];
        [reflexivity|rewrite app_nil_r; reflexivity].
    + cbn [fst snd disk tool stdout trace print mbind M_bind mret M_ret]. reflexivity.
Qed.

End InjectionMore.

(** Without the all-extensions flag, [inject_all_extensions] is the
    injection into the main executable and nothing else: one call, of
    [inject] on the main executable, whose outcome is the outcome of the
    run; nothing is printed and no extension is looked at. *)
Theorem main_only_injection {T} {C : Collaborators T} (self : AppBundle)
    (tweaks : list (string * string)) (tmpdir : string) (flag : bool) (st : state T) :
  inject_all_extensions self tweaks tmpdir flag false st
  = inject (executable self) tweaks tmpdir flag st
  /\ stdout (inject_all_extensions self tweaks tmpdir flag false st).2 = stdout st
  /\ trace (inject_all_extensions self tweaks tmpdir flag false st).2
     = trace st ++ [EvInject (exe_path (executable self))
                      (inject_all_extensions self tweaks tmpdir flag false st).1].
Proof.
  assert (inject_all_extensions self tweaks tmpdir flag false st
          = inject (executable self) tweaks tmpdir flag st) as Heq.
  { unfold inject_all_extensions. rewrite bind_eq.
    destruct (inject (executable self) tweaks tmpdir flag st) as [[[]|e] s1]; reflexivity. }
  rewrite Heq. split; [reflexivity|].
  destruct (inject_eq (executable self) tweaks tmpdir flag st) as (r & d & t & H).
  rewrite H. split; reflexivity.
Qed.

(** The main executable comes first and is not guarded: when its
    injection raises, [inject_all_extensions] raises the same exception,
    whatever the flag; no extension is enumerated or looked at and
    nothing is printed. *)
Theorem main_injection_failure_ends_run {T} {C : Collaborators T} (self : AppBundle)
    (tweaks : list (string * string)) (tmpdir : string) (flag inject_all : bool)
    (st : state T) (e : exn) :
  (inject (executable self) tweaks tmpdir flag st).1 = Raise e ->
  inject_all_extensions self tweaks tmpdir flag inject_all st
  = (Raise e, (inject (executable self) tweaks tmpdir flag st).2)
  /\ stdout (inject_all_extensions self tweaks tmpdir flag inject_all st).2 = stdout st
  /\ trace (inject_all_extensions self tweaks tmpdir flag inject_all st).2
     = trace st ++ [EvInject (exe_path (executable self)) (Raise e)].
Proof.
  intros Hmain. unfold inject_all_extensions. rewrite bind_eq.
  destruct (inject_eq (executable self) tweaks tmpdir flag st) as (r & d & t & H).
  rewrite H in *. cbn [fst snd] in *. subst r. split; [reflexivity|]. split; reflexivity.
Qed.

(** With the flag set and no extension under [Extensions] or [PlugIns]
    once the main executable is done, the run ends with the one line
    [[?] no app extensions found for -a]; it makes no further call and
    leaves the world as the main injection left it. *)
Theorem no_extensions_message {T} {C : Collaborators T} (self : AppBundle)
    (tweaks : list (string * string)) (tmpdir : string) (flag : bool) (st : state T) :
  let after_main := (inject (executable self) tweaks tmpdir flag st).2 in
  (inject (executable self) tweaks tmpdir flag st).1 = Ok tt ->
  get_all_appex self (disk after_main) = [] ->
  inject_all_extensions self tweaks tmpdir flag true st
  = (Ok tt, mkState (disk after_main) (tool after_main)
              (stdout st ++ ["[?] no app extensions found for -a"])
              (trace st ++ [EvInject (exe_path (executable self)) (Ok tt)])).
Proof.
  cbn zeta. intros Hmain Hnone. unfold inject_all_extensions. rewrite bind_eq.
  destruct (inject_eq (executable self) tweaks tmpdir flag st) as (r & d & t & H).
  rewrite H in *. cbn [fst snd disk tool] in *. subst r.
  cbn [negb]. rewrite bind_eq. unfold with_disk. cbn [mret M_ret disk].
  rewrite Hnone. reflexivity.
Qed.

(** An extension whose bundle cannot be constructed, with any exception
    that derives from [Exception], is skipped: the run returns normally,
    prints the one line [[?] skipping <name>: couldn't read Info.plist]
    with the last component of the extension's path as the name, and
    leaves the disk and the collaborators' state as they were. *)
Theorem unreadable_extension_skipped {T} {C : Collaborators T} (self : AppBundle)
    (appex : string) (tweaks : list (string * string)) (flag : bool) (st : state T)
    (e : exn) :
  (AppBundle_init appex st).1 = Raise e ->
  is_Exception e = true ->
  (_inject_into_extension self appex tweaks flag st).1 = Ok tt
  /\ stdout (_inject_into_extension self appex tweaks flag st).2
     = stdout st ++ ["[?] skipping " +:+ basename appex +:+ ": couldn't read Info.plist"]
  /\ disk (_inject_into_extension self appex tweaks flag st).2 = disk st
  /\ tool (_inject_into_extension self appex tweaks flag st).2 = tool st
  /\ trace (_inject_into_extension self appex tweaks flag st).2
     = trace (AppBundle_init appex st).2.
Proof.
  intros Hinit He.
  unfold _inject_into_extension. rewrite bind_eq. unfold try_except. rewrite bind_eq.
  destruct (AppBundle_init_cases appex st)
    as [(e' & evs & H & _)|(doc & name & _ & _ & H)]; rewrite H in *;
    cbn [fst snd] in *; [|discriminate].
  injection Hinit as ->. rewrite He.
  cbn [print mbind M_bind mret M_ret fst snd log disk tool stdout trace].
  repeat split.
Qed.

(** An extension whose executable reports itself encrypted is skipped:
    the run returns normally after three lookups (the document, the
    executable, the query), prints the one line
    [[?] skipping <name>: encrypted], and leaves the disk and the
    collaborators' state as they were. *)
Theorem encrypted_extension_skipped {T} {C : Collaborators T} (self : AppBundle)
    (appex : string) (tweaks : list (string * string)) (flag : bool) (st : state T)
    (b : AppBundle) :
  (AppBundle_init appex st).1 = Ok b ->
  Executable_is_encrypted (executable b) (disk st) (tool st) = Ok true ->
  _inject_into_extension self appex tweaks flag st
  = (Ok tt,
     mkState (disk st) (tool st)
       (stdout st ++ ["[?] skipping " +:+ basename appex +:+ ": encrypted"])
       (trace st ++ [EvPlist (appex +:+ "/Info.plist") (Ok tt);
                     EvExecutable (exe_path (executable b)) (Ok tt);
                     EvIsEncrypted (exe_path (executable b)) (Ok true)])).
Proof.
  intros Hinit Henc.
  unfold _inject_into_extension. rewrite bind_eq. unfold try_except. rewrite bind_eq.
  destruct (AppBundle_init_cases appex st)
    as [(e' & evs & H & _)|(doc & name & _ & _ & H)]; rewrite H in *;
    cbn [fst snd] in *; [discriminate|].
  injection Hinit as <-.
  cbn [mret M_ret]. rewrite bind_eq. unfold is_encrypted. rewrite query_eq.
  cbn [executable exe_path disk tool log] in *. rewrite Henc.
  unfold log, print. cbn [disk tool stdout trace]. rewrite <- app_assoc. reflexivity.
Qed.

(** What one extension adds to the output: at most one line.  A run that
    raises prints nothing; a run that returns prints one of the two skip
    messages, the success message, or, when no tweak is a dylib, possibly
    nothing; the success message is printed only when some tweak is a
    dylib. *)
Theorem extension_injection_output {T} {C : Collaborators T} (self : AppBundle)
    (appex : string) (tweaks : list (string * string)) (flag : bool) (st : state T) :
  let run := _inject_into_extension self appex tweaks flag st in
  let name := basename appex in
  exists out,
    stdout run.2 = stdout st ++ out
    /\ match run.1 with
       | Raise _ => out = []
       | Ok _ =>
           out = ["[?] skipping " +:+ name +:+ ": couldn't read Info.plist"]
           \/ out = ["[?] skipping " +:+ name +:+ ": encrypted"]
           \/ (out = ["[*] injected into extension: " +:+ name]
               /\ List.filter (fun kv => endswith kv.1 ".dylib") tweaks <> [])
           \/ (out = [] /\ List.filter (fun kv => endswith kv.1 ".dylib") tweaks = [])
       end.
Proof.
  cbn zeta.
  unfold _inject_into_extension. rewrite bind_eq. unfold try_except. rewrite bind_eq.
  destruct (AppBundle_init_cases appex st)
    as [(e & evs & H & _)|(doc & name & _ & _ & H)]; rewrite H; clear H.
  - destruct (is_Exception e).
    + eexists [_]. cbn [print mbind M_bind mret M_ret fst snd log stdout].
      split; [reflexivity|]. left. reflexivity.
    + exists []. cbn [fst snd log stdout]. rewrite app_nil_r. split; reflexivity.
  - cbn [mret M_ret]. rewrite bind_eq. unfold is_encrypted. rewrite query_eq.
    cbn [executable exe_path disk tool log]. unfold log. cbn [disk tool stdout trace].
    destruct (Executable_is_encrypted _ _ _) as [[|]|e].
    + eexists [_]. cbn [print fst snd stdout]. split; [reflexivity|].
      right. left. reflexivity.
    + destruct (List.filter (fun kv => endswith kv.1 ".dylib") tweaks)
        as [|kv dylibs] eqn:Hf.
      * exists []. cbn [mret M_ret fst snd stdout]. rewrite app_nil_r.
        split; [reflexivity|]. right. right. right. split; reflexivity.
      * match goal with
        | |- context [inject_and_sign ?b ?a ?n ?l ?f ?s] =>
            pose proof (inject_and_sign_stdout b a n l f s) as Hout;
            destruct (inject_and_sign b a n l f s) as [[[]|e] s'] eqn:Hrun
        end; cbn [fst snd stdout] in *.
        -- eexists [_]. split; [exact Hout|]. right. right. left.
           split; [reflexivity|discriminate].
        -- exists []. split; [exact Hout|reflexivity].
    + exists []. cbn [fst snd stdout]. rewrite app_nil_r. split; reflexivity.
Qed.

(* ===================================================================== *)
(** ** The further properties on the scripted package *)
(* ===================================================================== *)

(** [remove_watch_apps_reports] on a package with a watch placeholder. *)
Lemma remove_watch_apps_reports_witness :
  let names := ["Watch"; "WatchKit"; "com.apple.WatchPlaceholder"] in
  let st := start watch_disk app_script in
  let run := remove_watch_apps app st in
  forallb (fun n => negb (contains (path app) n)) names = true
  /\ run.1 = Ok tt
  /\ (stdout run.2
      = stdout st
          ++ [if existsb (fun n => path_exists (disk st) (path app +:+ "/" +:+ n)) names
              then "[*] removed watch app" else "[?] watch app not present"]
      /\ Forall (fun n => path_exists (disk run.2) (path app +:+ "/" +:+ n) = false) names
      /\ tool run.2 = tool st /\ trace run.2 = trace st).
Proof.
  cbn zeta.
  assert (forallb (fun n => negb (contains (path app) n))
            ["Watch"; "WatchKit"; "com.apple.WatchPlaceholder"] = true)
    as H1 by (vm_compute; reflexivity).
  assert ((remove_watch_apps app (start watch_disk app_script)).1 = Ok tt)
    as H2 by (vm_compute; reflexivity).
  split; [exact H1|]. split; [exact H2|].
  exact (remove_watch_apps_reports app (start watch_disk app_script) H1 H2).
Defined.

(** [remove_all_extensions_clears] on the package with its two
    extensions. *)
Lemma remove_all_extensions_clears_witness :
  let st := start app_disk app_script in
  let run := remove_all_extensions app st in
  has_magic (path app) = false
  /\ contains (path app) "Extensions" = false
  /\ contains (path app) "PlugIns" = false
  /\ run.1 = Ok tt
  /\ (get_all_appex app (disk run.2) = []
      /\ stdout run.2
         = stdout st
             ++ [if path_exists (disk st) (path app +:+ "/Extensions")
                    || path_exists (disk st) (path app +:+ "/PlugIns")
                 then "[*] removed app extensions" else "[?] no app extensions"]).
Proof.
  cbn zeta.
  assert (has_magic (path app) = false) as H0 by reflexivity.
  assert (contains (path app) "Extensions" = false) as H1 by reflexivity.
  assert (contains (path app) "PlugIns" = false) as H2 by reflexivity.
  assert ((remove_all_extensions app (start app_disk app_script)).1 = Ok tt)
    as H3 by (vm_compute; reflexivity).
  split; [exact H0|]. split; [exact H1|]. split; [exact H2|]. split; [exact H3|].
  exact (remove_all_extensions_clears app (start app_disk app_script) H0 H1 H2 H3).
Defined.

(** [get_executables_dispatch] on the extension [A] of the package. *)
Lemma get_executables_dispatch_witness :
  let ts := "/App.app/PlugIns/A.appex" in
  has_magic (path app) = false
  /\ endswith (path app) "/" = false
  /\ In ts (get_executables app app_disk)
  /\ (((In ts (glob_recursive app_disk (path app) ".dylib")
        /\ endswith ts ".dylib" = true)
       \/ (endswith ts ".dylib" = false
           /\ (endswith ts ".appex" = true \/ endswith ts ".framework" = true)))
      /\ startswith ts (path app +:+ "/") = true
      /\ exists rel, ts = path app +:+ "/" +:+ join "/" rel
                     /\ entries app_disk !! (canon app_disk (path app +:+ "/") ++ rel)
                        <> None).
Proof.
  cbn zeta.
  assert (has_magic (path app) = false) as H0 by reflexivity.
  assert (endswith (path app) "/" = false) as H1 by reflexivity.
  assert (In "/App.app/PlugIns/A.appex" (get_executables app app_disk)) as H
    by (vm_compute; repeat (first [left; reflexivity|right])).
  split; [exact H0|]. split; [exact H1|]. split; [exact H|].
  exact (get_executables_dispatch app app_disk "/App.app/PlugIns/A.appex" H0 H1 H).
Defined.

(** [get_all_appex_members] on the extension [B] of the package. *)
Lemma get_all_appex_members_witness :
  let p := "/App.app/PlugIns/B.appex" in
  has_magic (path app) = false
  /\ endswith (path app) "/" = false
  /\ In p (get_all_appex app app_disk)
  /\ ((exists n, (p = path app +:+ "/Extensions/" +:+ n
                  \/ p = path app +:+ "/PlugIns/" +:+ n)
                 /\ visible n = true /\ endswith n ".appex" = true)
      /\ path_exists app_disk p = true
      /\ (wf_disk app_disk = true -> In p (glob_one_level app_disk (path app) ".appex"))).
Proof.
  cbn zeta.
  assert (has_magic (path app) = false) as H0 by reflexivity.
  assert (endswith (path app) "/" = false) as H1 by reflexivity.
  assert (In "/App.app/PlugIns/B.appex" (get_all_appex app app_disk)) as H
    by (vm_compute; repeat (first [left; reflexivity|right])).
  split; [exact H0|]. split; [exact H1|]. split; [exact H|].
  exact (get_all_appex_members app app_disk "/App.app/PlugIns/B.appex" H0 H1 H).
Defined.

(** [encrypted_filter_removes_exactly] on the package where the
    extension [A] is encrypted. *)
Lemma encrypted_filter_removes_exactly_witness :
  let st := start app_disk encrypted_script in
  has_magic (path app) = false
  /\ endswith (path app) "/" = false
  /\ (remove_encrypted_extensions app st).1 = Ok tt
  /\ stdout (remove_encrypted_extensions app st).2
     = ["[*] removed encrypted plugins: A"]
  /\ (let plugins := glob_one_level (disk st) (path app) ".appex" in
    let run := remove_encrypted_extensions app st in
    exists vs rest evs,
      plugins = map v_plugin vs ++ rest
      /\ trace run.2 = trace st ++ evs
      /\ tool run.2 = tool st
      /\ Forall (fun v => In (EvIsEncrypted (v_plugin v +:+ "/" +:+ v_name v)
                                            (Ok (v_encrypted v))) evs) vs
      /\ Forall (declared_in (disk st) (tool st)) vs
      /\ Forall (fun v => v_encrypted v = true ->
                          path_exists (disk run.2) (v_plugin v) = false) vs
      /\ (wf_disk (disk st) = true ->
          Forall (fun v => v_encrypted v = true ->
                           forall k, under (canon (disk st) (v_plugin v)) k = true ->
                                     entries (disk run.2) !! k = None) vs)
      /\ (forall k, clear_of_encrypted (disk st) vs k = true ->
                    entries (disk run.2) !! k = entries (disk st) !! k)
      /\ (forall p k,
             In p plugins -> ~ In p (map v_plugin (List.filter v_encrypted vs)) ->
             under (canon (disk st) p) k = true ->
             entries (disk run.2) !! k = entries (disk st) !! k)
      /\ match run.1 with
         | Ok _ =>
             rest = []
             /\ stdout run.2
                = stdout st
                    ++ [match removed_names vs with
                        | [] => "[?] no encrypted plugins"
                        | _ :: _ =>
                            "[*] removed encrypted plugins: " +:+ join ", " (removed_names vs)
                        end]
         | Raise _ => rest <> [] /\ stdout run.2 = stdout st
         end).
Proof.
  cbn zeta.
  split; [reflexivity|]. split; [reflexivity|]. split; [vm_compute; reflexivity|].
  split; [vm_compute; reflexivity|].
  exact (encrypted_filter_removes_exactly app (start app_disk encrypted_script)
           eq_refl eq_refl).
Defined.

(** [filter_leaves_unencrypted_extensions] on the package where the
    extension [A] is encrypted: [B] is left. *)
Lemma filter_leaves_unencrypted_extensions_witness :
  let st := start app_disk encrypted_script in
  let p := "/App.app/PlugIns/B.appex" in
  has_magic (path app) = false
  /\ endswith (path app) "/" = false
  /\ wf_disk (disk st) = true
  /\ (remove_encrypted_extensions app st).1 = Ok tt
  /\ In p (get_all_appex app (disk (remove_encrypted_extensions app st).2))
  /\ (In p (get_all_appex app (disk st))
      /\ exists name evs,
          trace (remove_encrypted_extensions app st).2 = trace st ++ evs
          /\ In (EvIsEncrypted (p +:+ "/" +:+ name) (Ok false)) evs).
Proof.
  cbn zeta.
  assert (has_magic (path app) = false) as H0 by reflexivity.
  assert (endswith (path app) "/" = false) as H0' by reflexivity.
  assert (wf_disk (disk (start app_disk encrypted_script)) = true) as H1
    by (vm_compute; reflexivity).
  assert ((remove_encrypted_extensions app (start app_disk encrypted_script)).1 = Ok tt)
    as H2 by (vm_compute; reflexivity).
  assert (In "/App.app/PlugIns/B.appex"
            (get_all_appex app
               (disk (remove_encrypted_extensions app
                        (start app_disk encrypted_script)).2)))
    as H3 by (vm_compute; repeat (first [left; reflexivity|right])).
  split; [exact H0|]. split; [exact H0'|]. split; [exact H1|]. split; [exact H2|].
  split; [exact H3|].
  exact (filter_leaves_unencrypted_extensions app (start app_disk encrypted_script)
           "/App.app/PlugIns/B.appex" H0 H0' H1 H2 H3).
Defined.

(** [main_injection_failure_ends_run] with collaborators that refuse
    every call, the flag set. *)
Lemma main_injection_failure_ends_run_witness :
  let tweaks := [("t.dylib", "/src/t.dylib")] in
  let st := Refusing.start app_disk in
  (inject (executable app) tweaks "/tmp" false st).1 = Raise OSError
  /\ (inject_all_extensions app tweaks "/tmp" false true st
      = (Raise OSError, (inject (executable app) tweaks "/tmp" false st).2)
      /\ stdout (inject_all_extensions app tweaks "/tmp" false true st).2 = stdout st
      /\ trace (inject_all_extensions app tweaks "/tmp" false true st).2
         = trace st ++ [EvInject (exe_path (executable app)) (Raise OSError)]).
Proof.
  cbn zeta.
  assert ((inject (executable app) [("t.dylib", "/src/t.dylib")] "/tmp" false
             (Refusing.start app_disk)).1 = Raise OSError) as H by reflexivity.
  split; [exact H|].
  exact (main_injection_failure_ends_run app [("t.dylib", "/src/t.dylib")] "/tmp" false
           true (Refusing.start app_disk) OSError H).
Defined.

(** [no_extensions_message] on the package with nothing but its main
    executable. *)
Lemma no_extensions_message_witness :
  let tweaks := [("t.dylib", "/src/t.dylib")] in
  let st := start bare_disk app_script in
  let after_main := (inject (executable app) tweaks "/tmp" false st).2 in
  (inject (executable app) tweaks "/tmp" false st).1 = Ok tt
  /\ get_all_appex app (disk after_main) = []
  /\ inject_all_extensions app tweaks "/tmp" false true st
     = (Ok tt, mkState (disk after_main) (tool after_main)
                 (stdout st ++ ["[?] no app extensions found for -a"])
                 (trace st ++ [EvInject (exe_path (executable app)) (Ok tt)])).
Proof.
  cbn zeta.
  assert ((inject (executable app) [("t.dylib", "/src/t.dylib")] "/tmp" false
             (start bare_disk app_script)).1 = Ok tt) as H1 by reflexivity.
  assert (get_all_appex app
            (disk (inject (executable app) [("t.dylib", "/src/t.dylib")] "/tmp" false
                     (start bare_disk app_script)).2) = [])
    as H2 by (vm_compute; reflexivity).
  split; [exact H1|]. split; [exact H2|].
  exact (no_extensions_message app [("t.dylib", "/src/t.dylib")] "/tmp" false
           (start bare_disk app_script) H1 H2).
Defined.

(** [unreadable_extension_skipped] on the extension [A] when no document
    parses. *)
Lemma unreadable_extension_skipped_witness :
  let tweaks := [("t.dylib", "/src/t.dylib")] in
  let st := start app_disk quiet in
  let appex := "/App.app/PlugIns/A.appex" in
  (AppBundle_init appex st).1 = Raise (OtherException "invalid plist")
  /\ is_Exception (OtherException "invalid plist") = true
  /\ ((_inject_into_extension app appex tweaks false st).1 = Ok tt
      /\ stdout (_inject_into_extension app appex tweaks false st).2
         = stdout st
             ++ ["[?] skipping " +:+ basename appex +:+ ": couldn't read Info.plist"]
      /\ disk (_inject_into_extension app appex tweaks false st).2 = disk st
      /\ tool (_inject_into_extension app appex tweaks false st).2 = tool st
      /\ trace (_inject_into_extension app appex tweaks false st).2
         = trace (AppBundle_init appex st).2).
Proof.
  cbn zeta.
  assert ((AppBundle_init "/App.app/PlugIns/A.appex" (start app_disk quiet)).1
          = Raise (OtherException "invalid plist")) as H1 by (vm_compute; reflexivity).
  assert (is_Exception (OtherException "invalid plist") = true) as H2 by reflexivity.
  split; [exact H1|]. split; [exact H2|].
  exact (unreadable_extension_skipped app "/App.app/PlugIns/A.appex"
           [("t.dylib", "/src/t.dylib")] false (start app_disk quiet) _ H1 H2).
Defined.

(** [encrypted_extension_skipped] on the encrypted extension [A]. *)
Lemma encrypted_extension_skipped_witness :
  let tweaks := [("t.dylib", "/src/t.dylib")] in
  let st := start app_disk encrypted_script in
  let appex := "/App.app/PlugIns/A.appex" in
  let b := mkAppBundle appex
             (mkPlist (appex +:+ "/Info.plist")
                (list_to_map [("CFBundleExecutable", "A")]))
             (mkExecutable (appex +:+ "/A") "A") None in
  (AppBundle_init appex st).1 = Ok b
  /\ Executable_is_encrypted (executable b) (disk st) (tool st) = Ok true
  /\ _inject_into_extension app appex tweaks false st
     = (Ok tt,
        mkState (disk st) (tool st)
          (stdout st ++ ["[?] skipping " +:+ basename appex +:+ ": encrypted"])
          (trace st ++ [EvPlist (appex +:+ "/Info.plist") (Ok tt);
                        EvExecutable (exe_path (executable b)) (Ok tt);
                        EvIsEncrypted (exe_path (executable b)) (Ok true)])).
Proof.
  cbn zeta.
  assert ((AppBundle_init "/App.app/PlugIns/A.appex" (start app_disk encrypted_script)).1
          = Ok (mkAppBundle "/App.app/PlugIns/A.appex"
                  (mkPlist ("/App.app/PlugIns/A.appex" +:+ "/Info.plist")
                     (list_to_map [("CFBundleExecutable", "A")]))
                  (mkExecutable ("/App.app/PlugIns/A.appex" +:+ "/A") "A") None))
    as H1 by (vm_compute; reflexivity).
  assert (Executable_is_encrypted
            (executable (mkAppBundle "/App.app/PlugIns/A.appex"
                           (mkPlist ("/App.app/PlugIns/A.appex" +:+ "/Info.plist")
                              (list_to_map [("CFBundleExecutable", "A")]))
                           (mkExecutable ("/App.app/PlugIns/A.appex" +:+ "/A") "A") None))
            (disk (start app_disk encrypted_script))
            (tool (start app_disk encrypted_script)) = Ok true)
    as H2 by (vm_compute; reflexivity).
  split; [exact H1|]. split; [exact H2|].
  exact (encrypted_extension_skipped app "/App.app/PlugIns/A.appex"
           [("t.dylib", "/src/t.dylib")] false (start app_disk encrypted_script) _ H1 H2).
Defined.

(* ===================================================================== *)
(** ** The icon pipeline *)
(* ===================================================================== *)

Lemma dict_get_set_eq (d : pdict) (key : string) (v : pvalue) :
  dict_get (dict_set d key v) key = Some v.
Proof.
  induction d as [|[k w] d IH]; cbn [dict_set dict_get].
  - rewrite String.eqb_refl. reflexivity.
  - destruct (String.eqb k key) eqn:E; cbn [dict_get]; rewrite E; [reflexivity|exact IH].
Qed.

Lemma dict_get_set_ne (d : pdict) (key key' : string) (v : pvalue) :
  key <> key' -> dict_get (dict_set d key v) key' = dict_get d key'.
Proof.
  intros Hne. induction d as [|[k w] d IH]; cbn [dict_set dict_get].
  - destruct (String.eqb key key') eqn:E; [apply String.eqb_eq in E; contradiction|].
    reflexivity.
  - destruct (String.eqb k key) eqn:E; cbn [dict_get].
    + apply String.eqb_eq in E. subst k.
      destruct (String.eqb key key') eqn:E'; [apply String.eqb_eq in E'; contradiction|].
      reflexivity.
    + destruct (String.eqb k key'); [reflexivity|exact IH].
Qed.

Section IconFacts.
Context {T : Type} {I : Imaging T}.

Lemma image_save_eq (src : string) (size : option (nat * nat)) (dst : string)
    (st : state (icon_world T)) :
  exists r d t,
    image_save src size dst st
    = (r, mkState d (mkWorld (plist_document (tool st))
                             (calls (tool st) ++ [CallSave src size dst r]) t)
            (stdout st) (trace st)).
Proof.
  unfold image_save, icon_action.
  destruct (Image_save src size dst (disk st, pil (tool st))) as [r [d t]].
  exists r, d, t. reflexivity.
Qed.

(** The working copy: a source that ends in [.png] is copied by the
    standard library and no collaborator is called; any other source is
    opened and saved by the imaging library.  The document and the output
    are not touched. *)
Lemma normalize_icon_spec (path tmpath : string) (st : state (icon_world T)) :
  exists r d t cs,
    normalize_icon path tmpath st
    = (r, mkState d (mkWorld (plist_document (tool st)) (calls (tool st) ++ cs) t)
            (stdout st) (trace st))
    /\ Forall (fun c => is_plist_save c = false) cs
    /\ (r = Ok tt -> cs = conversion_calls path tmpath)
    /\ (endswith path ".png" = true ->
        cs = [] /\ t = pil (tool st) /\ (r, d) = copyfile path tmpath (disk st)).
Proof.
  unfold normalize_icon, conversion_calls.
  destruct (endswith path ".png") eqn:Hpng; cbn [negb].
  - unfold on_disk. destruct (copyfile path tmpath (disk st)) as [r d] eqn:Hcopy.
    exists r, d, (pil (tool st)), []. rewrite app_nil_r. destruct st as [d0 [doc cs t] out tr].
    cbn [disk tool stdout trace plist_document calls pil].
    split; [reflexivity|]. split; [constructor|]. split; [reflexivity|].
    intros _. split; [reflexivity|]. split; reflexivity.
  - rewrite bind_eq. unfold image_open, icon_query.
    destruct (Image_open path (disk st) (pil (tool st))) as [[]|e].
    + match goal with
      | |- context [image_save ?a ?b ?c ?s] =>
          destruct (image_save_eq a b c s) as (r & d & t & Hsave); rewrite Hsave
      end.
      cbn [disk tool stdout trace plist_document calls pil].
      exists r, d, t, [CallOpen path (Ok tt); CallSave path None tmpath r].
      rewrite <- app_assoc. split; [reflexivity|]. split; [repeat constructor|].
      split; [intros ->; reflexivity|discriminate].
    + exists (Raise e), (disk st), (pil (tool st)), [CallOpen path (Raise e)].
      split; [reflexivity|]. split; [repeat constructor|]. split; discriminate.
Qed.

(** The two derived images: three calls when all succeed; the document
    and the output are not touched. *)
Lemma write_icons_spec (self : AppBundle) (tmpath uid : string)
    (st : state (icon_world T)) :
  exists r d t cs,
    write_icons self tmpath (uid +:+ "60x60") (uid +:+ "76x76") st
    = (r, mkState d (mkWorld (plist_document (tool st)) (calls (tool st) ++ cs) t)
            (stdout st) (trace st))
    /\ Forall (fun c => is_plist_save c = false) cs
    /\ (r = Ok tt -> cs = derivation_calls (path self) tmpath uid).
Proof.
  unfold write_icons, derivation_calls. rewrite bind_eq. unfold image_open, icon_query.
  destruct (Image_open tmpath (disk st) (pil (tool st))) as [[]|e].
  2:{ exists (Raise e), (disk st), (pil (tool st)), [CallOpen tmpath (Raise e)].
      split; [reflexivity|]. split; [repeat constructor|]. discriminate. }
  rewrite bind_eq.
  match goal with
  | |- context [image_save ?a ?b ?c ?s] =>
      destruct (image_save_eq a b c s) as (r1 & d1 & t1 & Hsave1); rewrite Hsave1
  end.
  cbn [disk tool stdout trace plist_document calls pil].
  destruct r1 as [[]|e].
  2:{ exists (Raise e), d1, t1, [CallOpen tmpath (Ok tt); CallSave tmpath (Some (120, 120)) (path self +:+ "/" +:+ (uid +:+ "60x60") +:+ "@2x.png") (Raise e)].
      rewrite <- app_assoc. split; [reflexivity|]. split; [repeat constructor|].
      discriminate. }
  match goal with
  | |- context [image_save ?a ?b ?c ?s] =>
      destruct (image_save_eq a b c s) as (r2 & d2 & t2 & Hsave2); rewrite Hsave2
  end.
  cbn [disk tool stdout trace plist_document calls pil].
  exists r2, d2, t2,
    [CallOpen tmpath (Ok tt);
     CallSave tmpath (Some (120, 120)) (path self +:+ "/" +:+ (uid +:+ "60x60") +:+ "@2x.png")
       (Ok tt);
     CallSave tmpath (Some (152, 152))
       (path self +:+ "/" +:+ (uid +:+ "76x76") +:+ "@2x~ipad.png") r2].
  rewrite <- !app_assoc. split; [reflexivity|]. split; [repeat constructor|].
  intros ->. rewrite <- !string_app_assoc. reflexivity.
Qed.

(** The update of the declarations works on the document in memory only.
    It succeeds when the two declarations, where present, are
    dictionaries, and raises [TypeError] otherwise; keys other than the
    two are as they were. *)
Lemma declare_icons_spec (uid i60 i76 : string) (st : state (icon_world T)) :
  exists r doc',
    declare_icons uid i60 i76 st = (r, with_document doc' st)
    /\ (forall k, k <> "CFBundleIcons" -> k <> "CFBundleIcons~ipad" ->
                  dict_get doc' k = dict_get (plist_document (tool st)) k)
    /\ match declared_icons (plist_document (tool st)) "CFBundleIcons",
             declared_icons (plist_document (tool st)) "CFBundleIcons~ipad" with
       | Some a, Some b =>
           r = Ok tt
           /\ dict_get doc' "CFBundleIcons"
              = Some (PDict (dict_union a (primary_icon [i60] uid)))
           /\ dict_get doc' "CFBundleIcons~ipad"
              = Some (PDict (dict_union b (primary_icon [i60; i76] uid)))
       | _, _ => r = Raise (OtherException "TypeError")
       end.
Proof.
  assert ("CFBundleIcons" <> "CFBundleIcons~ipad") as Hne by discriminate.
  assert ("CFBundleIcons~ipad" <> "CFBundleIcons") as Hne' by discriminate.
  destruct st as [d [doc cs t] out tr].
  unfold declare_icons, declared_icons, with_document.
  cbn [disk tool stdout trace plist_document calls pil].
  rewrite bind_eq. unfold plist_contains at 1, dict_contains.
  cbn [disk tool stdout trace plist_document calls pil].
  destruct (dict_get doc "CFBundleIcons") as [[s1|b1|l1|a1]|] eqn:Ei;
    destruct (dict_get doc "CFBundleIcons~ipad") as [[s2|b2|l2|a2]|] eqn:Ep;
    repeat (rewrite ?bind_eq;
            unfold plist_contains, plist_getitem, plist_setitem, lift_result,
              dict_contains, or_dict;
            cbn [mret M_ret disk tool stdout trace plist_document calls pil];
            rewrite ?dict_get_set_eq, ?(dict_get_set_ne _ _ _ _ Hne),
              ?(dict_get_set_ne _ _ _ _ Hne'), ?Ei, ?Ep).
  all: eexists _, _; (split; [reflexivity|]);
    (split; [intros k Hk1 Hk2; rewrite ?dict_get_set_ne by congruence; reflexivity|]).
  all: try reflexivity.
  all: split; [reflexivity|].
  all: rewrite ?dict_get_set_eq, ?(dict_get_set_ne _ _ _ _ Hne),
         ?(dict_get_set_ne _ _ _ _ Hne'), ?dict_get_set_eq.
  all: split; reflexivity.
Qed.

(** How a run goes once the imaging library is imported. *)
Lemma replace_icon_cases (self : AppBundle) (source tmpdir : string)
    (st : state (icon_world T)) :
  exists r d t doc' cs out,
    replace_icon self source tmpdir st
    = (r, mkState d (mkWorld doc' (calls (tool st) ++ cs) t) (stdout st ++ out) (trace st))
    /\ (forall k, k <> "CFBundleIcons" -> k <> "CFBundleIcons~ipad" ->
                  dict_get doc' k = dict_get (plist_document (tool st)) k)
    /\ match r with
       | Ok _ =>
           exists hex a b,
             out = ["[*] updated app icon"]
             /\ cs = conversion_calls source (tmpdir +:+ "/icon.png")
                      ++ CallUuid hex
                      :: derivation_calls (path self) (tmpdir +:+ "/icon.png") (asset_id hex)
                      ++ [CallPlistSave (plist_path (plist self)) doc' (Ok tt)]
             /\ declared_icons (plist_document (tool st)) "CFBundleIcons" = Some a
             /\ declared_icons (plist_document (tool st)) "CFBundleIcons~ipad" = Some b
             /\ dict_get doc' "CFBundleIcons"
                = Some (PDict (dict_union a (primary_icon [asset_id hex +:+ "60x60"]
                                                          (asset_id hex))))
             /\ dict_get doc' "CFBundleIcons~ipad"
                = Some (PDict (dict_union b (primary_icon [asset_id hex +:+ "60x60";
                                                           asset_id hex +:+ "76x76"]
                                                          (asset_id hex))))
       | Raise e =>
           out = []
           /\ Forall (fun c => is_saved c = false) cs
           /\ (Forall (fun c => is_plist_save c = false) cs ->
               declared_icons (plist_document (tool st)) "CFBundleIcons" <> None ->
               declared_icons (plist_document (tool st)) "CFBundleIcons~ipad" <> None ->
               doc' = plist_document (tool st))
           /\ (declared_icons (plist_document (tool st)) "CFBundleIcons" = None
               \/ declared_icons (plist_document (tool st)) "CFBundleIcons~ipad" = None ->
               Forall (fun c => is_plist_save c = false) cs)
       end.
Proof.
  unfold replace_icon. cbn zeta. rewrite bind_eq.
  destruct (normalize_icon_spec source (tmpdir +:+ "/icon.png") st)
    as (r1 & d1 & t1 & cs1 & H1 & Hns1 & Hok1 & _).
  rewrite H1. clear H1.
  assert (forall cs, Forall (fun c => is_plist_save c = false) cs ->
                     Forall (fun c => is_saved c = false) cs) as Hweak.
  { intros cs Hcs. eapply Forall_impl; [exact Hcs|]. intros [] Hc; try reflexivity.
    discriminate. }
  destruct r1 as [[]|e].
  2:{ exists (Raise e), d1, t1, (plist_document (tool st)), cs1, [].
      rewrite app_nil_r. split; [reflexivity|]. split; [reflexivity|].
      split; [reflexivity|]. split; [apply Hweak; exact Hns1|].
      split; [reflexivity|]. intros _. exact Hns1. }
  specialize (Hok1 eq_refl). subst cs1.
  rewrite bind_eq. unfold uuid4. cbn [disk tool stdout trace plist_document calls pil].
  destruct (uuid4_hex t1) as [hex t2]. fold (asset_id hex). rewrite bind_eq.
  match goal with
  | |- context [write_icons ?s ?p _ _ ?st'] =>
      destruct (write_icons_spec s p (asset_id hex) st')
        as (r3 & d3 & t3 & cs3 & H3 & Hns3 & Hok3)
  end.
  rewrite H3. clear H3. cbn [disk tool stdout trace plist_document calls pil].
  assert (Forall (fun c => is_plist_save c = false)
            (conversion_calls source (tmpdir +:+ "/icon.png") ++ CallUuid hex :: cs3))
    as Hns.
  { apply Forall_app. split; [exact Hns1|]. constructor; [reflexivity|exact Hns3]. }
  destruct r3 as [[]|e].
  2:{ exists (Raise e), d3, t3, (plist_document (tool st)),
        (conversion_calls source (tmpdir +:+ "/icon.png") ++ CallUuid hex :: cs3), [].
      rewrite app_nil_r, <- !app_assoc. split; [reflexivity|]. split; [reflexivity|].
      split; [reflexivity|]. split; [apply Hweak; exact Hns|].
      split; [reflexivity|]. intros _. exact Hns. }
  specialize (Hok3 eq_refl). subst cs3. rewrite bind_eq.
  match goal with
  | |- context [declare_icons ?u ?a ?b ?st'] =>
      destruct (declare_icons_spec u a b st') as (r4 & doc' & H4 & Hframe & Hdecl)
  end.
  rewrite H4. clear H4. unfold with_document in *.
  cbn [disk tool stdout trace plist_document calls pil] in *.
  destruct r4 as [[]|e].
  - destruct (declared_icons (plist_document (tool st)) "CFBundleIcons") as [a|] eqn:Ea;
      [|discriminate].
    destruct (declared_icons (plist_document (tool st)) "CFBundleIcons~ipad") as [b|] eqn:Eb;
      [|discriminate].
    destruct Hdecl as (_ & Hi & Hp).
    rewrite bind_eq. unfold plist_save, icon_action.
    cbn [disk tool stdout trace plist_document calls pil].
    destruct (Plist_save (plist_path (plist self)) doc' (d3, t3)) as [[[]|e] [d5 t5]].
    + cbn [print disk tool stdout trace].
      eexists (Ok tt), d5, t5, doc', _, _. rewrite <- !app_assoc.
      split; [reflexivity|]. split; [exact Hframe|].
      exists hex, a, b. split; [reflexivity|]. split; [reflexivity|].
      split; [reflexivity|]. split; [reflexivity|]. split; [exact Hi|exact Hp].
    + eexists (Raise e), d5, t5, doc', _, []. rewrite (app_nil_r (stdout st)), <- !app_assoc.
      split; [reflexivity|]. split; [exact Hframe|]. split; [reflexivity|].
      split.
      * apply Forall_app. split; [apply Hweak; exact Hns1|]. repeat constructor.
      * split.
        -- intros Habs. exfalso. rewrite List.Forall_forall in Habs.
           specialize (Habs (CallPlistSave (plist_path (plist self)) doc' (Raise e))).
           assert (is_plist_save (CallPlistSave (plist_path (plist self)) doc' (Raise e))
                   = false) as Hc; [|discriminate].
           apply Habs. do 3 (apply in_or_app; right). left. reflexivity.
        -- intros [?|?]; discriminate.
  - exists (Raise e), d3, t3, doc',
      (conversion_calls source (tmpdir +:+ "/icon.png")
         ++ CallUuid hex
         :: derivation_calls (path self) (tmpdir +:+ "/icon.png") (asset_id hex)), [].
    rewrite app_nil_r, <- !app_assoc. split; [reflexivity|]. split; [exact Hframe|].
    split; [reflexivity|]. split; [apply Hweak; exact Hns|].
    split; [|intros _; exact Hns].
    intros _ Ha Hb.
    destruct (declared_icons (plist_document (tool st)) "CFBundleIcons"); [|contradiction].
    destruct (declared_icons (plist_document (tool st)) "CFBundleIcons~ipad");
      [|contradiction].
    destruct Hdecl as [? _]. discriminate.
Qed.

(** With the library imported, [change_icon] is the replacement
    itself. *)
Lemma change_icon_imported (self : AppBundle) (source tmpdir : string)
    (st : state (icon_world T)) :
  PIL_import (disk st) (pil (tool st)) = Ok tt ->
  change_icon self source tmpdir st
  = replace_icon self source tmpdir
      (mkState (disk st)
         (mkWorld (plist_document (tool st)) (calls (tool st) ++ [CallImport (Ok tt)])
                  (pil (tool st)))
         (stdout st) (trace st)).
Proof.
  intros Himp. unfold change_icon. rewrite bind_eq. unfold try_except.
  rewrite bind_eq. unfold pil_import, icon_query. rewrite Himp. reflexivity.
Qed.

End IconFacts.

(** Without the imaging library [change_icon] is a no-op with a
    diagnostic: when the import raises an exception that derives from
    [Exception], the call returns normally, prints the one line
    [[?] pillow is not installed, -k is not available] and changes neither
    the disk nor the document; the import is the only call made. *)
Theorem change_icon_without_pillow {T} {I : Imaging T} (self : AppBundle)
    (source tmpdir : string) (st : state (icon_world T)) (e : exn) :
  PIL_import (disk st) (pil (tool st)) = Raise e ->
  is_Exception e = true ->
  change_icon self source tmpdir st
  = (Ok tt,
     mkState (disk st)
       (mkWorld (plist_document (tool st)) (calls (tool st) ++ [CallImport (Raise e)])
                (pil (tool st)))
       (stdout st ++ ["[?] pillow is not installed, -k is not available"])
       (trace st)).
Proof.
  intros Himp He. unfold change_icon. rewrite bind_eq. unfold try_except.
  rewrite bind_eq. unfold pil_import, icon_query. rewrite Himp, He. reflexivity.
Qed.

Lemma string_length_app (s1 s2 : string) :
  String.length (s1 +:+ s2) = String.length s1 + String.length s2.
Proof. induction s1 as [|c s1 IH]; simpl; [reflexivity|rewrite IH; reflexivity]. Qed.

Lemma substring_length_le (n : nat) (s : string) :
  String.length (substring 0 n s) <= n.
Proof.
  revert s. induction n as [|n IH]; intros [|c s]; simpl; try lia.
  specialize (IH s). lia.
Qed.

(** The calls of a completed replacement, in order: the import; for a
    source that does not end in [.png], the open and the save of the
    working copy [<tmpdir>/icon.png] (none for a [.png] source, which is
    copied); the identifier; the open of the working copy and the saves of
    [<root>/<id>60x60@2x.png] at 120x120 and [<root>/<id>76x76@2x~ipad.png]
    at 152x152; the save of the document as it is in memory at the end.
    The identifier, made from the hexadecimal string the uuid call
    returned, starts with [cyan_], ends in the letter [a] (so not in a
    numeral) whatever that string is, and has at most 13 characters.  The
    last line printed is [[*] updated app icon]. *)
Theorem change_icon_calls {T} {I : Imaging T} (self : AppBundle)
    (source tmpdir : string) (st : state (icon_world T)) :
  let run := change_icon self source tmpdir st in
  let tmpath := tmpdir +:+ "/icon.png" in
  PIL_import (disk st) (pil (tool st)) = Ok tt ->
  run.1 = Ok tt ->
  exists hex,
    calls (tool run.2)
    = calls (tool st)
        ++ CallImport (Ok tt)
        :: conversion_calls source tmpath
        ++ CallUuid hex
        :: derivation_calls (path self) tmpath (asset_id hex)
        ++ [CallPlistSave (plist_path (plist self)) (plist_document (tool run.2)) (Ok tt)]
    /\ startswith (asset_id hex) "cyan_" = true
    /\ endswith (asset_id hex) "a" = true
    /\ String.length (asset_id hex) <= 13
    /\ stdout run.2 = stdout st ++ ["[*] updated app icon"].
Proof.
  cbn zeta. intros Himp. rewrite (change_icon_imported self source tmpdir st Himp).
  match goal with
  | |- context [replace_icon self source tmpdir ?s] =>
      destruct (replace_icon_cases self source tmpdir s)
        as (r & d & t & doc' & cs & out & Hrun & _ & Hr)
  end.
  rewrite Hrun. cbn [fst snd disk tool stdout trace plist_document calls pil] in *.
  intros ->. destruct Hr as (hex & a & b & -> & -> & _).
  exists hex. rewrite <- !app_assoc. split; [reflexivity|]. split; [reflexivity|].
  split; [unfold asset_id; apply endswith_app, endswith_app, endswith_refl|].
  split; [|reflexivity].
  unfold asset_id. rewrite !string_length_app.
  pose proof (substring_length_le 7 hex). simpl String.length. lia.
Qed.

(** The document after a completed replacement: the two declarations are
    dictionaries whose [CFBundlePrimaryIcon] entry is the new one, whole
    (the icon files [<id>60x60], and [<id>76x76] too for the iPad, and the
    icon name [<id>]); every other entry of the two declarations, and
    every other key of the document, is as before. *)
Theorem change_icon_merges {T} {I : Imaging T} (self : AppBundle)
    (source tmpdir : string) (st : state (icon_world T)) :
  let run := change_icon self source tmpdir st in
  let doc := plist_document (tool st) in
  let doc' := plist_document (tool run.2) in
  PIL_import (disk st) (pil (tool st)) = Ok tt ->
  run.1 = Ok tt ->
  exists hex a b a' b',
    In (CallUuid hex) (calls (tool run.2))
    /\ declared_icons doc "CFBundleIcons" = Some a
    /\ declared_icons doc "CFBundleIcons~ipad" = Some b
    /\ dict_get doc' "CFBundleIcons" = Some (PDict a')
    /\ dict_get doc' "CFBundleIcons~ipad" = Some (PDict b')
    /\ dict_get a' "CFBundlePrimaryIcon"
       = Some (PDict [("CFBundleIconFiles", PList [PStr (asset_id hex +:+ "60x60")]);
                      ("CFBundleIconName", PStr (asset_id hex))])
    /\ dict_get b' "CFBundlePrimaryIcon"
       = Some (PDict [("CFBundleIconFiles",
                       PList [PStr (asset_id hex +:+ "60x60");
                              PStr (asset_id hex +:+ "76x76")]);
                      ("CFBundleIconName", PStr (asset_id hex))])
    /\ (forall k, k <> "CFBundlePrimaryIcon" ->
                  dict_get a' k = dict_get a k /\ dict_get b' k = dict_get b k)
    /\ (forall k, k <> "CFBundleIcons" -> k <> "CFBundleIcons~ipad" ->
                  dict_get doc' k = dict_get doc k).
Proof.
  cbn zeta. intros Himp. rewrite (change_icon_imported self source tmpdir st Himp).
  match goal with
  | |- context [replace_icon self source tmpdir ?s] =>
      destruct (replace_icon_cases self source tmpdir s)
        as (r & d & t & doc' & cs & out & Hrun & Hframe & Hr)
  end.
  rewrite Hrun. cbn [fst snd disk tool stdout trace plist_document calls pil] in *.
  intros ->. destruct Hr as (hex & a & b & _ & -> & Ha & Hb & Hi & Hp).
  exists hex, a, b. eexists _, _.
  split; [do 2 (apply in_or_app; right); left; reflexivity|].
  split; [exact Ha|]. split; [exact Hb|]. split; [exact Hi|]. split; [exact Hp|].
  unfold dict_union, primary_icon. cbn [fold_left fst snd map].
  split; [apply dict_get_set_eq|]. split; [apply dict_get_set_eq|].
  split; [|exact Hframe].
  intros k Hk. split; apply dict_get_set_ne; congruence.
Qed.

(** A replacement that raises prints nothing and never saves the
    document; in memory, the keys other than the two declarations are as
    before, and when the declarations were well formed and no save was
    attempted (an imaging or copy failure), the whole document is. *)
Theorem change_icon_failure {T} {I : Imaging T} (self : AppBundle)
    (source tmpdir : string) (st : state (icon_world T)) (e : exn) :
  let run := change_icon self source tmpdir st in
  let doc := plist_document (tool st) in
  let doc' := plist_document (tool run.2) in
  PIL_import (disk st) (pil (tool st)) = Ok tt ->
  run.1 = Raise e ->
  stdout run.2 = stdout st
  /\ exists cs,
      calls (tool run.2) = calls (tool st) ++ CallImport (Ok tt) :: cs
      /\ Forall (fun c => is_saved c = false) cs
      /\ (forall k, k <> "CFBundleIcons" -> k <> "CFBundleIcons~ipad" ->
                    dict_get doc' k = dict_get doc k)
      /\ (Forall (fun c => is_plist_save c = false) cs ->
          declared_icons doc "CFBundleIcons" <> None ->
          declared_icons doc "CFBundleIcons~ipad" <> None ->
          doc' = doc).
Proof.
  cbn zeta. intros Himp. rewrite (change_icon_imported self source tmpdir st Himp).
  match goal with
  | |- context [replace_icon self source tmpdir ?s] =>
      destruct (replace_icon_cases self source tmpdir s)
        as (r & d & t & doc' & cs & out & Hrun & Hframe & Hr)
  end.
  rewrite Hrun. cbn [fst snd disk tool stdout trace plist_document calls pil] in *.
  intros ->. destruct Hr as (-> & Hsaved & Hsame & _).
  split; [apply app_nil_r|]. exists cs. rewrite <- app_assoc.
  split; [reflexivity|]. split; [exact Hsaved|]. split; [exact Hframe|exact Hsame].
Qed.

(** A declaration that is present and is not a dictionary makes the
    replacement fail: the call raises, prints nothing and does not attempt
    to save the document. *)
Theorem change_icon_malformed_declaration {T} {I : Imaging T} (self : AppBundle)
    (source tmpdir : string) (st : state (icon_world T)) :
  let run := change_icon self source tmpdir st in
  let doc := plist_document (tool st) in
  PIL_import (disk st) (pil (tool st)) = Ok tt ->
  declared_icons doc "CFBundleIcons" = None
  \/ declared_icons doc "CFBundleIcons~ipad" = None ->
  exists e cs,
    run.1 = Raise e
    /\ stdout run.2 = stdout st
    /\ calls (tool run.2) = calls (tool st) ++ CallImport (Ok tt) :: cs
    /\ Forall (fun c => is_plist_save c = false) cs.
Proof.
  cbn zeta. intros Himp Hbad. rewrite (change_icon_imported self source tmpdir st Himp).
  match goal with
  | |- context [replace_icon self source tmpdir ?s] =>
      destruct (replace_icon_cases self source tmpdir s)
        as (r & d & t & doc' & cs & out & Hrun & Hframe & Hr)
  end.
  rewrite Hrun. cbn [fst snd disk tool stdout trace plist_document calls pil] in *.
  destruct r as [[]|e].
  - destruct Hr as (hex & a & b & _ & _ & Ha & Hb & _).
    destruct Hbad as [Hbad|Hbad]; congruence.
  - destruct Hr as (-> & _ & _ & Hnone).
    exists e, cs. split; [reflexivity|]. split; [apply app_nil_r|].
    rewrite <- app_assoc. split; [reflexivity|exact (Hnone Hbad)].
Qed.

(** A source that ends in [.png] is copied, not converted, and the copy
    is not guarded: when [shutil.copyfile] raises, [change_icon] raises
    the same exception right after the import; no image is opened, the
    disk and the document are as they were and nothing is printed. *)
Theorem png_copy_failure_ends_run {T} {I : Imaging T} (self : AppBundle)
    (source tmpdir : string) (st : state (icon_world T)) (e : exn) :
  PIL_import (disk st) (pil (tool st)) = Ok tt ->
  endswith source ".png" = true ->
  (copyfile source (tmpdir +:+ "/icon.png") (disk st)).1 = Raise e ->
  change_icon self source tmpdir st
  = (Raise e,
     mkState (disk st)
       (mkWorld (plist_document (tool st)) (calls (tool st) ++ [CallImport (Ok tt)])
                (pil (tool st)))
       (stdout st) (trace st)).
Proof.
  intros Himp Hpng Hcopy. rewrite (change_icon_imported self source tmpdir st Himp).
  unfold replace_icon. cbn zeta. rewrite bind_eq. unfold normalize_icon.
  rewrite Hpng. cbn [negb]. unfold on_disk.
  cbn [disk tool stdout trace plist_document calls pil].
  assert ((copyfile source (tmpdir +:+ "/icon.png") (disk st)).2 = disk st) as Hdisk.
  { revert Hcopy. unfold copyfile.
    repeat match goal with
           | |- context [match ?x with _ => _ end] => destruct x
           end; cbn [fst snd]; intros; first [reflexivity|discriminate]. }
  destruct (copyfile source (tmpdir +:+ "/icon.png") (disk st)) as [r d].
  cbn [fst snd] in *. subst r d. reflexivity.
Qed.

(* ===================================================================== *)
(** ** The icon pipeline on the scripted package *)
(* ===================================================================== *)

(** A replacement from a JPEG on a document that already declares icons:
    the alternate icons survive, the primary icon is the new one and has
    lost the flag the old one carried, the iPad declaration is created,
    and the two images are in the package. *)
Example icon_replacement_scenario :
  let st := ScriptedIcon.start ScriptedIcon.icon_disk ScriptedIcon.icon_document true in
  let run := change_icon app "/src/icon.jpg" "/tmp" st in
  run.1 = Ok tt
  /\ plist_document (tool run.2)
     = [("CFBundleExecutable", PStr "App");
        ("CFBundleIcons",
         PDict [("CFBundleAlternateIcons", PDict [("dark", PDict [])]);
                ("CFBundlePrimaryIcon",
                 PDict [("CFBundleIconFiles", PList [PStr "cyan_0123456a60x60"]);
                        ("CFBundleIconName", PStr "cyan_0123456a")])]);
        ("CFBundleIcons~ipad",
         PDict [("CFBundlePrimaryIcon",
                 PDict [("CFBundleIconFiles",
                         PList [PStr "cyan_0123456a60x60"; PStr "cyan_0123456a76x76"]);
                        ("CFBundleIconName", PStr "cyan_0123456a")])])]
  /\ path_exists (disk run.2) "/App.app/cyan_0123456a60x60@2x.png" = true
  /\ path_exists (disk run.2) "/App.app/cyan_0123456a76x76@2x~ipad.png" = true
  /\ stdout run.2 = ["[*] updated app icon"].
Proof. vm_compute. repeat split. Qed.

(** A declaration that is a string: the run raises [TypeError] after the
    two images were written to the package. *)
Example icon_type_error_after_images :
  let st := ScriptedIcon.start ScriptedIcon.icon_disk ScriptedIcon.odd_document true in
  let run := change_icon app "/src/icon.png" "/tmp" st in
  run.1 = Raise (OtherException "TypeError")
  /\ path_exists (disk run.2) "/App.app/cyan_0123456a60x60@2x.png" = true
  /\ path_exists (disk run.2) "/App.app/cyan_0123456a76x76@2x~ipad.png" = true
  /\ stat (disk run.2) "/tmp/icon.png" = Some (File "png data")
  /\ stdout run.2 = [].
Proof. vm_compute. repeat split. Qed.

(** [change_icon_without_pillow] when the library is not installed. *)
Lemma change_icon_without_pillow_witness :
  let st := ScriptedIcon.start ScriptedIcon.icon_disk ScriptedIcon.icon_document false in
  let e := OtherException "ModuleNotFoundError" in
  PIL_import (disk st) (pil (tool st)) = Raise e
  /\ is_Exception e = true
  /\ change_icon app "/src/icon.png" "/tmp" st
     = (Ok tt,
        mkState (disk st)
          (mkWorld (plist_document (tool st)) (calls (tool st) ++ [CallImport (Raise e)])
                   (pil (tool st)))
          (stdout st ++ ["[?] pillow is not installed, -k is not available"])
          (trace st)).
Proof.
  cbn zeta.
  assert (PIL_import
            (disk (ScriptedIcon.start ScriptedIcon.icon_disk ScriptedIcon.icon_document
                     false))
            (pil (tool (ScriptedIcon.start ScriptedIcon.icon_disk
                          ScriptedIcon.icon_document false)))
          = Raise (OtherException "ModuleNotFoundError")) as H1 by reflexivity.
  assert (is_Exception (OtherException "ModuleNotFoundError") = true) as H2 by reflexivity.
  split; [exact H1|]. split; [exact H2|].
  exact (change_icon_without_pillow app "/src/icon.png" "/tmp"
           (ScriptedIcon.start ScriptedIcon.icon_disk ScriptedIcon.icon_document false)
           _ H1 H2).
Defined.

(** [change_icon_calls] on a replacement from a JPEG. *)
Lemma change_icon_calls_witness :
  let st := ScriptedIcon.start ScriptedIcon.icon_disk ScriptedIcon.icon_document true in
  let run := change_icon app "/src/icon.jpg" "/tmp" st in
  let tmpath := "/tmp" +:+ "/icon.png" in
  PIL_import (disk st) (pil (tool st)) = Ok tt
  /\ run.1 = Ok tt
  /\ exists hex,
      calls (tool run.2)
      = calls (tool st)
          ++ CallImport (Ok tt)
          :: conversion_calls "/src/icon.jpg" tmpath
          ++ CallUuid hex
          :: derivation_calls (path app) tmpath (asset_id hex)
          ++ [CallPlistSave (plist_path (plist app)) (plist_document (tool run.2))
                (Ok tt)]
      /\ startswith (asset_id hex) "cyan_" = true
      /\ endswith (asset_id hex) "a" = true
      /\ String.length (asset_id hex) <= 13
      /\ stdout run.2 = stdout st ++ ["[*] updated app icon"].
Proof.
  cbn zeta.
  assert (PIL_import
            (disk (ScriptedIcon.start ScriptedIcon.icon_disk ScriptedIcon.icon_document
                     true))
            (pil (tool (ScriptedIcon.start ScriptedIcon.icon_disk
                          ScriptedIcon.icon_document true)))
          = Ok tt) as H1 by reflexivity.
  assert ((change_icon app "/src/icon.jpg" "/tmp"
             (ScriptedIcon.start ScriptedIcon.icon_disk ScriptedIcon.icon_document true)).1
          = Ok tt) as H2 by (vm_compute; reflexivity).
  split; [exact H1|]. split; [exact H2|].
  exact (change_icon_calls app "/src/icon.jpg" "/tmp"
           (ScriptedIcon.start ScriptedIcon.icon_disk ScriptedIcon.icon_document true)
           H1 H2).
Defined.

(** [change_icon_merges] on a replacement from a PNG. *)
Lemma change_icon_merges_witness :
  let st := ScriptedIcon.start ScriptedIcon.icon_disk ScriptedIcon.icon_document true in
  let run := change_icon app "/src/icon.png" "/tmp" st in
  let doc := plist_document (tool st) in
  let doc' := plist_document (tool run.2) in
  PIL_import (disk st) (pil (tool st)) = Ok tt
  /\ run.1 = Ok tt
  /\ exists hex a b a' b',
      In (CallUuid hex) (calls (tool run.2))
      /\ declared_icons doc "CFBundleIcons" = Some a
      /\ declared_icons doc "CFBundleIcons~ipad" = Some b
      /\ dict_get doc' "CFBundleIcons" = Some (PDict a')
      /\ dict_get doc' "CFBundleIcons~ipad" = Some (PDict b')
      /\ dict_get a' "CFBundlePrimaryIcon"
         = Some (PDict [("CFBundleIconFiles", PList [PStr (asset_id hex +:+ "60x60")]);
                        ("CFBundleIconName", PStr (asset_id hex))])
      /\ dict_get b' "CFBundlePrimaryIcon"
         = Some (PDict [("CFBundleIconFiles",
                         PList [PStr (asset_id hex +:+ "60x60");
                                PStr (asset_id hex +:+ "76x76")]);
                        ("CFBundleIconName", PStr (asset_id hex))])
      /\ (forall k, k <> "CFBundlePrimaryIcon" ->
                    dict_get a' k = dict_get a k /\ dict_get b' k = dict_get b k)
      /\ (forall k, k <> "CFBundleIcons" -> k <> "CFBundleIcons~ipad" ->
                    dict_get doc' k = dict_get doc k).
Proof.
  cbn zeta.
  assert (PIL_import
            (disk (ScriptedIcon.start ScriptedIcon.icon_disk ScriptedIcon.icon_document
                     true))
            (pil (tool (ScriptedIcon.start ScriptedIcon.icon_disk
                          ScriptedIcon.icon_document true)))
          = Ok tt) as H1 by reflexivity.
  assert ((change_icon app "/src/icon.png" "/tmp"
             (ScriptedIcon.start ScriptedIcon.icon_disk ScriptedIcon.icon_document true)).1
          = Ok tt) as H2 by (vm_compute; reflexivity).
  split; [exact H1|]. split; [exact H2|].
  exact (change_icon_merges app "/src/icon.png" "/tmp"
           (ScriptedIcon.start ScriptedIcon.icon_disk ScriptedIcon.icon_document true)
           H1 H2).
Defined.

(** [change_icon_failure] on a source image that does not exist. *)
Lemma change_icon_failure_witness :
  let st := ScriptedIcon.start ScriptedIcon.icon_disk ScriptedIcon.icon_document true in
  let run := change_icon app "/src/missing.jpg" "/tmp" st in
  let doc := plist_document (tool st) in
  let doc' := plist_document (tool run.2) in
  PIL_import (disk st) (pil (tool st)) = Ok tt
  /\ run.1 = Raise FileNotFoundError
  /\ (stdout run.2 = stdout st
      /\ exists cs,
          calls (tool run.2) = calls (tool st) ++ CallImport (Ok tt) :: cs
          /\ Forall (fun c => is_saved c = false) cs
          /\ (forall k, k <> "CFBundleIcons" -> k <> "CFBundleIcons~ipad" ->
                        dict_get doc' k = dict_get doc k)
          /\ (Forall (fun c => is_plist_save c = false) cs ->
              declared_icons doc "CFBundleIcons" <> None ->
              declared_icons doc "CFBundleIcons~ipad" <> None ->
              doc' = doc)).
Proof.
  cbn zeta.
  assert (PIL_import
            (disk (ScriptedIcon.start ScriptedIcon.icon_disk ScriptedIcon.icon_document
                     true))
            (pil (tool (ScriptedIcon.start ScriptedIcon.icon_disk
                          ScriptedIcon.icon_document true)))
          = Ok tt) as H1 by reflexivity.
  assert ((change_icon app "/src/missing.jpg" "/tmp"
             (ScriptedIcon.start ScriptedIcon.icon_disk ScriptedIcon.icon_document true)).1
          = Raise FileNotFoundError) as H2 by (vm_compute; reflexivity).
  split; [exact H1|]. split; [exact H2|].
  exact (change_icon_failure app "/src/missing.jpg" "/tmp"
           (ScriptedIcon.start ScriptedIcon.icon_disk ScriptedIcon.icon_document true)
           _ H1 H2).
Defined.

(** [change_icon_malformed_declaration] on the document whose icon
    declaration is a string. *)
Lemma change_icon_malformed_declaration_witness :
  let st := ScriptedIcon.start ScriptedIcon.icon_disk ScriptedIcon.odd_document true in
  let run := change_icon app "/src/icon.png" "/tmp" st in
  let doc := plist_document (tool st) in
  PIL_import (disk st) (pil (tool st)) = Ok tt
  /\ (declared_icons doc "CFBundleIcons" = None
      \/ declared_icons doc "CFBundleIcons~ipad" = None)
  /\ exists e cs,
      run.1 = Raise e
      /\ stdout run.2 = stdout st
      /\ calls (tool run.2) = calls (tool st) ++ CallImport (Ok tt) :: cs
      /\ Forall (fun c => is_plist_save c = false) cs.
Proof.
  cbn zeta.
  assert (PIL_import
            (disk (ScriptedIcon.start ScriptedIcon.icon_disk ScriptedIcon.odd_document
                     true))
            (pil (tool (ScriptedIcon.start ScriptedIcon.icon_disk
                          ScriptedIcon.odd_document true)))
          = Ok tt) as H1 by reflexivity.
  assert (declared_icons
            (plist_document
               (tool (ScriptedIcon.start ScriptedIcon.icon_disk
                        ScriptedIcon.odd_document true))) "CFBundleIcons" = None
          \/ declared_icons
               (plist_document
                  (tool (ScriptedIcon.start ScriptedIcon.icon_disk
                           ScriptedIcon.odd_document true))) "CFBundleIcons~ipad" = None)
    as H2 by (left; reflexivity).
  split; [exact H1|]. split; [exact H2|].
  exact (change_icon_malformed_declaration app "/src/icon.png" "/tmp"
           (ScriptedIcon.start ScriptedIcon.icon_disk ScriptedIcon.odd_document true)
           H1 H2).
Defined.

(** [png_copy_failure_ends_run] on a PNG source that does not exist. *)
Lemma png_copy_failure_ends_run_witness :
  let st := ScriptedIcon.start ScriptedIcon.icon_disk ScriptedIcon.icon_document true in
  PIL_import (disk st) (pil (tool st)) = Ok tt
  /\ endswith "/src/missing.png" ".png" = true
  /\ (copyfile "/src/missing.png" ("/tmp" +:+ "/icon.png") (disk st)).1
     = Raise FileNotFoundError
  /\ change_icon app "/src/missing.png" "/tmp" st
     = (Raise FileNotFoundError,
        mkState (disk st)
          (mkWorld (plist_document (tool st)) (calls (tool st) ++ [CallImport (Ok tt)])
                   (pil (tool st)))
          (stdout st) (trace st)).
Proof.
  cbn zeta.
  assert (PIL_import
            (disk (ScriptedIcon.start ScriptedIcon.icon_disk ScriptedIcon.icon_document
                     true))
            (pil (tool (ScriptedIcon.start ScriptedIcon.icon_disk
                          ScriptedIcon.icon_document true)))
          = Ok tt) as H1 by reflexivity.
  assert (endswith "/src/missing.png" ".png" = true) as H2 by (vm_compute; reflexivity).
  assert ((copyfile "/src/missing.png" ("/tmp" +:+ "/icon.png")
             (disk (ScriptedIcon.start ScriptedIcon.icon_disk
                      ScriptedIcon.icon_document true))).1
          = Raise FileNotFoundError) as H3 by (vm_compute; reflexivity).
  split; [exact H1|]. split; [exact H2|]. split; [exact H3|].
  exact (png_copy_failure_ends_run app "/src/missing.png" "/tmp"
           (ScriptedIcon.start ScriptedIcon.icon_disk ScriptedIcon.icon_document true)
           _ H1 H2 H3).
Defined.
